(** * requests: a verification model of request.go

    The package is a thin layer over Go's net/http.  This development embeds
    [request.go] (the dispatcher [request], the four body encoders and the
    five verb functions) as Rocq functions and proves properties of them.

    Go strings are byte sequences: they are modelled by [string] (a list of
    [ascii], i.e. of bytes).  Go maps are modelled by stdpp's [gmap]; a map
    that may be [nil] is an [option (gmap _ _)].  The order in which a
    [range] loop visits a map is not fixed by Go: it is a component of the
    environment ([range_order]) constrained only to enumerate the map. *)

From Stdlib Require Import ZArith NArith Ascii String List Bool Lia.
From stdpp Require Import base option list gmap strings fin_maps sorting.

Local Open Scope string_scope.
Local Open Scope Z_scope.

(* ===================================================================== *)
(** ** The [error] interface *)
(* ===================================================================== *)

(** An [error] value is either built by this package with [errors.New], or
    it comes out of one of the libraries the package calls (net/url,
    net/http, encoding/json, io); [pkg] records which. *)
Inductive error : Type :=
| errors_New (text : string)
| lib_error (pkg : string) (text : string).

Definition Error (e : error) : string :=
  match e with
  | errors_New text => text
  | lib_error _ text => text
  end.

(* ===================================================================== *)
(** ** Bytes and package strings *)
(* ===================================================================== *)

Definition byte_in (lo hi : N) (c : ascii) : bool :=
  let n := N_of_ascii c in (N.leb lo n && N.leb n hi)%bool.

Definition is_digit (c : ascii) : bool := byte_in 48 57 c.
Definition is_upper (c : ascii) : bool := byte_in 65 90 c.
Definition is_lower (c : ascii) : bool := byte_in 97 122 c.
Definition is_alnum (c : ascii) : bool :=
  (is_digit c || is_upper c || is_lower c)%bool.

Definition CR : ascii := ascii_of_N 13.
Definition LF : ascii := ascii_of_N 10.
Definition CRLF : string := String CR (String LF EmptyString).
Definition DQUOTE : ascii := ascii_of_N 34.

(** [strings.IndexByte(s, c) >= 0] *)
Fixpoint has_byte (c : ascii) (s : string) : bool :=
  match s with
  | EmptyString => false
  | String a s' => (Ascii.eqb a c || has_byte c s')%bool
  end.

(** [strings.Contains(s, substr)] *)
Fixpoint strings_Contains (s substr : string) : bool :=
  (String.prefix substr s ||
   match s with
   | EmptyString => false
   | String _ s' => strings_Contains s' substr
   end)%bool.

(** [strings.ContainsAny(s, chars)] *)
Fixpoint strings_ContainsAny (s chars : string) : bool :=
  match s with
  | EmptyString => false
  | String a s' => (has_byte a chars || strings_ContainsAny s' chars)%bool
  end.

(** [strings.Cut(s, sep)] for a one-byte separator: the text before the
    first [sep], the text after it, and whether [sep] occurs. *)
Fixpoint strings_Cut (s : string) (sep : ascii) : string * string * bool :=
  match s with
  | EmptyString => (EmptyString, EmptyString, false)
  | String a s' =>
      if Ascii.eqb a sep then (EmptyString, s', true)
      else let '(before, after, found) := strings_Cut s' sep in
           (String a before, after, found)
  end.

(** [strings.Split(s, sep)] for a one-byte separator. *)
Fixpoint strings_Split (s : string) (sep : ascii) : list string :=
  match s with
  | EmptyString => [EmptyString]
  | String a s' =>
      if Ascii.eqb a sep then EmptyString :: strings_Split s' sep
      else match strings_Split s' sep with
           | [] => [String a EmptyString]
           | seg :: segs => String a seg :: segs
           end
  end.

(** The [escapeQuotes] of mime/multipart, a [strings.Replacer] with four
    pairs: a backslash is put before every backslash and every double
    quote, and a carriage return or line feed is written [%0D] or [%0A]. *)
Fixpoint escapeQuotes (s : string) : string :=
  match s with
  | EmptyString => EmptyString
  | String a s' =>
      if Ascii.eqb a "\" then String "\" (String "\" (escapeQuotes s'))
      else if Ascii.eqb a DQUOTE then String "\" (String DQUOTE (escapeQuotes s'))
      else if Ascii.eqb a CR then "%0D" ++ escapeQuotes s'
      else if Ascii.eqb a LF then "%0A" ++ escapeQuotes s'
      else String a (escapeQuotes s')
  end.

Definition lowerhex : string := "0123456789abcdef".

Definition lowerhexdigit (n : N) : ascii :=
  match String.get (N.to_nat n) lowerhex with
  | Some c => c
  | None => "0"%char
  end.

(** One byte inside [strconv.Quote]: the quote and the backslash get a
    backslash, a printable ASCII byte is kept, a control byte is written
    with its letter or as [\xNN].  A byte from 128 on is written [\xNN],
    which is what Go does with a byte that is not part of a valid UTF-8
    sequence (a printable rune of several bytes is kept by Go). *)
Definition quote_byte (c : ascii) : string :=
  let n := N_of_ascii c in
  if Ascii.eqb c DQUOTE then String "\" (String DQUOTE EmptyString)
  else if Ascii.eqb c "\" then "\\"
  else if byte_in 32 126 c then String c EmptyString
  else if N.eqb n 7 then "\a"
  else if N.eqb n 8 then "\b"
  else if N.eqb n 12 then "\f"
  else if N.eqb n 10 then "\n"
  else if N.eqb n 13 then "\r"
  else if N.eqb n 9 then "\t"
  else if N.eqb n 11 then "\v"
  else String "\" (String "x" (String (lowerhexdigit (N.shiftr n 4))
                                  (String (lowerhexdigit (N.land n 15)) EmptyString))).

Fixpoint quote_bytes (s : string) : string :=
  match s with
  | EmptyString => EmptyString
  | String c s' => quote_byte c ++ quote_bytes s'
  end.

(** [strconv.Quote], the verb [%q] of fmt. *)
Definition strconv_Quote (s : string) : string :=
  String DQUOTE (quote_bytes s) ++ String DQUOTE EmptyString.

(* ===================================================================== *)
(** ** encoding/base64: [StdEncoding.EncodeToString] *)
(* ===================================================================== *)

Definition encodeStd : string :=
  "ABCDEFGHIJKLMNOPQRSTUVWXYZabcdefghijklmnopqrstuvwxyz0123456789+/".

Definition b64 (n : N) : ascii :=
  match String.get (N.to_nat n) encodeStd with
  | Some c => c
  | None => "="%char
  end.

Fixpoint base64_EncodeToString (src : string) : string :=
  match src with
  | EmptyString => EmptyString
  | String a EmptyString =>
      let x := N_of_ascii a in
      String (b64 (N.shiftr x 2))
        (String (b64 (N.shiftl (N.land x 3) 4)) "==")
  | String a (String b EmptyString) =>
      let x := N_of_ascii a in
      let y := N_of_ascii b in
      String (b64 (N.shiftr x 2))
        (String (b64 (N.lor (N.shiftl (N.land x 3) 4) (N.shiftr y 4)))
           (String (b64 (N.shiftl (N.land y 15) 2)) "="))
  | String a (String b (String c rest)) =>
      let x := N_of_ascii a in
      let y := N_of_ascii b in
      let z := N_of_ascii c in
      String (b64 (N.shiftr x 2))
        (String (b64 (N.lor (N.shiftl (N.land x 3) 4) (N.shiftr y 4)))
           (String (b64 (N.lor (N.shiftl (N.land y 15) 2) (N.shiftr z 6)))
              (String (b64 (N.land z 63)) (base64_EncodeToString rest))))
  end.

(* ===================================================================== *)
(** ** net/url: query escaping, [Values], [ParseQuery] *)
(* ===================================================================== *)

Definition upperhex : string := "0123456789ABCDEF".

Definition hexdigit (n : N) : ascii :=
  match String.get (N.to_nat n) upperhex with
  | Some c => c
  | None => "0"%char
  end.

(** [shouldEscape(c, encodeQueryComponent)]: everything but the unreserved
    characters of RFC 3986 is escaped. *)
Definition shouldEscape (c : ascii) : bool :=
  negb (is_alnum c || has_byte c "-_.~").

(** [url.QueryEscape] *)
Fixpoint url_QueryEscape (s : string) : string :=
  match s with
  | EmptyString => EmptyString
  | String c s' =>
      if Ascii.eqb c " " then String "+" (url_QueryEscape s')
      else if shouldEscape c then
        String "%"
          (String (hexdigit (N.shiftr (N_of_ascii c) 4))
             (String (hexdigit (N.land (N_of_ascii c) 15)) (url_QueryEscape s')))
      else String c (url_QueryEscape s')
  end.

Definition ishex (c : ascii) : bool :=
  (is_digit c || byte_in 97 102 c || byte_in 65 70 c)%bool.

Definition unhex (c : ascii) : N :=
  let n := N_of_ascii c in
  if is_digit c then n - 48
  else if byte_in 97 102 c then n - 97 + 10
  else if byte_in 65 70 c then n - 65 + 10
  else 0.

Definition EscapeError (s : string) : error :=
  lib_error "net/url" ("invalid URL escape " ++ strconv_Quote s).

(** [url.QueryUnescape]: [%XX] is a byte, [+] is a space; a [%] that is not
    followed by two hex digits is an error quoting at most three bytes. *)
Fixpoint url_QueryUnescape (s : string) : string + error :=
  match s with
  | EmptyString => inl EmptyString
  | String c s' =>
      if Ascii.eqb c "%" then
        match s' with
        | String h (String l rest) =>
            if (ishex h && ishex l)%bool then
              match url_QueryUnescape rest with
              | inl t => inl (String (ascii_of_N (unhex h * 16 + unhex l)) t)
              | inr e => inr e
              end
            else inr (EscapeError (String c (String h (String l EmptyString))))
        | _ => inr (EscapeError s)
        end
      else
        match url_QueryUnescape s' with
        | inl t => inl (String (if Ascii.eqb c "+" then " "%char else c) t)
        | inr e => inr e
        end
  end.

(** [url.Values] is [map[string][]string]. *)
Abbreviation Values := (gmap string (list string)).

(** [Values.Get]-style access to the slice stored under a key ([nil] when
    the key is absent). *)
Definition Values_at (v : Values) (key : string) : list string :=
  default [] (v !! key).

(** [func (v Values) Add(key, value string)] *)
Definition Values_Add (v : Values) (key value : string) : Values :=
  <[key := (Values_at v key ++ [value])%list]> v.

Definition string_le (a b : string) : Prop := String.leb a b = true.

#[global] Instance string_le_dec a b : Decision (string_le a b).
Proof. unfold string_le. apply _. Defined.

(** [slices.Sort] of the keys of a map. *)
Definition sorted_keys {V} (m : gmap string V) : list string :=
  merge_sort string_le (map_to_list m).*1.

(** One turn of the inner loop of [Values.Encode]. *)
Definition Encode_write (keyEscaped : string) (buf value : string) : string :=
  (if (0 <? Z.of_nat (String.length buf)) then buf ++ "&" else buf)
    ++ keyEscaped ++ "=" ++ url_QueryEscape value.

(** [func (v Values) Encode() string]: keys in sorted order, the values of
    one key in their slice order. *)
Definition Values_Encode (v : Values) : string :=
  foldl (fun buf k => foldl (Encode_write (url_QueryEscape k)) buf (Values_at v k))
        EmptyString (sorted_keys v).

Definition err_semicolon : error :=
  lib_error "net/url" "invalid semicolon separator in query".

(** The body of the loop of [url.parseQuery] for one [&]-separated piece:
    the first error is kept and parsing goes on. *)
Definition parseQuery_piece (acc : Values * option error) (piece : string)
  : Values * option error :=
  let '(m, err) := acc in
  if has_byte ";" piece then (m, Some err_semicolon)
  else if String.eqb piece EmptyString then (m, err)
  else
    let '(key, value, _) := strings_Cut piece "=" in
    match url_QueryUnescape key with
    | inr err1 => (m, Some (default err1 err))
    | inl key =>
        match url_QueryUnescape value with
        | inr err1 => (m, Some (default err1 err))
        | inl value => (Values_Add m key value, err)
        end
    end.

(** [url.ParseQuery] *)
Definition url_ParseQuery (query : string) : Values * option error :=
  foldl parseQuery_piece (∅, None) (strings_Split query "&").

(** The [RawQuery] that [url.Parse] extracts: the fragment is cut off at the
    first [#], then the query is what follows the first [?]. *)
Definition URL_RawQuery (rawurl : string) : string :=
  let '(u, _, _) := strings_Cut rawurl "#" in
  let '(_, query, _) := strings_Cut u "?" in
  query.

(* ===================================================================== *)
(** ** net/textproto and net/http: headers, requests, responses *)
(* ===================================================================== *)

Fixpoint all_bytes (p : ascii -> bool) (s : string) : bool :=
  match s with
  | EmptyString => true
  | String a s' => (p a && all_bytes p s')%bool
  end.

(** The token bytes of RFC 7230, [validHeaderFieldByte]. *)
Definition validHeaderFieldByte (c : ascii) : bool :=
  (is_alnum c || has_byte c "!#$%&'*+-.^_`|~")%bool.

(** The casing loop of [canonicalMIMEHeaderKey]: upper case at the start
    and after each dash, lower case elsewhere. *)
Fixpoint canonical_case (upper : bool) (s : string) : string :=
  match s with
  | EmptyString => EmptyString
  | String c s' =>
      let c' :=
        if (upper && is_lower c)%bool then ascii_of_N (N_of_ascii c - 32)
        else if (negb upper && is_upper c)%bool then ascii_of_N (N_of_ascii c + 32)
        else c in
      String c' (canonical_case (Ascii.eqb c' "-") s')
  end.

(** [textproto.CanonicalMIMEHeaderKey]: a key holding a space or a byte that
    is not a token byte is returned as it is. *)
Definition CanonicalMIMEHeaderKey (s : string) : string :=
  if all_bytes validHeaderFieldByte s then canonical_case true s else s.

(** [http.Header] is [map[string][]string]. *)
Abbreviation Header := (gmap string (list string)).

Definition Header_Set (h : Header) (key value : string) : Header :=
  <[CanonicalMIMEHeaderKey key := [value]]> h.

Definition Header_Get (h : Header) (key : string) : string :=
  match h !! CanonicalMIMEHeaderKey key with
  | Some (v :: _) => v
  | _ => EmptyString
  end.

(** An [io.Reader] handed over as a request body.  [http.NewRequest] tells
    three types from all others, [*strings.Reader], [*bytes.Buffer] and
    [*bytes.Reader]; the pointer inside the interface value may be [nil]
    ([None]).  The encoders pass one of the first two, a caller may pass
    any reader in the [Body] option: [io_Reader] is a reader of any other
    type, seen through the bytes it yields. *)
Inductive Reader : Type :=
| strings_Reader (p : option string)
| bytes_Buffer (p : option string)
| bytes_Reader (p : option string)
| io_Reader (stream : string).

Module http.

Definition MethodGet : string := "GET".
Definition MethodPost : string := "POST".
Definition MethodPut : string := "PUT".
Definition MethodPatch : string := "PATCH".
Definition MethodDelete : string := "DELETE".

Definition StatusOK : Z := 200.
Definition StatusIMUsed : Z := 226.

(** The parts of [http.Request] the package touches.  [URL] is the text
    [http.NewRequest] was given: the request holds what [url.Parse] made
    of that text, which the text determines ([url.Parse] may spell it
    differently when it is printed again). *)
Record Request : Type := {
  Method : string;
  URL : string;
  Header : gmap string (list string);
  Body : option Reader
}.

(** The parts of [http.Response] the package reads, and the header and
    body it carries along. *)
Record Response : Type := {
  Status : string;
  StatusCode : Z;
  RspHeader : gmap string (list string);
  RspBody : string
}.

(** The settings of the [http.Client] and of its [http.Transport] that
    depend on the call. *)
Record Client : Type := {
  Timeout : Z;             (* time.Duration: int64 nanoseconds *)
  DisableKeepAlives : bool
}.

Definition SetBasicAuth (req : Request) (username password : string) : Request :=
  {| Method := Method req; URL := URL req;
     Header := Header_Set (Header req) "Authorization"
                 ("Basic " ++ base64_EncodeToString (username ++ ":" ++ password));
     Body := Body req |}.

Definition SetHeader (req : Request) (key value : string) : Request :=
  {| Method := Method req; URL := URL req;
     Header := Header_Set (Header req) key value;
     Body := Body req |}.

End http.

(** What a library call can do: return a value, return an error, or stop
    the goroutine with a run-time panic. *)
Inductive outcome (A : Type) : Type :=
| Ok (a : A)
| Err (err : error)
| Panic (msg : string).
Arguments Ok {A} a.
Arguments Err {A} err.
Arguments Panic {A} msg.

Definition validMethod (method : string) : bool :=
  (negb (String.eqb method EmptyString) && all_bytes validHeaderFieldByte method)%bool.

Definition nil_dereference : string :=
  "runtime error: invalid memory address or nil pointer dereference".
Definition nil_map_write : string :=
  "assignment to entry in nil map".

(** [time.Duration] arithmetic is on int64. *)
Definition wrap64 (z : Z) : Z :=
  (z + 2 ^ 63) mod 2 ^ 64 - 2 ^ 63.

Definition time_Second : Z := 1000000000.

(* ===================================================================== *)
(** ** The environment of a call *)
(* ===================================================================== *)

(** What the package does not decide: the network round trip made by
    [http.Client.Do], the URL syntax check made by [url.Parse] inside
    [http.NewRequest] ([None] when the URL is accepted), the random
    boundary drawn by [multipart.NewWriter], which prints random bytes in
    hexadecimal, and the order in which a [range] loop visits the entries
    of a map. *)
Class Env : Type := {
  client_Do : http.Client -> http.Request -> option http.Response * option error;
  url_Parse : string -> option error;
  randomBoundary : string;
  randomBoundary_hex : all_bytes ishex randomBoundary = true;
  range_order : forall {V : Type}, gmap string V -> list (string * V);
  range_order_perm : forall (V : Type) (m : gmap string V),
      range_order m ≡ₚ map_to_list m
}.

(** [http.NewRequest(method, url, body)]: the method is checked, the URL is
    parsed, and the length of a [*strings.Reader], [*bytes.Buffer] or
    [*bytes.Reader] body is read through the pointer. *)
Definition http_NewRequest `{Env} (method url : string) (body : option Reader)
  : outcome http.Request :=
  let method := if String.eqb method EmptyString then "GET" else method in
  if negb (validMethod method) then
    Err (lib_error "net/http" ("net/http: invalid method " ++ strconv_Quote method))
  else
    match url_Parse url with
    | Some err => Err err
    | None =>
        match body with
        | Some (strings_Reader None) | Some (bytes_Buffer None)
        | Some (bytes_Reader None) => Panic nil_dereference
        | _ => Ok {| http.Method := method; http.URL := url;
                     http.Header := ∅; http.Body := body |}
        end
    end.

(* ===================================================================== *)
(** ** mime/multipart: the [Writer] over a [bytes.Buffer] *)
(* ===================================================================== *)

(** A named byte source, the [*os.File] of the [Files] option.  The map
    holds pointers: [ptr] is the address of the open file, and two entries
    with the same address are one open file.  [Name] is its name,
    [contents] the bytes from its current offset to its end, and
    [read_error] the error that ends a reading of it ([None] for a plain
    end of file). *)
Record File : Type := {
  ptr : N;
  Name : string;
  contents : string;
  read_error : option error
}.

(** Reading an open file to its end leaves its offset there: [drained]
    holds the addresses of the files read so far, and a file read once
    more yields no bytes. *)
Definition File_read (drained : list N) (fh : File) : string :=
  if bool_decide (ptr fh ∈ drained) then EmptyString else contents fh.

Module multipart.

(** [w] is the content of the buffer the writer writes to; [lastpart]
    tells whether a part has been started. *)
Record Writer : Type := {
  w : string;
  boundary : string;
  lastpart : bool
}.

Definition NewWriter (b : string) : Writer :=
  {| w := EmptyString; boundary := b; lastpart := false |}.

(** [CreateFormFile] through [CreatePart]: the delimiter line, then the
    two header lines in sorted order, then an empty line.  Writing to a
    [bytes.Buffer] does not fail, so the error is always [nil]. *)
Definition CreateFormFile (bw : Writer) (fieldname filename : string)
  : Writer * option error :=
  let delimiter :=
    if lastpart bw then CRLF ++ "--" ++ boundary bw ++ CRLF
    else "--" ++ boundary bw ++ CRLF in
  let header :=
    "Content-Disposition: form-data; name=" ++ String DQUOTE (escapeQuotes fieldname)
      ++ String DQUOTE "; filename=" ++ String DQUOTE (escapeQuotes filename)
      ++ String DQUOTE CRLF
      ++ "Content-Type: application/octet-stream" ++ CRLF in
  ({| w := w bw ++ delimiter ++ header ++ CRLF;
      boundary := boundary bw; lastpart := true |}, None).

(** [io.Copy(fileWriter, fh)]: the bytes read are appended to the current
    part; the error of the source, if any, is returned. *)
Definition Copy (bw : Writer) (drained : list N) (fh : File) : Writer * option error :=
  ({| w := w bw ++ File_read drained fh; boundary := boundary bw;
      lastpart := lastpart bw |},
   read_error fh).

(** [Close]: the closing delimiter. *)
Definition Close (bw : Writer) : Writer * option error :=
  ({| w := w bw ++ CRLF ++ "--" ++ boundary bw ++ "--" ++ CRLF;
      boundary := boundary bw; lastpart := false |}, None).

Definition FormDataContentType (bw : Writer) : string :=
  let b := boundary bw in
  let b := if strings_ContainsAny b ("()<>@,;:\" ++ String DQUOTE "/[]?= ")
           then String DQUOTE b ++ String DQUOTE EmptyString else b in
  "multipart/form-data; boundary=" ++ b.

End multipart.

(* ===================================================================== *)
(** ** The option set *)
(* ===================================================================== *)

(** A value of type [interface{}] (the [Data] and [JSON] payloads), seen
    through the two operations the package applies to it: formatting with
    the verb [%v] and [json.Marshal]. *)
Record any : Type := {
  fmt_Sprint : string;
  json_Marshal : string + error
}.

(** Modelled from the spec: the declaration of the authentication variant
    is not in request.go; the option set holds [none] or
    [basic{username, password}], of which request.go reads the fields
    [authType], [username] and [password] and the constant
    [HTTPBasicAuth]. *)
Inductive AuthType : Type := HTTPNoAuth | HTTPBasicAuth.

Record Auth : Type := {
  authType : AuthType;
  username : string;
  password : string
}.

#[global] Instance AuthType_eq_dec : EqDecision AuthType.
Proof. solve_decision. Defined.

Module Options.

(** Modelled from the spec: the declaration of the option set is not in
    request.go; these are the fields request.go reads, with the types
    the spec's data model gives them.  A Go map or interface field may be
    [nil], which is [None]. *)
Record t : Type := {
  Headers : option (gmap string string);
  Params : option (gmap string string);
  Body : option Reader;
  Data : option any;
  Form : option (gmap string string);
  JSON : option any;
  Files : option (gmap string File);
  Auth : Auth;
  Timeout : Z;
  DisableKeepAlives : bool
}.

(** Modelled from the spec: the option set the setters are applied to
    (the initial value is chosen in [parseOptions], missing from
    request.go).  It is fully populated: the headers mapping is there,
    empty, for the encoders to set Content-Type in, and a caller who
    supplies no [Headers] finds it so; the payload fields, which
    request.go tests against [nil], the query parameters and the body
    are [nil], and the scalars are zero. *)
Definition zero : t :=
  {| Headers := Some ∅; Params := None; Body := None; Data := None;
     Form := None; JSON := None; Files := None;
     Auth := {| authType := HTTPNoAuth; username := EmptyString;
                password := EmptyString |};
     Timeout := 0; DisableKeepAlives := false |}.

End Options.

(** A setting-applicator (in Go, a function that updates the option set through a pointer). *)
Definition Option : Type := Options.t -> Options.t.

(** Modelled from the spec: the setters are not in request.go (it calls
    [Headers] and [Body]).  Each one overrides its field: a later setting
    replaces an earlier one, mappings are replaced wholesale and not
    merged.  [Headers] sets the headers mapping. *)
Definition Headers (headers : option (gmap string string)) : Option :=
  fun opts =>
    {| Options.Headers := headers; Options.Params := Options.Params opts;
       Options.Body := Options.Body opts; Options.Data := Options.Data opts;
       Options.Form := Options.Form opts; Options.JSON := Options.JSON opts;
       Options.Files := Options.Files opts; Options.Auth := Options.Auth opts;
       Options.Timeout := Options.Timeout opts;
       Options.DisableKeepAlives := Options.DisableKeepAlives opts |}.

(** Modelled from the spec: the setter of the query parameters, missing from request.go. *)
Definition Params (params : option (gmap string string)) : Option :=
  fun opts =>
    {| Options.Headers := Options.Headers opts; Options.Params := params;
       Options.Body := Options.Body opts; Options.Data := Options.Data opts;
       Options.Form := Options.Form opts; Options.JSON := Options.JSON opts;
       Options.Files := Options.Files opts; Options.Auth := Options.Auth opts;
       Options.Timeout := Options.Timeout opts;
       Options.DisableKeepAlives := Options.DisableKeepAlives opts |}.

(** Modelled from the spec: the setter request.go calls with the encoded body, missing
    from request.go; it sets the reader the dispatcher sends. *)
Definition Body (body : option Reader) : Option :=
  fun opts =>
    {| Options.Headers := Options.Headers opts; Options.Params := Options.Params opts;
       Options.Body := body; Options.Data := Options.Data opts;
       Options.Form := Options.Form opts; Options.JSON := Options.JSON opts;
       Options.Files := Options.Files opts; Options.Auth := Options.Auth opts;
       Options.Timeout := Options.Timeout opts;
       Options.DisableKeepAlives := Options.DisableKeepAlives opts |}.

(** Modelled from the spec: the setter of the raw-data payload, missing from request.go. *)
Definition Data (data : option any) : Option :=
  fun opts =>
    {| Options.Headers := Options.Headers opts; Options.Params := Options.Params opts;
       Options.Body := Options.Body opts; Options.Data := data;
       Options.Form := Options.Form opts; Options.JSON := Options.JSON opts;
       Options.Files := Options.Files opts; Options.Auth := Options.Auth opts;
       Options.Timeout := Options.Timeout opts;
       Options.DisableKeepAlives := Options.DisableKeepAlives opts |}.

(** Modelled from the spec: the setter of the form payload, missing from request.go. *)
Definition Form (form : option (gmap string string)) : Option :=
  fun opts =>
    {| Options.Headers := Options.Headers opts; Options.Params := Options.Params opts;
       Options.Body := Options.Body opts; Options.Data := Options.Data opts;
       Options.Form := form; Options.JSON := Options.JSON opts;
       Options.Files := Options.Files opts; Options.Auth := Options.Auth opts;
       Options.Timeout := Options.Timeout opts;
       Options.DisableKeepAlives := Options.DisableKeepAlives opts |}.

(** Modelled from the spec: the setter of the JSON payload, missing from request.go. *)
Definition JSON (v : option any) : Option :=
  fun opts =>
    {| Options.Headers := Options.Headers opts; Options.Params := Options.Params opts;
       Options.Body := Options.Body opts; Options.Data := Options.Data opts;
       Options.Form := Options.Form opts; Options.JSON := v;
       Options.Files := Options.Files opts; Options.Auth := Options.Auth opts;
       Options.Timeout := Options.Timeout opts;
       Options.DisableKeepAlives := Options.DisableKeepAlives opts |}.

(** Modelled from the spec: the setter of the files payload, missing from request.go. *)
Definition Files (files : option (gmap string File)) : Option :=
  fun opts =>
    {| Options.Headers := Options.Headers opts; Options.Params := Options.Params opts;
       Options.Body := Options.Body opts; Options.Data := Options.Data opts;
       Options.Form := Options.Form opts; Options.JSON := Options.JSON opts;
       Options.Files := files; Options.Auth := Options.Auth opts;
       Options.Timeout := Options.Timeout opts;
       Options.DisableKeepAlives := Options.DisableKeepAlives opts |}.

(** Modelled from the spec: the option effect [Auth(scheme, credentials)] for the
    basic scheme, missing from request.go. *)
Definition BasicAuth (username password : string) : Option :=
  fun opts =>
    {| Options.Headers := Options.Headers opts; Options.Params := Options.Params opts;
       Options.Body := Options.Body opts; Options.Data := Options.Data opts;
       Options.Form := Options.Form opts; Options.JSON := Options.JSON opts;
       Options.Files := Options.Files opts;
       Options.Auth := {| authType := HTTPBasicAuth; username := username;
                          password := password |};
       Options.Timeout := Options.Timeout opts;
       Options.DisableKeepAlives := Options.DisableKeepAlives opts |}.

(** Modelled from the spec: the setter of the timeout in seconds, missing from
    request.go. *)
Definition Timeout (timeout : Z) : Option :=
  fun opts =>
    {| Options.Headers := Options.Headers opts; Options.Params := Options.Params opts;
       Options.Body := Options.Body opts; Options.Data := Options.Data opts;
       Options.Form := Options.Form opts; Options.JSON := Options.JSON opts;
       Options.Files := Options.Files opts; Options.Auth := Options.Auth opts;
       Options.Timeout := timeout;
       Options.DisableKeepAlives := Options.DisableKeepAlives opts |}.

(** Modelled from the spec: the setter of the keep-alive switch, missing from
    request.go. *)
Definition DisableKeepAlives (b : bool) : Option :=
  fun opts =>
    {| Options.Headers := Options.Headers opts; Options.Params := Options.Params opts;
       Options.Body := Options.Body opts; Options.Data := Options.Data opts;
       Options.Form := Options.Form opts; Options.JSON := Options.JSON opts;
       Options.Files := Options.Files opts; Options.Auth := Options.Auth opts;
       Options.Timeout := Options.Timeout opts;
       Options.DisableKeepAlives := b |}.

(** Modelled from the spec: [parseOptions] is not in request.go.  The
    setting-applicators are applied from left to right to the initial
    option set. *)
Definition parseOptions (setters : list Option) : Options.t :=
  foldl (fun opts setter => setter opts) Options.zero setters.

(* ===================================================================== *)
(** ** request.go *)
(* ===================================================================== *)

(** The wrapper around the transport's response ([&Response{rsp: rsp}]). *)
Record Response : Type := { rsp : http.Response }.

(** How a call of one of the package's functions ends: it returns the pair
    of a response pointer and an error, either of which may be [nil], or it
    panics. *)
Inductive result : Type :=
| Returned (r : option Response) (err : option error)
| Panicked (msg : string).

(** A call, observed from outside: the requests it submitted to the
    transport, in order, and how it ended. *)
Record call : Type := {
  sent : list http.Request;
  ended : result
}.

Definition ret (r : option Response) (err : option error) : call :=
  {| sent := []; ended := Returned r err |}.

Definition panic (msg : string) : call :=
  {| sent := []; ended := Panicked msg |}.

(** [r, err := f(...); if err != nil { return r, err }; return r, nil] *)
Definition return_r_err (c : call) : call :=
  match ended c with
  | Returned r (Some err) => {| sent := sent c; ended := Returned r (Some err) |}
  | Returned r None => {| sent := sent c; ended := Returned r None |}
  | Panicked msg => c
  end.

Definition err_params : error :=
  errors_New "params not nil, so raw url should not contain character '?'".

(** The five verbs, and the encoders a verb can hand the call to. *)
Inductive Verb : Type := GET | POST | PUT | PATCH | DELETE.

Inductive Encoder : Type := enc_data | enc_form | enc_json | enc_files | enc_none.

Definition method_of (v : Verb) : string :=
  match v with
  | GET => http.MethodGet
  | POST => http.MethodPost
  | PUT => http.MethodPut
  | PATCH => http.MethodPatch
  | DELETE => http.MethodDelete
  end.

Section request_go.

Context `{Env}.

(** [for k, v := range m { values.Add(k, v) }] *)
Definition add_all (m : gmap string string) : Values :=
  foldl (fun values '(k, v) => Values_Add values k v) ∅ (range_order m).

(** The first block of [request]: the query parameters are appended to
    the URL, which must not hold a [?] already. *)
Definition merge_params (params : option (gmap string string)) (rawurl : string)
  : string + error :=
  match params with
  | Some params =>
      if negb (Nat.eqb (size params) 0) then
        (* check raw url, should not contain character '?' *)
        if strings_Contains rawurl "?" then inr err_params
        else
          let queryValues := add_all params in
          let queryString := Values_Encode queryValues in
          inl (rawurl ++ "?" ++ queryString)
      else inl rawurl
  | None => inl rawurl
  end.

(** [for k, v := range opts.Headers { req.Header.Set(k, v) }] *)
Definition fill_headers (req : http.Request) (headers : option (gmap string string))
  : http.Request :=
  match headers with
  | Some headers =>
      foldl (fun req '(k, v) => http.SetHeader req k v) req (range_order headers)
  | None => req
  end.

(** The [http.Client] and [http.Transport] literals of [request]. *)
Definition new_client (opts : Options.t) : http.Client :=
  {| http.Timeout := wrap64 (wrap64 (Options.Timeout opts) * time_Second);
     http.DisableKeepAlives := Options.DisableKeepAlives opts |}.

(** [func request]: the dispatcher. *)
Definition request (method rawurl : string) (setters : list Option) : call :=
  let opts := parseOptions setters in
  match merge_params (Options.Params opts) rawurl with
  | inr err => ret None (Some err)
  | inl rawurl =>
      match http_NewRequest method rawurl (Options.Body opts) with
      | Panic msg => panic msg
      | Err err => ret None (Some err)
      | Ok req =>
          (* fill http headers *)
          let req := fill_headers req (Options.Headers opts) in
          let req :=
            if decide (authType (Options.Auth opts) = HTTPBasicAuth)
            then http.SetBasicAuth req (username (Options.Auth opts))
                                   (password (Options.Auth opts))
            else req in
          let client := new_client opts in
          match client_Do client req with
          | (_, Some err) => {| sent := [req]; ended := Returned None (Some err) |}
          | (None, None) =>
              {| sent := [req];
                 ended := Returned None (Some (errors_New "response is nil")) |}
          | (Some rsp, None) =>
              (* wrap http response *)
              let r := {| rsp := rsp |} in
              if ((http.StatusCode rsp <? http.StatusOK)
                  || (http.StatusCode rsp >? http.StatusIMUsed))%bool
              then {| sent := [req];
                      ended := Returned (Some r) (Some (errors_New (http.Status rsp))) |}
              else {| sent := [req]; ended := Returned (Some r) None |}
          end
      end
  end.

(** [func requestData]: the payload formatted with [%v] is the body. *)
Definition requestData (method rawurl : string) (setters : list Option) : call :=
  let opts := parseOptions setters in
  let body : option string :=
    match Options.Data opts with
    | Some data => Some (fmt_Sprint data)
    | None => None
    end in
  let setters := (setters ++ [Body (Some (strings_Reader body))])%list in
  return_r_err (request method rawurl setters).

(** [func requestForm]: the form, URL-encoded, is the body. *)
Definition requestForm (method rawurl : string) (setters : list Option) : call :=
  let opts := parseOptions setters in
  let body : option string :=
    match Options.Form opts with
    | Some form => Some (Values_Encode (add_all form))
    | None => None
    end in
  match Options.Headers opts with
  | None => panic nil_map_write
  | Some headers =>
      let headers := <["Content-Type" := "application/x-www-form-urlencoded"]> headers in
      let setters := (setters ++ [Headers (Some headers)])%list in
      let setters := (setters ++ [Body (Some (strings_Reader body))])%list in
      return_r_err (request method rawurl setters)
  end.

(** [func requestJSON]: the payload, marshalled, is the body. *)
Definition requestJSON (method rawurl : string) (setters : list Option) : call :=
  let opts := parseOptions setters in
  let marshalled : option string + error :=
    match Options.JSON opts with
    | Some v =>
        match json_Marshal v with
        | inr err => inr err
        | inl reqBytes => inl (Some reqBytes)
        end
    | None => inl None
    end in
  match marshalled with
  | inr err => ret None (Some err)
  | inl body =>
      match Options.Headers opts with
      | None => panic nil_map_write
      | Some headers =>
          let headers := <["Content-Type" := "application/json"]> headers in
          let setters := (setters ++ [Headers (Some headers)])%list in
          let setters := (setters ++ [Body (Some (bytes_Buffer body))])%list in
          return_r_err (request method rawurl setters)
      end
  end.

(** The loop of [requestFiles] over the entries of the [Files] map: it
    stops at the first error.  [drained] holds the files the loop has read
    to their end. *)
Fixpoint write_files (bodyWriter : multipart.Writer) (drained : list N)
         (entries : list (string * File)) : multipart.Writer + error :=
  match entries with
  | [] => inl bodyWriter
  | (field, fh) :: entries =>
      match multipart.CreateFormFile bodyWriter field (Name fh) with
      | (_, Some err) => inr err
      | (fileWriter, None) =>
          match multipart.Copy fileWriter drained fh with
          | (_, Some err) => inr err
          | (bodyWriter, None) => write_files bodyWriter (ptr fh :: drained) entries
          end
      end
  end.

(** [func requestFiles]: a multipart message with one part per file. *)
Definition requestFiles (method rawurl : string) (setters : list Option) : call :=
  let opts := parseOptions setters in
  let bodyWriter := multipart.NewWriter randomBoundary in
  let written :=
    match Options.Files opts with
    | Some files => write_files bodyWriter [] (range_order files)
    | None => inl bodyWriter
    end in
  match written with
  | inr err => ret None (Some err)
  | inl bodyWriter =>
      match Options.Headers opts with
      | None => panic nil_map_write
      | Some headers =>
          let headers :=
            <["Content-Type" := multipart.FormDataContentType bodyWriter]> headers in
          let setters := (setters ++ [Headers (Some headers)])%list in
          (* write EOF before sending *)
          match multipart.Close bodyWriter with
          | (_, Some err) => ret None (Some err)
          | (bodyWriter, None) =>
              let setters :=
                (setters ++ [Body (Some (bytes_Buffer (Some (multipart.w bodyWriter))))])%list in
              request method rawurl setters
          end
      end
  end.

(** [func Get] *)
Definition Get (rawurl : string) (setters : list Option) : call :=
  request http.MethodGet rawurl setters.

(** [func Post] *)
Definition Post (rawurl : string) (setters : list Option) : call :=
  let opts := parseOptions setters in
  if bool_decide (Options.Data opts ≠ None) then
    requestData http.MethodPost rawurl setters
  else if bool_decide (Options.Form opts ≠ None) then
    requestForm http.MethodPost rawurl setters
  else if bool_decide (Options.JSON opts ≠ None) then
    requestJSON http.MethodPost rawurl setters
  else if bool_decide (Options.Files opts ≠ None) then
    requestFiles http.MethodPost rawurl setters
  else
    request http.MethodPost rawurl setters.

(** [func Put] *)
Definition Put (rawurl : string) (setters : list Option) : call :=
  let opts := parseOptions setters in
  if bool_decide (Options.Data opts ≠ None) then
    requestData http.MethodPut rawurl setters
  else if bool_decide (Options.Form opts ≠ None) then
    requestForm http.MethodPut rawurl setters
  else if bool_decide (Options.JSON opts ≠ None) then
    requestJSON http.MethodPut rawurl setters
  else
    request http.MethodPut rawurl setters.

(** [func Patch] *)
Definition Patch (rawurl : string) (setters : list Option) : call :=
  let opts := parseOptions setters in
  if bool_decide (Options.Data opts ≠ None) then
    requestData http.MethodPatch rawurl setters
  else if bool_decide (Options.Form opts ≠ None) then
    requestForm http.MethodPatch rawurl setters
  else if bool_decide (Options.JSON opts ≠ None) then
    requestJSON http.MethodPatch rawurl setters
  else
    request http.MethodPatch rawurl setters.

(** [func Delete] *)
Definition Delete (rawurl : string) (setters : list Option) : call :=
  let opts := parseOptions setters in
  if bool_decide (Options.Data opts ≠ None) then
    requestData http.MethodDelete rawurl setters
  else if bool_decide (Options.Form opts ≠ None) then
    requestForm http.MethodDelete rawurl setters
  else if bool_decide (Options.JSON opts ≠ None) then
    requestJSON http.MethodDelete rawurl setters
  else
    request http.MethodDelete rawurl setters.

(** The five public entry points. *)
Definition verb_call (v : Verb) : string -> list Option -> call :=
  match v with
  | GET => Get
  | POST => Post
  | PUT => Put
  | PATCH => Patch
  | DELETE => Delete
  end.

(** The call an encoder stands for. *)
Definition encoder_call (e : Encoder) : string -> string -> list Option -> call :=
  match e with
  | enc_data => requestData
  | enc_form => requestForm
  | enc_json => requestJSON
  | enc_files => requestFiles
  | enc_none => request
  end.

End request_go.

(* ===================================================================== *)
(** ** The specification's vocabulary *)
(* ===================================================================== *)

(** The priority order of the specification: data, then form, then json,
    then files, then none. *)
Definition select_by_priority (opts : Options.t) : Encoder :=
  if bool_decide (Options.Data opts ≠ None) then enc_data
  else if bool_decide (Options.Form opts ≠ None) then enc_form
  else if bool_decide (Options.JSON opts ≠ None) then enc_json
  else if bool_decide (Options.Files opts ≠ None) then enc_files
  else enc_none.

(** The encoder a verb hands the call to, as the if-chains of the verb
    functions have it: [Get] never encodes, [Post] goes through data, form,
    json and files, the other three through data, form and json. *)
Definition selected (v : Verb) (opts : Options.t) : Encoder :=
  match v with
  | GET => enc_none
  | POST => select_by_priority opts
  | PUT | PATCH | DELETE =>
      match select_by_priority opts with
      | enc_files => enc_none
      | e => e
      end
  end.

(** An encoding error of the call: the error [json.Marshal] returns for
    the JSON payload, or the error that ends the reading of one of the
    files. *)
Definition marshal_error (opts : Options.t) (err : error) : Prop :=
  exists v, Options.JSON opts = Some v /\ json_Marshal v = inr err.

Definition stream_error (opts : Options.t) (err : error) : Prop :=
  exists files field fh,
    Options.Files opts = Some files /\ files !! field = Some fh /\
    read_error fh = Some err.

(** The encoder the verb selects runs to its end: it meets no encoding
    error and, if it writes Content-Type, the headers mapping is not nil. *)
Definition encoder_completes (v : Verb) (opts : Options.t) : Prop :=
  match selected v opts with
  | enc_none | enc_data => True
  | enc_form => Options.Headers opts <> None
  | enc_json =>
      Options.Headers opts <> None /\ ~ (exists err, marshal_error opts err)
  | enc_files =>
      Options.Headers opts <> None /\ ~ (exists err, stream_error opts err)
  end.

(** The error taxonomy of the specification, read off the places where
    request.go creates or receives the error. *)
Definition ConfigurationError (err : error) : Prop := err = err_params.

(** Status codes classified as success. *)
Definition success_status (code : Z) : bool :=
  ((http.StatusOK <=? code) && (code <=? http.StatusIMUsed))%bool.

(** A part of a multipart message, and the message of RFC 2046 with the
    given boundary: the parts, each behind a delimiter line and its two
    header lines, then the closing delimiter. *)
Record Part : Type := {
  part_name : string;
  part_filename : string;
  part_content : string
}.


(** The parts the loop of [requestFiles] writes: the content of a part is
    what is left to read of its file when the loop gets to it. *)
Fixpoint parts_written (drained : list N) (entries : list (string * File)) : list Part :=
  match entries with
  | [] => []
  | entry :: entries =>
      {| part_name := entry.1; part_filename := Name entry.2;
         part_content := File_read drained entry.2 |}
        :: parts_written (ptr entry.2 :: drained) entries
  end.

Definition part_headers (p : Part) : string :=
  "Content-Disposition: form-data; name=" ++ String DQUOTE (escapeQuotes (part_name p))
    ++ String DQUOTE "; filename=" ++ String DQUOTE (escapeQuotes (part_filename p))
    ++ String DQUOTE CRLF
    ++ "Content-Type: application/octet-stream" ++ CRLF.

Definition body_part (b : string) (p : Part) : string :=
  "--" ++ b ++ CRLF ++ part_headers p ++ CRLF ++ part_content p.

Fixpoint body_parts (b : string) (parts : list Part) : string :=
  match parts with
  | [] => EmptyString
  | [p] => body_part b p
  | p :: parts => body_part b p ++ CRLF ++ body_parts b parts
  end.

Definition close_delimiter (b : string) : string :=
  CRLF ++ "--" ++ b ++ "--" ++ CRLF.

Definition multipart_message (b : string) (parts : list Part) : string :=
  body_parts b parts ++ close_delimiter b.

(** *** Reading a multipart message

    The message of RFC 2046 as a reader takes it apart, written from the
    grammar and apart from the writer: a delimiter is a line break
    followed by two dashes and the boundary; the text before the first
    delimiter is the preamble; what follows a delimiter is either two
    dashes, which close the message, or the rest of the delimiter line,
    the header lines of a part, an empty line and the content of the part,
    which ends before the next delimiter.  The name and the file name of a
    part are the parameters of its Content-Disposition header (RFC 7578),
    each a quoted string in which a backslash quotes the next byte.  The
    reader has the bytes of the grammar by their numbers. *)

Definition rfc_CR : ascii := "013"%char.
Definition rfc_LF : ascii := "010"%char.
Definition rfc_DQUOTE : ascii := "034"%char.
Definition rfc_CRLF : string := String rfc_CR (String rfc_LF EmptyString).









(** The parts of a message.  The first delimiter may stand at the very
    start of the body, without its line break; a body without closing
    delimiter is no message. *)
Definition delimiter (boundary : string) : string :=
  rfc_CRLF ++ "--" ++ boundary.








(** The settings an encoder appends to the caller's: only [Headers] and
    [Body]. *)
Definition encoder_setting (setter : Option) : Prop :=
  (exists headers, setter = Headers headers) \/ (exists body, setter = Body body).

(** Every verb call either is a call of the dispatcher on the caller's
    settings followed by the encoder's, or ends in the encoder without a
    request: with an error and no response, or with the run-time fault of
    a write to a nil map. *)
Definition via_dispatcher `{Env} (method rawurl : string) (setters : list Option)
           (c : call) : Prop :=
  exists extra, Forall encoder_setting extra /\
                c = request method rawurl (setters ++ extra).

Definition stopped_in_encoder (c : call) : Prop :=
  sent c = [] /\
  ((exists err, ended c = Returned None (Some err)) \/ ended c = Panicked nil_map_write).

(** What the dispatcher computes from a completed or failed round trip. *)
Definition classify (answer : option http.Response * option error) : result :=
  match answer with
  | (_, Some err) => Returned None (Some err)
  | (None, None) => Returned None (Some (errors_New "response is nil"))
  | (Some rsp, None) =>
      if success_status (http.StatusCode rsp)
      then Returned (Some {| rsp := rsp |}) None
      else Returned (Some {| rsp := rsp |}) (Some (errors_New (http.Status rsp)))
  end.

(** One [key=value] piece of an encoded query, and the bytes an encoded
    query is made of. *)
Definition query_piece (kv : string * string) : string :=
  url_QueryEscape kv.1 ++ "=" ++ url_QueryEscape kv.2.

Definition escaped_byte (c : ascii) : bool :=
  (is_alnum c || has_byte c "-_.~%+")%bool.

Definition query_byte (c : ascii) : bool :=
  (escaped_byte c || has_byte c "&=")%bool.

(** The buffer of [Values.Encode] after the given key/value pairs. *)
Definition encode_pairs (kvs : list (string * string)) : string :=
  foldl (fun buf kv => Encode_write (url_QueryEscape kv.1) buf kv.2) EmptyString kvs.

(** [url.Values] holding each parameter once. *)
Definition values_of (params : gmap string string) : Values :=
  (fun v => [v]) <$> params.

(** An [io.Reader] interface value that holds a nil pointer of one of the
    three types whose length [http.NewRequest] reads through the pointer:
    non-nil as an interface, so the read faults. *)
Definition typed_nil (body : option Reader) : bool :=
  match body with
  | Some (strings_Reader None) | Some (bytes_Buffer None)
  | Some (bytes_Reader None) => true
  | _ => false
  end.

#[global] Instance Encoder_eq_dec : EqDecision Encoder.
Proof. solve_decision. Defined.

#[global] Instance Verb_eq_dec : EqDecision Verb.
Proof. solve_decision. Defined.

(** The encoders that write Content-Type into the headers mapping. *)
Definition writes_content_type (e : Encoder) : bool :=
  match e with
  | enc_form | enc_json | enc_files => true
  | enc_data | enc_none => false
  end.

(** The bytes that make [multipart.Writer.FormDataContentType] quote the
    boundary. *)
Definition boundary_specials : string :=
  "()<>@,;:\" ++ String DQUOTE "/[]?= ".

(** The settings an encoder that runs to its end appends to the caller's
    before it calls the dispatcher. *)
Definition encoded_as `{Env} (e : Encoder) (opts : Options.t) (extra : list Option)
  : Prop :=
  match e with
  | enc_none => extra = []
  | enc_data =>
      exists d, Options.Data opts = Some d /\
        extra = [Body (Some (strings_Reader (Some (fmt_Sprint d))))]
  | enc_form =>
      exists headers form,
        Options.Headers opts = Some headers /\ Options.Form opts = Some form /\
        extra = [Headers (Some (<["Content-Type" := "application/x-www-form-urlencoded"]>
                                  headers));
                 Body (Some (strings_Reader (Some (Values_Encode (values_of form)))))]
  | enc_json =>
      exists headers v b,
        Options.Headers opts = Some headers /\ Options.JSON opts = Some v /\
        json_Marshal v = inl b /\
        extra = [Headers (Some (<["Content-Type" := "application/json"]> headers));
                 Body (Some (bytes_Buffer (Some b)))]
  | enc_files =>
      exists headers files,
        Options.Headers opts = Some headers /\ Options.Files opts = Some files /\
        (forall field fh, files !! field = Some fh -> read_error fh = None) /\
        extra = [Headers (Some (<["Content-Type" :=
                                    multipart.FormDataContentType
                                      (multipart.NewWriter randomBoundary)]> headers));
                 Body (Some (bytes_Buffer (Some
                         (multipart_message randomBoundary
                            (parts_written [] (range_order files))))))]
  end.


(** The Content-Type an encoder writes, if it writes one. *)
Definition content_type_of `{Env} (e : Encoder) : option string :=
  match e with
  | enc_form => Some "application/x-www-form-urlencoded"
  | enc_json => Some "application/json"
  | enc_files =>
      Some (multipart.FormDataContentType (multipart.NewWriter randomBoundary))
  | enc_data | enc_none => None
  end.

(* ===================================================================== *)
(** ** The earlier revision of request.go *)
(* ===================================================================== *)

(** The source file holds, after the current revision, an earlier one of
    the same functions: the dispatcher takes the credentials, the headers,
    the params and the body as arguments, only status 200 is a success,
    there is no files encoder and no [Patch], [Delete] carries no body, and
    the encoders return a nil response with any error.  Its errors are made
    by [errors.Errorf] of github.com/pkg/errors, here [errors_Errorf], with
    the message as the format and no operand. *)
Module legacy.

Inductive Verb : Type := GET | POST | PUT | DELETE.

Section legacy_request_go.

Context `{Env}.
Variable errors_Errorf : string -> error.

(** The client literal of the earlier revision sets no timeout and uses
    the default transport. *)
Definition client : http.Client :=
  {| http.Timeout := 0; http.DisableKeepAlives := false |}.

(** [func request(method, rawurl, auth, headers, params, body)] *)
Definition request (method rawurl : string) (auth : Auth)
           (headers params : option (gmap string string)) (body : option Reader) : call :=
  let merged : string + error :=
    match params with
    | Some params =>
        if negb (Nat.eqb (size params) 0) then
          if strings_Contains rawurl "?" then
            inr (errors_Errorf
                   "params not nil, so raw url should not contain character '?'")
          else
            let queryValues := add_all params in
            let queryString := Values_Encode queryValues in
            inl (rawurl ++ "?" ++ queryString)
        else inl rawurl
    | None => inl rawurl
    end in
  match merged with
  | inr err => ret None (Some err)
  | inl rawurl =>
      match http_NewRequest method rawurl body with
      | Panic msg => panic msg
      | Err err => ret None (Some err)
      | Ok req =>
          let req := fill_headers req headers in
          let req :=
            if decide (authType auth = HTTPBasicAuth)
            then http.SetBasicAuth req (username auth) (password auth)
            else req in
          match client_Do client req with
          | (_, Some err) => {| sent := [req]; ended := Returned None (Some err) |}
          | (None, None) =>
              (* rsp.StatusCode is read through the nil pointer *)
              {| sent := [req]; ended := Panicked nil_dereference |}
          | (Some rsp, None) =>
              let r := {| rsp := rsp |} in
              if negb (http.StatusCode rsp =? http.StatusOK)
              then {| sent := [req];
                      ended := Returned (Some r)
                                 (Some (errors_Errorf (http.Status rsp))) |}
              else {| sent := [req]; ended := Returned (Some r) None |}
          end
      end
  end.

(** [r, err := request(...); if err != nil { return nil, err }; return r, nil] *)
Definition return_nil_err (c : call) : call :=
  match ended c with
  | Returned r (Some err) => {| sent := sent c; ended := Returned None (Some err) |}
  | Returned r None => {| sent := sent c; ended := Returned r None |}
  | Panicked msg => c
  end.

(** [func requestData] *)
Definition requestData (method rawurl : string) (auth : Auth)
           (headers params : option (gmap string string)) (data : option any) : call :=
  let body : option string :=
    match data with
    | Some d => Some (fmt_Sprint d)
    | None => None
    end in
  return_nil_err (request method rawurl auth headers params (Some (strings_Reader body))).

(** [func requestForm] *)
Definition requestForm (method rawurl : string) (auth : Auth)
           (headers params form : option (gmap string string)) : call :=
  let body : option string :=
    match form with
    | Some form => Some (Values_Encode (add_all form))
    | None => None
    end in
  match headers with
  | None => panic nil_map_write
  | Some headers =>
      let headers := <["Content-Type" := "application/x-www-form-urlencoded"]> headers in
      return_nil_err
        (request method rawurl auth (Some headers) params (Some (strings_Reader body)))
  end.

(** [func requestJSON] *)
Definition requestJSON (method rawurl : string) (auth : Auth)
           (headers params : option (gmap string string)) (req : option any) : call :=
  let marshalled : option string + error :=
    match req with
    | Some v =>
        match json_Marshal v with
        | inr err => inr err
        | inl reqBytes => inl (Some reqBytes)
        end
    | None => inl None
    end in
  match marshalled with
  | inr err => ret None (Some err)
  | inl body =>
      match headers with
      | None => panic nil_map_write
      | Some headers =>
          let headers := <["Content-Type" := "application/json"]> headers in
          return_nil_err
            (request method rawurl auth (Some headers) params (Some (bytes_Buffer body)))
      end
  end.

(** [func Get] *)
Definition Get (rawurl : string) (setters : list Option) : call :=
  let opts := parseOptions setters in
  request http.MethodGet rawurl (Options.Auth opts) (Options.Headers opts)
          (Options.Params opts) None.

(** [func Post] *)
Definition Post (rawurl : string) (setters : list Option) : call :=
  let opts := parseOptions setters in
  if bool_decide (Options.Data opts ≠ None) then
    requestData http.MethodPost rawurl (Options.Auth opts) (Options.Headers opts)
                (Options.Params opts) (Options.Data opts)
  else if bool_decide (Options.Form opts ≠ None) then
    requestForm http.MethodPost rawurl (Options.Auth opts) (Options.Headers opts)
                (Options.Params opts) (Options.Form opts)
  else if bool_decide (Options.JSON opts ≠ None) then
    requestJSON http.MethodPost rawurl (Options.Auth opts) (Options.Headers opts)
                (Options.Params opts) (Options.JSON opts)
  else
    request http.MethodPost rawurl (Options.Auth opts) (Options.Headers opts)
            (Options.Params opts) None.

(** [func Put] *)
Definition Put (rawurl : string) (setters : list Option) : call :=
  let opts := parseOptions setters in
  if bool_decide (Options.Data opts ≠ None) then
    requestData http.MethodPut rawurl (Options.Auth opts) (Options.Headers opts)
                (Options.Params opts) (Options.Data opts)
  else if bool_decide (Options.Form opts ≠ None) then
    requestForm http.MethodPut rawurl (Options.Auth opts) (Options.Headers opts)
                (Options.Params opts) (Options.Form opts)
  else if bool_decide (Options.JSON opts ≠ None) then
    requestJSON http.MethodPut rawurl (Options.Auth opts) (Options.Headers opts)
                (Options.Params opts) (Options.JSON opts)
  else
    request http.MethodPut rawurl (Options.Auth opts) (Options.Headers opts)
            (Options.Params opts) None.

(** [func Delete] *)
Definition Delete (rawurl : string) (setters : list Option) : call :=
  let opts := parseOptions setters in
  request http.MethodDelete rawurl (Options.Auth opts) (Options.Headers opts)
          (Options.Params opts) None.

(** The four public entry points of the earlier revision. *)
Definition verb_call (v : Verb) : string -> list Option -> call :=
  match v with
  | GET => Get
  | POST => Post
  | PUT => Put
  | DELETE => Delete
  end.

End legacy_request_go.

(** Whether the earlier [Post] or [Put] hands the call to an encoder. *)
Definition has_payload (opts : Options.t) : Prop :=
  Options.Data opts <> None \/ Options.Form opts <> None \/ Options.JSON opts <> None.

End legacy.

(* ===================================================================== *)
(** ** Sample environments and inputs *)
(* ===================================================================== *)

Module Sample.

Definition ok : http.Response :=
  {| http.Status := "200 OK"; http.StatusCode := 200;
     http.RspHeader := {[ "Content-Length" := ["0"] ]}; http.RspBody := EmptyString |}.

Definition created : http.Response :=
  {| http.Status := "201 Created"; http.StatusCode := 201;
     http.RspHeader := {[ "Location" := ["/items/1"] ]}; http.RspBody := EmptyString |}.

Definition not_found : http.Response :=
  {| http.Status := "404 Not Found"; http.StatusCode := 404;
     http.RspHeader := {[ "X-Request-Id" := ["42"] ]}; http.RspBody := "no such page" |}.

Definition refused : error :=
  lib_error "net/http" "dial tcp 127.0.0.1:1: connect: connection refused".

(** A server that answers every request with the given response. *)
Definition server (answer : http.Response) : Env :=
  {| client_Do := fun _ _ => (Some answer, None);
     url_Parse := fun _ => None;
     randomBoundary := "7d1e3c";
     randomBoundary_hex := eq_refl;
     range_order := fun V m => map_to_list m;
     range_order_perm := fun V m => reflexivity (map_to_list m) |}.

(** No server: every round trip fails. *)
Definition unreachable : Env :=
  {| client_Do := fun _ _ => (None, Some refused);
     url_Parse := fun _ => None;
     randomBoundary := "7d1e3c";
     randomBoundary_hex := eq_refl;
     range_order := fun V m => map_to_list m;
     range_order_perm := fun V m => reflexivity (map_to_list m) |}.


Definition hello_txt : File :=
  {| ptr := 1; Name := "hello.txt"; contents := "hello"; read_error := None |}.


Definition broken_txt : File :=
  {| ptr := 3; Name := "broken.txt"; contents := "hel";
     read_error := Some (lib_error "io" "read broken.txt: input/output error") |}.

(** A value [json.Marshal] rejects, such as a channel. *)
Definition channel : any :=
  {| fmt_Sprint := "0xc000012345";
     json_Marshal := inr (lib_error "encoding/json" "json: unsupported type: chan int") |}.

Definition greeting : any :=
  {| fmt_Sprint := "map[msg:hi]";
     json_Marshal := inl ("{" ++ String DQUOTE "msg" ++ String DQUOTE ":"
                          ++ String DQUOTE "hi" ++ String DQUOTE "}") |}.

End Sample.

(* ===================================================================== *)
(** * Properties *)
(* ===================================================================== *)

(** ** The option set under appended settings *)

Lemma parseOptions_app (s t : list Option) :
  parseOptions (s ++ t) = foldl (fun opts setter => setter opts) (parseOptions s) t.
Proof. unfold parseOptions. apply foldl_app. Qed.

Lemma encoder_settings_keep (extra : list Option) :
  Forall encoder_setting extra ->
  forall opts : Options.t,
    let opts' := foldl (fun opts setter => setter opts) opts extra in
    Options.Params opts' = Options.Params opts /\
    Options.Auth opts' = Options.Auth opts /\
    Options.Timeout opts' = Options.Timeout opts /\
    Options.DisableKeepAlives opts' = Options.DisableKeepAlives opts.
Proof.
  induction 1 as [|setter extra Hs _ IH]; intros opts; simpl; [tauto|].
  destruct (IH (setter opts)) as (-> & -> & -> & ->).
  destruct Hs as [[h ->]|[b ->]]; simpl; tauto.
Qed.

Ltac encoder_settings :=
  repeat (apply List.Forall_cons;
          [first [left; eexists; reflexivity | right; eexists; reflexivity]|]);
  apply List.Forall_nil.

Lemma return_r_err_id (c : call) : return_r_err c = c.
Proof. destruct c as [l [r [e|]|m]]; reflexivity. Qed.

Lemma success_status_spec (code : Z) :
  ((code <? http.StatusOK) || (code >? http.StatusIMUsed))%bool
  = negb (success_status code).
Proof.
  unfold success_status, http.StatusOK, http.StatusIMUsed.
  destruct (Z.ltb_spec code 200), (Z.leb_spec 200 code),
    (Z.leb_spec code 226); simpl; try lia; rewrite ?Z.gtb_ltb;
    destruct (Z.ltb_spec 226 code); simpl; try lia; reflexivity.
Qed.

Section dispatcher.

Context `{Env}.

(** The dispatcher submits at most one request, and how it ends is the
    classification of the transport's answer to it. *)
Lemma request_ended (method rawurl : string) (setters : list Option)
      (req : http.Request) :
  req ∈ sent (request method rawurl setters) ->
  sent (request method rawurl setters) = [req] /\
  ended (request method rawurl setters)
  = classify (client_Do (new_client (parseOptions setters)) req).
Proof.
  unfold request.
  destruct (merge_params _ rawurl) as [url'|err]; [|simpl; inversion 1].
  destruct (http_NewRequest method url' _) as [req0|err|msg];
    [|simpl; inversion 1..].
  match goal with |- context [client_Do ?c ?r] => set (built := r) end.
  destruct (client_Do _ built) as [[rsp0|] [err|]] eqn:E; simpl.
  1,3,4: intros ->%list_elem_of_singleton; rewrite E; done.
  rewrite success_status_spec.
  destruct (success_status _) eqn:Es; simpl;
    intros ->%list_elem_of_singleton; rewrite E; simpl; rewrite Es; done.
Qed.

Lemma via_dispatcher_request method rawurl setters :
  via_dispatcher method rawurl setters (request method rawurl setters).
Proof. exists []. split; [constructor|]. by rewrite app_nil_r. Qed.

Lemma requestData_cases method rawurl setters :
  via_dispatcher method rawurl setters (requestData method rawurl setters).
Proof.
  unfold requestData. rewrite return_r_err_id.
  eexists [_]. split; [|reflexivity]. encoder_settings.
Qed.

Lemma requestForm_cases method rawurl setters :
  via_dispatcher method rawurl setters (requestForm method rawurl setters) \/
  stopped_in_encoder (requestForm method rawurl setters).
Proof.
  unfold requestForm.
  destruct (Options.Headers _) as [headers|].
  - left. rewrite return_r_err_id, <- app_assoc.
    eexists [_; _]. split; [|reflexivity]. encoder_settings.
  - right. split; [done|]. by right.
Qed.

Lemma requestJSON_cases method rawurl setters :
  via_dispatcher method rawurl setters (requestJSON method rawurl setters) \/
  stopped_in_encoder (requestJSON method rawurl setters).
Proof.
  unfold requestJSON.
  destruct (Options.JSON _) as [v|]; [destruct (json_Marshal v) as [b|err]|].
  2: { right. split; [done|]. left. eauto. }
  all: destruct (Options.Headers _) as [headers|];
    [left; rewrite return_r_err_id, <- app_assoc;
     eexists [_; _]; split; [|reflexivity]; encoder_settings
    |right; split; [done|]; by right].
Qed.

Lemma requestFiles_cases method rawurl setters :
  via_dispatcher method rawurl setters (requestFiles method rawurl setters) \/
  stopped_in_encoder (requestFiles method rawurl setters).
Proof.
  unfold requestFiles.
  match goal with |- context [match ?w with inl _ => _ | inr _ => _ end] =>
    destruct w as [bw|err] end.
  2: { right. split; [done|]. left. eauto. }
  destruct (Options.Headers _) as [headers|].
  - left. simpl. rewrite <- app_assoc.
    eexists [_; _]. split; [|reflexivity]. encoder_settings.
  - right. split; [done|]. by right.
Qed.

Lemma verb_call_cases (v : Verb) (rawurl : string) (setters : list Option) :
  via_dispatcher (method_of v) rawurl setters (verb_call v rawurl setters) \/
  stopped_in_encoder (verb_call v rawurl setters).
Proof.
  destruct v; simpl; unfold Get, Post, Put, Patch, Delete;
    repeat case_bool_decide;
    auto using via_dispatcher_request, requestData_cases,
      requestForm_cases, requestJSON_cases, requestFiles_cases.
Qed.

(** The transport's answer decides how a verb call ends. *)
Lemma verb_call_ended (v : Verb) (rawurl : string) (setters : list Option)
      (req : http.Request) :
  req ∈ sent (verb_call v rawurl setters) ->
  sent (verb_call v rawurl setters) = [req] /\
  ended (verb_call v rawurl setters)
  = classify (client_Do (new_client (parseOptions setters)) req).
Proof.
  destruct (verb_call_cases v rawurl setters) as [(extra & Hex & ->)|[Hs _]].
  - intros Hin. apply request_ended in Hin as [-> ->]. split; [done|].
    do 2 f_equal. unfold new_client. rewrite parseOptions_app.
    by destruct (encoder_settings_keep extra Hex (parseOptions setters))
      as (_ & _ & -> & ->).
  - rewrite Hs. inversion 1.
Qed.

End dispatcher.

(** ** Status classification and transport failures *)

(** C1: For every verb call whose transport round trip completes with a
    response: if the status code lies in the inclusive range 200..226 the
    call returns the wrapped response and a nil error; for any other status
    code it returns the wrapped response (the transport's response itself,
    so its headers are the original ones) together with a non-nil error
    whose message is the status line. *)
Theorem C1_status_classification `{Env} (v : Verb) (rawurl : string)
        (setters : list Option) (req : http.Request) (rsp0 : http.Response) :
  req ∈ sent (verb_call v rawurl setters) ->
  client_Do (new_client (parseOptions setters)) req = (Some rsp0, None) ->
  (200 <= http.StatusCode rsp0 <= 226 ->
   ended (verb_call v rawurl setters) = Returned (Some {| rsp := rsp0 |}) None) /\
  (http.StatusCode rsp0 < 200 \/ 226 < http.StatusCode rsp0 ->
   exists (r : Response) (err : error),
     ended (verb_call v rawurl setters) = Returned (Some r) (Some err) /\
     rsp r = rsp0 /\
     http.RspHeader (rsp r) = http.RspHeader rsp0 /\
     err = errors_New (http.Status rsp0) /\
     Error err = http.Status rsp0).
Proof.
  intros Hin Hdo.
  destruct (verb_call_ended v rawurl setters req Hin) as [_ ->].
  rewrite Hdo. simpl. unfold success_status, http.StatusOK, http.StatusIMUsed.
  split; intros Hcode.
  - destruct (Z.leb_spec 200 (http.StatusCode rsp0)),
      (Z.leb_spec (http.StatusCode rsp0) 226); simpl; try lia; reflexivity.
  - exists {| rsp := rsp0 |}, (errors_New (http.Status rsp0)).
    destruct (Z.leb_spec 200 (http.StatusCode rsp0)),
      (Z.leb_spec (http.StatusCode rsp0) 226); simpl; try lia; auto.
Qed.

(** A 404 answer: the response comes back with its headers, and the error
    carries the status line; a 201 answer is a success. *)
Lemma C1_witness :
  (exists (r : Response) (err : error),
     ended (@verb_call (Sample.server Sample.not_found) GET "http://example.com/missing" [])
     = Returned (Some r) (Some err) /\
     rsp r = Sample.not_found /\
     http.RspHeader (rsp r) = {[ "X-Request-Id" := ["42"] ]} /\
     err = errors_New "404 Not Found" /\
     Error err = "404 Not Found") /\
  ended (@verb_call (Sample.server Sample.created) POST "http://example.com/items" [])
  = Returned (Some {| rsp := Sample.created |}) None.
Proof.
  split.
  - apply (@C1_status_classification (Sample.server Sample.not_found) GET
             "http://example.com/missing" []
             {| http.Method := "GET"; http.URL := "http://example.com/missing";
                http.Header := ∅; http.Body := None |} Sample.not_found).
    + vm_compute. left.
    + reflexivity.
    + right. simpl. lia.
  - apply (@C1_status_classification (Sample.server Sample.created) POST
             "http://example.com/items" []
             {| http.Method := "POST"; http.URL := "http://example.com/items";
                http.Header := ∅; http.Body := None |} Sample.created).
    + vm_compute. left.
    + reflexivity.
    + simpl. lia.
Defined.

(** C8: For every verb call on which the transport round trip fails, the
    call returns the transport's error as it is, with a nil response. *)
Theorem C8_transport_error `{Env} (v : Verb) (rawurl : string)
        (setters : list Option) (req : http.Request)
        (answer : option http.Response) (err : error) :
  req ∈ sent (verb_call v rawurl setters) ->
  client_Do (new_client (parseOptions setters)) req = (answer, Some err) ->
  ended (verb_call v rawurl setters) = Returned None (Some err).
Proof.
  intros Hin Hdo.
  destruct (verb_call_ended v rawurl setters req Hin) as [_ ->].
  rewrite Hdo. by destruct answer.
Qed.

Lemma C8_witness :
  ended (@verb_call Sample.unreachable GET "http://127.0.0.1:1/" [])
  = Returned None (Some Sample.refused).
Proof.
  apply (@C8_transport_error Sample.unreachable GET "http://127.0.0.1:1/" []
           {| http.Method := "GET"; http.URL := "http://127.0.0.1:1/";
              http.Header := ∅; http.Body := None |} None Sample.refused).
  - vm_compute. left.
  - reflexivity.
Defined.

(** ** The request the dispatcher submits *)

Section submitted.

Context `{Env}.

Lemma http_NewRequest_Ok method url body req0 :
  http_NewRequest method url body = Ok req0 ->
  http.URL req0 = url /\ http.Body req0 = body /\ http.Header req0 = ∅.
Proof.
  unfold http_NewRequest.
  destruct (negb _); [discriminate|].
  destruct (url_Parse url); [discriminate|].
  destruct body as [[[?|]|[?|]|[?|]|?]|]; intros [= <-]; done.
Qed.

Lemma fold_SetHeader_keeps (l : list (string * string)) (req : http.Request) :
  let req' := foldl (fun req '(k, v) => http.SetHeader req k v) req l in
  http.Method req' = http.Method req /\ http.URL req' = http.URL req /\
  http.Body req' = http.Body req.
Proof.
  revert req. induction l as [|[k v] l IH]; intros req; simpl; [done|].
  destruct (IH (http.SetHeader req k v)) as (-> & -> & ->). done.
Qed.

Lemma fill_headers_keeps (req : http.Request) headers :
  http.Method (fill_headers req headers) = http.Method req /\
  http.URL (fill_headers req headers) = http.URL req /\
  http.Body (fill_headers req headers) = http.Body req.
Proof. destruct headers; simpl; [apply fold_SetHeader_keeps|done]. Qed.

(** The request that reaches the transport: the URL is the merged one, the
    body is the option set's, the headers are the option set's written one
    by one, then the credentials. *)
Lemma request_sent (method rawurl : string) (setters : list Option)
      (req : http.Request) :
  req ∈ sent (request method rawurl setters) ->
  let opts := parseOptions setters in
  exists url' req0,
    merge_params (Options.Params opts) rawurl = inl url' /\
    http_NewRequest method url' (Options.Body opts) = Ok req0 /\
    http.URL req = url' /\
    http.Body req = Options.Body opts /\
    req = (if decide (authType (Options.Auth opts) = HTTPBasicAuth)
           then http.SetBasicAuth (fill_headers req0 (Options.Headers opts))
                  (username (Options.Auth opts)) (password (Options.Auth opts))
           else fill_headers req0 (Options.Headers opts)).
Proof.
  intros Hin opts. revert Hin. unfold request. fold opts.
  destruct (merge_params _ rawurl) as [url'|err]; [|simpl; inversion 1].
  destruct (http_NewRequest method url' _) as [req0|err|msg] eqn:Enew;
    [|simpl; inversion 1..].
  intros Hin. exists url', req0.
  destruct (http_NewRequest_Ok _ _ _ _ Enew) as (Hu & Hb & _).
  destruct (fill_headers_keeps req0 (Options.Headers opts)) as (_ & Hu' & Hb').
  assert (req = (if decide (authType (Options.Auth opts) = HTTPBasicAuth)
           then http.SetBasicAuth (fill_headers req0 (Options.Headers opts))
                  (username (Options.Auth opts)) (password (Options.Auth opts))
           else fill_headers req0 (Options.Headers opts))) as ->.
  { revert Hin.
    match goal with |- context [client_Do ?c ?r] =>
      destruct (client_Do c r) as [[rsp0|] [err|]] end; simpl;
      try destruct (_ || _)%bool; simpl;
      by intros ->%list_elem_of_singleton. }
  repeat split; try done; destruct (decide _); simpl; congruence.
Qed.

(** When the query merge and [http.NewRequest] succeed, exactly one request
    is submitted. *)
Lemma request_sends (method rawurl url' : string) (setters : list Option) req0 :
  let opts := parseOptions setters in
  merge_params (Options.Params opts) rawurl = inl url' ->
  http_NewRequest method url' (Options.Body opts) = Ok req0 ->
  exists req, sent (request method rawurl setters) = [req].
Proof.
  intros opts Hm Hn. unfold request. fold opts. rewrite Hm, Hn.
  match goal with |- context [client_Do ?c ?r] =>
    destruct (client_Do c r) as [[rsp0|] [err|]] end; simpl;
    try destruct (_ || _)%bool; simpl; eauto.
Qed.

End submitted.

(** ** Basic authentication *)

Lemma Authorization_canonical : CanonicalMIMEHeaderKey "Authorization" = "Authorization".
Proof. reflexivity. Qed.

(** C5: For every verb call whose auth is basic{username, password}, the
    request submitted to the transport carries the header Authorization
    with the single value Basic followed by the base64 encoding of
    username:password, whatever Authorization header the caller supplied
    through the headers option; the credentials alice and secret give
    Basic YWxpY2U6c2VjcmV0. *)
Theorem C5_basic_auth `{Env} (v : Verb) (rawurl : string) (setters : list Option)
        (user pass : string) (req : http.Request) :
  Options.Auth (parseOptions setters)
  = {| authType := HTTPBasicAuth; username := user; password := pass |} ->
  req ∈ sent (verb_call v rawurl setters) ->
  http.Header req !! "Authorization"
  = Some ["Basic " ++ base64_EncodeToString (user ++ ":" ++ pass)] /\
  Header_Get (http.Header req) "Authorization"
  = "Basic " ++ base64_EncodeToString (user ++ ":" ++ pass) /\
  (user = "alice" -> pass = "secret" ->
   Header_Get (http.Header req) "Authorization" = "Basic YWxpY2U6c2VjcmV0").
Proof.
  intros Hauth Hin.
  assert (http.Header req !! "Authorization"
          = Some ["Basic " ++ base64_EncodeToString (user ++ ":" ++ pass)]) as Hl.
  { destruct (verb_call_cases v rawurl setters) as [(extra & Hex & Hc)|[Hs _]];
      [|rewrite Hs in Hin; inversion Hin].
    rewrite Hc in Hin. apply request_sent in Hin as (url' & req0 & _ & _ & _ & _ & ->).
    rewrite parseOptions_app.
    destruct (encoder_settings_keep extra Hex (parseOptions setters))
      as (_ & -> & _). rewrite Hauth. simpl.
    unfold Header_Set. rewrite Authorization_canonical. apply lookup_insert_eq. }
  assert (Header_Get (http.Header req) "Authorization"
          = "Basic " ++ base64_EncodeToString (user ++ ":" ++ pass)) as Hg.
  { unfold Header_Get. rewrite Authorization_canonical, Hl. done. }
  repeat split; try done. intros -> ->. rewrite Hg. reflexivity.
Qed.

(** The caller's own authorization header, in lower case, is replaced. *)
Lemma C5_witness :
  let req :=
    {| http.Method := "GET"; http.URL := "http://example.com/";
       http.Header := {[ "Authorization" := ["Basic YWxpY2U6c2VjcmV0"] ]};
       http.Body := None |} in
  sent (@verb_call (Sample.server Sample.ok) GET "http://example.com/"
          [Headers (Some {[ "authorization" := "Bearer abc" ]});
           BasicAuth "alice" "secret"]) = [req] /\
  Header_Get (http.Header req) "Authorization" = "Basic YWxpY2U6c2VjcmV0".
Proof.
  intros req. split; [vm_compute; reflexivity|].
  refine (proj1 (proj2 (@C5_basic_auth (Sample.server Sample.ok) GET "http://example.com/"
           [Headers (Some {[ "authorization" := "Bearer abc" ]});
            BasicAuth "alice" "secret"] "alice" "secret" req _ _))).
  - reflexivity.
  - vm_compute. left.
Defined.

(** ** Encoder selection *)

Section selection.

Context `{Env}.

(** [Post] follows the priority order data, form, json, files, none. *)
Lemma Post_follows_priority (rawurl : string) (setters : list Option) :
  Post rawurl setters
  = encoder_call (select_by_priority (parseOptions setters)) http.MethodPost rawurl setters.
Proof.
  unfold Post, select_by_priority. repeat case_bool_decide; reflexivity.
Qed.

(** [Put], [Patch] and [Delete] have no branch for [Files]: after data,
    form and json they call the dispatcher with the caller's settings. *)
Lemma body_verbs_selection (v : Verb) (rawurl : string) (setters : list Option) :
  v = PUT \/ v = PATCH \/ v = DELETE ->
  verb_call v rawurl setters
  = encoder_call
      (match select_by_priority (parseOptions setters) with
       | enc_files => enc_none
       | e => e
       end) (method_of v) rawurl setters.
Proof.
  intros [->|[->| ->]]; simpl; unfold Put, Patch, Delete, select_by_priority;
    repeat case_bool_decide; reflexivity.
Qed.

End selection.

(** C2: A [Put], [Patch] or [Delete] call whose only payload field is
    [Files]: by the priority order the files encoder is due, and [Post]
    uses it on the same settings, but these three verbs call the dispatcher
    directly; the request goes out with no body and no Content-Type. *)
Theorem C2_files_ignored_by_Put_Patch_Delete :
  let rawurl := "http://example.com/upload" in
  let setters := [Headers (Some ∅); Files (Some {[ "file" := Sample.hello_txt ]})] in
  let E := Sample.server Sample.ok in
  select_by_priority (parseOptions setters) = enc_files /\
  (forall v, v = PUT \/ v = PATCH \/ v = DELETE ->
     @verb_call E v rawurl setters = @request E (method_of v) rawurl setters /\
     sent (@verb_call E v rawurl setters)
     = [{| http.Method := method_of v; http.URL := rawurl;
           http.Header := ∅; http.Body := None |}] /\
     @verb_call E v rawurl setters <> @requestFiles E (method_of v) rawurl setters) /\
  sent (@verb_call E POST rawurl setters)
  = [{| http.Method := "POST"; http.URL := rawurl;
        http.Header := {[ "Content-Type" := ["multipart/form-data; boundary=7d1e3c"] ]};
        http.Body :=
          Some (bytes_Buffer (Some (multipart_message "7d1e3c"
                  [{| part_name := "file"; part_filename := "hello.txt";
                      part_content := "hello" |}]))) |}].
Proof.
  intros rawurl setters E. split; [reflexivity|]. split; [|vm_compute; reflexivity].
  intros v [->|[->| ->]]; (split; [reflexivity|]); (split; [vm_compute; reflexivity|]);
    intros Heq; apply (f_equal sent) in Heq; vm_compute in Heq; discriminate.
Qed.

(** ** The write of Content-Type into the headers mapping *)

Section nil_headers.

Context `{Env}.

(** When the headers mapping of the option set is nil (a caller can make
    it so with a nil map as [Headers]), an encoder that gets as far as
    writing Content-Type into it stops there. *)
Lemma encoders_fault_on_nil_headers (method rawurl : string) (setters : list Option) :
  Options.Headers (parseOptions setters) = None ->
  requestForm method rawurl setters = panic nil_map_write /\
  (forall v b, Options.JSON (parseOptions setters) = Some v -> json_Marshal v = inl b ->
     requestJSON method rawurl setters = panic nil_map_write) /\
  (forall files bw, Options.Files (parseOptions setters) = Some files ->
     write_files (multipart.NewWriter randomBoundary) [] (range_order files) = inl bw ->
     requestFiles method rawurl setters = panic nil_map_write).
Proof.
  intros Hh. unfold requestForm, requestJSON, requestFiles. rewrite Hh.
  split; [done|]. split.
  - intros v b -> ->. done.
  - intros files bw -> ->. done.
Qed.

End nil_headers.

(** ** Encoding failures *)

Section encoding.

Context `{Env}.

Lemma verb_call_selected (v : Verb) (rawurl : string) (setters : list Option) :
  verb_call v rawurl setters
  = encoder_call (selected v (parseOptions setters)) (method_of v) rawurl setters.
Proof.
  destruct v; simpl.
  - reflexivity.
  - apply Post_follows_priority.
  - apply (body_verbs_selection PUT); auto.
  - apply (body_verbs_selection PATCH); auto.
  - apply (body_verbs_selection DELETE); auto.
Qed.

Lemma elem_of_range_order {V} (m : gmap string V) (k : string) (x : V) :
  (k, x) ∈ range_order m <-> m !! k = Some x.
Proof. rewrite range_order_perm. apply elem_of_map_to_list. Qed.

Lemma NoDup_range_order {V} (m : gmap string V) : NoDup (range_order m).*1.
Proof. rewrite range_order_perm. apply NoDup_fst_map_to_list. Qed.

Lemma length_range_order {V} (m : gmap string V) : length (range_order m) = size m.
Proof. rewrite range_order_perm. apply length_map_to_list. Qed.

(** The loop stops at the first file whose reading fails. *)
Lemma write_files_fails (entries : list (string * File)) (bw : multipart.Writer)
      (drained : list N) :
  (exists field fh, (field, fh) ∈ entries /\ read_error fh <> None) ->
  exists field fh err,
    (field, fh) ∈ entries /\ read_error fh = Some err /\
    write_files bw drained entries = inr err.
Proof.
  revert bw drained.
  induction entries as [|[field fh] entries IH]; intros bw drained (f & h & Hin & Hne).
  - inversion Hin.
  - simpl. destruct (read_error fh) as [err|] eqn:Efh.
    + exists field, fh, err. split; [left|done].
    + apply elem_of_cons in Hin as [[= -> ->]|Hin]; [congruence|].
      match goal with |- context [write_files ?b ?d entries] =>
        destruct (IH b d) as (f' & h' & err & Hin' & Herr & ->); [eauto|] end.
      exists f', h', err. split; [by right|done].
Qed.

End encoding.

(** C6: For every verb call on which encoding fails, the JSON payload
    failing to marshal under the json encoder or the reading of a file
    failing under the files encoder, the call returns a nil response and
    that encoding error, and no request is submitted to the transport. *)
Theorem C6_encoding_failure `{Env} (v : Verb) (rawurl : string) (setters : list Option) :
  let opts := parseOptions setters in
  (selected v opts = enc_json /\ (exists err, marshal_error opts err)) \/
  (selected v opts = enc_files /\ (exists err, stream_error opts err)) ->
  exists err,
    verb_call v rawurl setters = {| sent := []; ended := Returned None (Some err) |} /\
    match selected v opts with
    | enc_json => marshal_error opts err
    | enc_files => stream_error opts err
    | _ => False
    end.
Proof.
  intros opts Hfail. rewrite verb_call_selected. fold opts.
  destruct Hfail as [[-> (err & j & Hj & Hm)]|[-> (err & files & field & fh & Hf & Hl & Hr)]];
    simpl.
  - exists err. split; [|by exists j].
    unfold requestJSON. fold opts. rewrite Hj, Hm. reflexivity.
  - destruct (write_files_fails (range_order files) (multipart.NewWriter randomBoundary) [])
      as (f' & h' & err' & Hin & Herr & Hw).
    { exists field, fh. split; [by apply elem_of_range_order|congruence]. }
    exists err'. split.
    + unfold requestFiles. fold opts. rewrite Hf, Hw. reflexivity.
    + exists files, f', h'. by rewrite <- elem_of_range_order.
Qed.

(** A channel as JSON payload, and a file whose reading breaks off. *)
Lemma C6_witness :
  (exists err,
     @verb_call (Sample.server Sample.ok) PUT "http://example.com/"
        [Headers (Some ∅); JSON (Some Sample.channel)]
     = {| sent := []; ended := Returned None (Some err) |} /\
     marshal_error (parseOptions [Headers (Some ∅); JSON (Some Sample.channel)]) err) /\
  (exists err,
     @verb_call (Sample.server Sample.ok) POST "http://example.com/"
        [Headers (Some ∅);
         Files (Some {[ "a" := Sample.hello_txt; "b" := Sample.broken_txt ]})]
     = {| sent := []; ended := Returned None (Some err) |} /\
     stream_error (parseOptions
        [Headers (Some ∅);
         Files (Some {[ "a" := Sample.hello_txt; "b" := Sample.broken_txt ]})]) err).
Proof.
  split.
  - apply (@C6_encoding_failure (Sample.server Sample.ok) PUT "http://example.com/"
             [Headers (Some ∅); JSON (Some Sample.channel)]).
    left. split; [reflexivity|]. eexists. exists Sample.channel. split; reflexivity.
  - apply (@C6_encoding_failure (Sample.server Sample.ok) POST "http://example.com/"
             [Headers (Some ∅);
              Files (Some {[ "a" := Sample.hello_txt; "b" := Sample.broken_txt ]})]).
    right. split; [reflexivity|]. eexists. eexists _, "b", Sample.broken_txt.
    split; [reflexivity|]. split; [vm_compute|]; reflexivity.
Defined.

(** ** Query parameters against a URL that has a query already *)

Section params_conflict.

Context `{Env}.

Lemma request_params_conflict (method rawurl : string) (setters : list Option)
      (params : gmap string string) :
  Options.Params (parseOptions setters) = Some params ->
  size params <> 0%nat ->
  strings_Contains rawurl "?" = true ->
  request method rawurl setters = ret None (Some err_params).
Proof.
  intros Hp Hsize Hq. unfold request, merge_params. rewrite Hp, Hq.
  destruct (Nat.eqb_spec (size params) 0); [done|reflexivity].
Qed.

(** Without a failing file the loop writes every entry. *)
Lemma write_files_completes (entries : list (string * File)) (bw : multipart.Writer)
      (drained : list N) :
  (forall field fh, (field, fh) ∈ entries -> read_error fh = None) ->
  exists bw', write_files bw drained entries = inl bw'.
Proof.
  revert bw drained.
  induction entries as [|[field fh] entries IH]; intros bw drained Hok; simpl.
  - eauto.
  - rewrite (Hok field fh) by left. apply IH. intros f h Hin. apply (Hok f h). by right.
Qed.

(** The encoders, when they run to their end, are calls of the dispatcher
    with the Content-Type written into the caller's headers and the encoded
    payload as body. *)
Lemma requestForm_dispatch method rawurl setters headers :
  Options.Headers (parseOptions setters) = Some headers ->
  requestForm method rawurl setters
  = request method rawurl
      (setters ++
       [Headers (Some (<["Content-Type" := "application/x-www-form-urlencoded"]> headers));
        Body (Some (strings_Reader
                (match Options.Form (parseOptions setters) with
                 | Some form => Some (Values_Encode (add_all form))
                 | None => None
                 end)))]).
Proof.
  intros Hh. unfold requestForm. rewrite Hh, return_r_err_id, <- app_assoc. reflexivity.
Qed.

Lemma requestJSON_dispatch method rawurl setters headers :
  Options.Headers (parseOptions setters) = Some headers ->
  ~ (exists err, marshal_error (parseOptions setters) err) ->
  requestJSON method rawurl setters
  = request method rawurl
      (setters ++
       [Headers (Some (<["Content-Type" := "application/json"]> headers));
        Body (Some (bytes_Buffer
                (match Options.JSON (parseOptions setters) with
                 | Some v => match json_Marshal v with inl b => Some b | inr _ => None end
                 | None => None
                 end)))]).
Proof.
  intros Hh Hok. unfold requestJSON. rewrite Hh.
  destruct (Options.JSON _) as [v|] eqn:Ej.
  - destruct (json_Marshal v) as [b|err] eqn:Em.
    + rewrite return_r_err_id, <- app_assoc. reflexivity.
    + destruct Hok. exists err, v. done.
  - rewrite return_r_err_id, <- app_assoc. reflexivity.
Qed.

Lemma requestFiles_dispatch method rawurl setters headers bw :
  Options.Headers (parseOptions setters) = Some headers ->
  match Options.Files (parseOptions setters) with
  | Some files => write_files (multipart.NewWriter randomBoundary) [] (range_order files)
  | None => inl (multipart.NewWriter randomBoundary)
  end = inl bw ->
  requestFiles method rawurl setters
  = request method rawurl
      (setters ++
       [Headers (Some (<["Content-Type" := multipart.FormDataContentType bw]> headers));
        Body (Some (bytes_Buffer (Some (multipart.w (multipart.Close bw).1))))]).
Proof.
  intros Hh Hw. unfold requestFiles. rewrite Hh, Hw. simpl. rewrite <- app_assoc.
  reflexivity.
Qed.

Lemma no_stream_error_completes (opts : Options.t) :
  ~ (exists err, stream_error opts err) ->
  exists bw,
    match Options.Files opts with
    | Some files => write_files (multipart.NewWriter randomBoundary) [] (range_order files)
    | None => inl (multipart.NewWriter randomBoundary)
    end = inl bw.
Proof.
  intros Hok. destruct (Options.Files opts) as [files|] eqn:Ef; [|eauto].
  apply write_files_completes. intros field fh Hin%elem_of_range_order.
  destruct (read_error fh) as [err|] eqn:Er; [|done].
  destruct Hok. exists err, files, field, fh. done.
Qed.

Lemma completes_via_dispatcher (v : Verb) (rawurl : string) (setters : list Option) :
  encoder_completes v (parseOptions setters) ->
  via_dispatcher (method_of v) rawurl setters (verb_call v rawurl setters).
Proof.
  unfold encoder_completes. rewrite verb_call_selected.
  destruct (selected v (parseOptions setters)) eqn:Esel; simpl.
  - intros _. apply requestData_cases.
  - destruct (Options.Headers _) as [headers|] eqn:Eh; [intros _|done].
    rewrite (requestForm_dispatch _ _ _ _ Eh).
    eexists [_; _]. split; [|reflexivity]. encoder_settings.
  - destruct (Options.Headers _) as [headers|] eqn:Eh; [intros [_ Hok]|intros [[] _]; done].
    rewrite (requestJSON_dispatch _ _ _ _ Eh Hok).
    eexists [_; _]. split; [|reflexivity]. encoder_settings.
  - destruct (Options.Headers _) as [headers|] eqn:Eh; [intros [_ Hok]|intros [[] _]; done].
    destruct (no_stream_error_completes _ Hok) as [bw Hbw].
    rewrite (requestFiles_dispatch _ _ _ _ _ Eh Hbw).
    eexists [_; _]. split; [|reflexivity]. encoder_settings.
  - intros _. apply via_dispatcher_request.
Qed.

End params_conflict.

(** C3: For every verb call whose params mapping is non-empty and whose
    URL contains the character [?]: no request is constructed or submitted
    to the transport; if the call returns, the response is nil and the
    error is not; and whenever the encoder the verb selects runs to its end
    (always for [Get], for a call without payload and for a data payload)
    the call returns exactly the configuration error. *)
Theorem C3_params_conflict `{Env} (v : Verb) (rawurl : string) (setters : list Option)
        (params : gmap string string) :
  Options.Params (parseOptions setters) = Some params ->
  size params <> 0%nat ->
  strings_Contains rawurl "?" = true ->
  sent (verb_call v rawurl setters) = [] /\
  (forall r err, ended (verb_call v rawurl setters) = Returned r err ->
                 r = None /\ err <> None) /\
  (encoder_completes v (parseOptions setters) ->
   verb_call v rawurl setters = {| sent := []; ended := Returned None (Some err_params) |} /\
   ConfigurationError err_params) /\
  (v = GET \/ selected v (parseOptions setters) = enc_none
   \/ selected v (parseOptions setters) = enc_data ->
   encoder_completes v (parseOptions setters)).
Proof.
  intros Hp Hsize Hq.
  assert (forall extra, Forall encoder_setting extra ->
            request (method_of v) rawurl (setters ++ extra) = ret None (Some err_params))
    as Hreq.
  { intros extra Hex. apply (request_params_conflict _ _ _ params); try done.
    rewrite parseOptions_app.
    by destruct (encoder_settings_keep extra Hex (parseOptions setters)) as (-> & _). }
  assert (forall r err, ended (verb_call v rawurl setters) = Returned r err ->
                        r = None /\ err <> None) as Hret.
  { intros r err Hend.
    destruct (verb_call_cases v rawurl setters) as [(extra & Hex & Hc)|[_ [[e He]|Hpanic]]].
    - rewrite Hc, Hreq in Hend by done. simpl in Hend. split; congruence.
    - rewrite He in Hend. split; congruence.
    - rewrite Hpanic in Hend. discriminate. }
  split; [|split; [exact Hret|split]].
  - destruct (verb_call_cases v rawurl setters) as [(extra & Hex & ->)|[Hs _]]; [|done].
    by rewrite Hreq.
  - intros Hcompletes.
    destruct (completes_via_dispatcher v rawurl setters Hcompletes) as (extra & Hex & ->).
    by rewrite Hreq.
  - intros [->|[Hs|Hs]]; unfold encoder_completes; [done|by rewrite Hs..].
Qed.

Lemma C3_witness :
  @verb_call (Sample.server Sample.ok) GET "http://example.com/search?q=go"
     [Params (Some {[ "page" := "2" ]})]
  = {| sent := []; ended := Returned None (Some err_params) |}.
Proof.
  refine (proj1 (proj1 (proj2 (proj2 (@C3_params_conflict (Sample.server Sample.ok) GET
           "http://example.com/search?q=go" [Params (Some {[ "page" := "2" ]})]
           {[ "page" := "2" ]} _ _ _))) _)).
  - reflexivity.
  - vm_compute. discriminate.
  - reflexivity.
  - exact I.
Defined.

(** The claim as stated fails when the JSON payload does not marshal: the
    call returns the marshalling error, not the configuration error. *)
Lemma C3_counterexample :
  let rawurl := "http://example.com/search?q=go" in
  let setters := [Headers (Some ∅); Params (Some {[ "page" := "2" ]});
                  JSON (Some Sample.channel)] in
  Options.Params (parseOptions setters) = Some {[ "page" := "2" ]} /\
  size ({[ "page" := "2" ]} : gmap string string) <> 0%nat /\
  strings_Contains rawurl "?" = true /\
  ~ (exists err,
       ended (@verb_call (Sample.server Sample.ok) POST rawurl setters)
       = Returned None (Some err) /\ ConfigurationError err).
Proof.
  intros rawurl setters. repeat split.
  - vm_compute. discriminate.
  - intros (err & Hend & Herr). vm_compute in Hend. rewrite Herr in Hend. discriminate.
Qed.

(** ** Maps written entry by entry *)

Section loops.

Context `{Env}.

(** Adding the entries of a list with distinct keys to [url.Values]. *)
Lemma fold_Add_lookup (l : list (string * string)) (acc : Values) (k : string) :
  NoDup l.*1 ->
  (forall k', k' ∈ l.*1 -> acc !! k' = None) ->
  foldl (fun values '(k, v) => Values_Add values k v) acc l !! k
  = match (list_to_map l : gmap string string) !! k with
    | Some v => Some [v]
    | None => acc !! k
    end.
Proof.
  revert acc. induction l as [|[k0 v0] l IH]; intros acc Hnd Hfresh; simpl.
  - by rewrite lookup_empty.
  - apply NoDup_cons in Hnd as [Hk0 Hnd]. simpl in Hk0.
    rewrite IH; [|done|].
    + unfold Values_Add, Values_at. rewrite (Hfresh k0) by left. simpl.
      destruct (decide (k = k0)) as [->|Hne].
      * rewrite (proj1 (not_elem_of_list_to_map _ _) Hk0).
        by rewrite !lookup_insert_eq.
      * by rewrite !lookup_insert_ne.
    + intros k' Hk'. unfold Values_Add. rewrite lookup_insert_ne.
      * apply Hfresh. by right.
      * intros ->. done.
Qed.

(** The [url.Values] built from a map holds each entry once, whatever the
    order of the loop. *)
Lemma fold_Add_values_of (m : gmap string string) (l : list (string * string)) :
  NoDup l.*1 ->
  (forall k v, (k, v) ∈ l <-> m !! k = Some v) ->
  foldl (fun values '(k, v) => Values_Add values k v) ∅ l = values_of m.
Proof.
  intros Hnd Hl. apply map_eq. intros k.
  rewrite fold_Add_lookup by done. rewrite lookup_empty.
  unfold values_of. rewrite lookup_fmap.
  destruct (m !! k) as [v|] eqn:Em; simpl.
  - apply Hl in Em. by rewrite (elem_of_list_to_map_1 _ _ _ Hnd Em).
  - destruct (list_to_map l !! k) as [v|] eqn:El; [|done].
    apply elem_of_list_to_map in El; [|done]. apply Hl in El. congruence.
Qed.

Lemma add_all_values_of (m : gmap string string) : add_all m = values_of m.
Proof.
  apply fold_Add_values_of.
  - apply NoDup_range_order.
  - intros k v. apply elem_of_range_order.
Qed.

(** After the header loop, a canonical key under which exactly one entry of
    the list falls holds the value of that entry. *)
Lemma fold_SetHeader_lookup (l : list (string * string)) (req : http.Request)
      (K k0 v0 : string) :
  CanonicalMIMEHeaderKey k0 = K ->
  (k0, v0) ∈ l \/ http.Header req !! K = Some [v0] ->
  (forall k v, (k, v) ∈ l -> CanonicalMIMEHeaderKey k = K -> k = k0 /\ v = v0) ->
  http.Header (foldl (fun req '(k, v) => http.SetHeader req k v) req l) !! K
  = Some [v0].
Proof.
  intros HK. revert req. induction l as [|[k v] l IH]; intros req Hin Huniq; simpl.
  - destruct Hin as [Hin|Hin]; [inversion Hin|done].
  - apply IH.
    + destruct (decide (CanonicalMIMEHeaderKey k = K)) as [Hk|Hk].
      * right. destruct (Huniq k v) as [-> ->]; [left|done|].
        simpl. unfold Header_Set. rewrite HK. apply lookup_insert_eq.
      * destruct Hin as [Hin|Hin].
        -- apply elem_of_cons in Hin as [[= -> ->]|Hin]; [done|by left].
        -- right. simpl. unfold Header_Set. by rewrite lookup_insert_ne.
    + intros k' v' Hin'. apply Huniq. by right.
Qed.

(** A canonical key under which no entry of the list falls is untouched. *)
Lemma fold_SetHeader_other (l : list (string * string)) (req : http.Request)
      (K : string) :
  (forall k v, (k, v) ∈ l -> CanonicalMIMEHeaderKey k <> K) ->
  http.Header (foldl (fun req '(k, v) => http.SetHeader req k v) req l) !! K
  = http.Header req !! K.
Proof.
  revert req. induction l as [|[k v] l IH]; intros req Hno; simpl; [done|].
  rewrite IH.
  - simpl. unfold Header_Set. rewrite lookup_insert_ne; [done|].
    apply (Hno k v). left.
  - intros k' v' Hin'. apply (Hno k' v'). by right.
Qed.

End loops.

(** ** The form encoder *)

Section form.

Context `{Env}.

(** The header a request carries under a canonical key that is not
    Authorization is the one the header loop left there. *)
Lemma request_sent_header (method rawurl : string) (setters : list Option)
      (req : http.Request) (headers : gmap string string) (K k0 v0 : string) :
  req ∈ sent (request method rawurl setters) ->
  Options.Headers (parseOptions setters) = Some headers ->
  K <> "Authorization" ->
  CanonicalMIMEHeaderKey k0 = K ->
  headers !! k0 = Some v0 ->
  (forall k, is_Some (headers !! k) -> CanonicalMIMEHeaderKey k = K -> k = k0) ->
  http.Header req !! K = Some [v0].
Proof.
  intros Hin Hh HK Hk0 Hl Huniq.
  apply request_sent in Hin as (url' & req0 & _ & Hnew & _ & _ & ->).
  assert (http.Header (fill_headers req0 (Some headers)) !! K = Some [v0]) as Hfill.
  { simpl. apply (fold_SetHeader_lookup _ _ K k0 v0); [done| |].
    - left. by apply elem_of_range_order.
    - intros k v Hkv%elem_of_range_order Hc.
      assert (k = k0) as -> by (apply Huniq; [eauto|done]).
      split; [done|congruence]. }
  rewrite Hh. destruct (decide _); [|done].
  simpl. unfold Header_Set. rewrite Authorization_canonical.
  rewrite lookup_insert_ne by done. exact Hfill.
Qed.

End form.

(** What does hold of a [Post] call whose option set has both the form
    and the json payload set (and no data payload, which comes first in
    the priority data, form, json, files): the call is [requestForm], the
    dispatcher gets the URL-encoded form as body and
    application/x-www-form-urlencoded under the key Content-Type of the
    headers mapping, and every request submitted carries that body and,
    when the caller's headers hold no other spelling of Content-Type, that
    header. *)
Theorem Post_form_before_json `{Env} (rawurl : string) (setters : list Option)
        (form : gmap string string) (j : any) :
  Options.Data (parseOptions setters) = None ->
  Options.Form (parseOptions setters) = Some form ->
  Options.JSON (parseOptions setters) = Some j ->
  Post rawurl setters = requestForm http.MethodPost rawurl setters /\
  (forall headers, Options.Headers (parseOptions setters) = Some headers ->
     Post rawurl setters
     = request http.MethodPost rawurl
         (setters ++
          [Headers (Some (<["Content-Type" := "application/x-www-form-urlencoded"]> headers));
           Body (Some (strings_Reader (Some (Values_Encode (values_of form)))))])) /\
  (forall req, req ∈ sent (Post rawurl setters) ->
     http.Body req = Some (strings_Reader (Some (Values_Encode (values_of form)))) /\
     (forall headers, Options.Headers (parseOptions setters) = Some headers ->
        (forall k, is_Some (headers !! k) ->
                   CanonicalMIMEHeaderKey k = "Content-Type" -> k = "Content-Type") ->
        http.Header req !! "Content-Type" = Some ["application/x-www-form-urlencoded"] /\
        Header_Get (http.Header req) "Content-Type" = "application/x-www-form-urlencoded")).
Proof.
  intros Hd Hf Hj.
  assert (Post rawurl setters = requestForm http.MethodPost rawurl setters) as Hsel.
  { rewrite Post_follows_priority. unfold select_by_priority. rewrite Hd, Hf.
    rewrite bool_decide_eq_false_2 by (intros Hne; by apply Hne).
    rewrite bool_decide_eq_true_2 by done. reflexivity. }
  assert (forall headers, Options.Headers (parseOptions setters) = Some headers ->
     Post rawurl setters
     = request http.MethodPost rawurl
         (setters ++
          [Headers (Some (<["Content-Type" := "application/x-www-form-urlencoded"]> headers));
           Body (Some (strings_Reader (Some (Values_Encode (values_of form)))))])) as Hdisp.
  { intros headers Hh. rewrite Hsel, (requestForm_dispatch _ _ _ _ Hh), Hf.
    by rewrite add_all_values_of. }
  split; [done|]. split; [done|].
  intros req Hin.
  destruct (Options.Headers (parseOptions setters)) as [headers|] eqn:Eh.
  - rewrite (Hdisp headers eq_refl) in Hin. split.
    + apply request_sent in Hin as (_ & _ & _ & _ & _ & -> & _).
      by rewrite parseOptions_app.
    + intros headers' [= <-] Huniq.
      assert (http.Header req !! "Content-Type"
              = Some ["application/x-www-form-urlencoded"]) as Hl.
      { apply (request_sent_header _ _ _ req
                 (<["Content-Type" := "application/x-www-form-urlencoded"]> headers)
                 "Content-Type" "Content-Type" _ Hin).
        - by rewrite parseOptions_app.
        - done.
        - reflexivity.
        - apply lookup_insert_eq.
        - intros k Hk Hc. destruct (decide (k = "Content-Type")) as [->|Hne]; [done|].
          rewrite lookup_insert_ne in Hk by done. by apply Huniq. }
      split; [done|]. unfold Header_Get.
      change (CanonicalMIMEHeaderKey "Content-Type") with "Content-Type".
      by rewrite Hl.
  - rewrite Hsel in Hin. unfold requestForm in Hin. rewrite Eh in Hin. inversion Hin.
Qed.

(** A form and a JSON payload together: the body on the wire is the form. *)
Lemma Post_form_before_json_witness :
  let E := Sample.server Sample.ok in
  let setters := [Headers (Some {[ "Accept" := "*/*" ]});
                  JSON (Some Sample.greeting);
                  Form (Some {[ "name" := "a b"; "id" := "7" ]})] in
  let req :=
    {| http.Method := "POST"; http.URL := "http://example.com/";
       http.Header := {[ "Accept" := ["*/*"];
                         "Content-Type" := ["application/x-www-form-urlencoded"] ]};
       http.Body := Some (strings_Reader (Some "id=7&name=a+b")) |} in
  sent (@Post E "http://example.com/" setters) = [req] /\
  http.Body req
  = Some (strings_Reader (Some (Values_Encode (values_of {[ "name" := "a b"; "id" := "7" ]})))).
Proof.
  intros E setters req. split; [vm_compute; reflexivity|].
  refine (proj1 (proj2 (proj2 (@Post_form_before_json E "http://example.com/" setters
           {[ "name" := "a b"; "id" := "7" ]} Sample.greeting _ _ _)) req _)).
  - reflexivity.
  - reflexivity.
  - reflexivity.
  - vm_compute. left.
Defined.


(** ** Byte strings *)

Lemma append_cons (x : ascii) (a b : string) :
  (String x a ++ b = String x (a ++ b))%string.
Proof. reflexivity. Qed.

Lemma append_assoc (a b c : string) : ((a ++ b) ++ c = a ++ (b ++ c))%string.
Proof.
  induction a as [|x a IH]; [done|].
  rewrite !append_cons. by rewrite IH.
Qed.

Lemma append_nil_r (a : string) : (a ++ "" = a)%string.
Proof.
  induction a as [|x a IH]; [done|].
  rewrite append_cons. by rewrite IH.
Qed.

Lemma length_append (a b : string) :
  String.length (a ++ b) = (String.length a + String.length b)%nat.
Proof.
  induction a as [|x a IH]; [done|].
  rewrite append_cons. simpl. by rewrite IH.
Qed.

Lemma has_byte_app (c : ascii) (a b : string) :
  has_byte c (a ++ b) = (has_byte c a || has_byte c b)%bool.
Proof.
  induction a as [|x a IH]; [done|].
  rewrite append_cons. simpl. by rewrite IH, orb_assoc.
Qed.

Lemma all_bytes_app (p : ascii -> bool) (a b : string) :
  all_bytes p (a ++ b) = (all_bytes p a && all_bytes p b)%bool.
Proof.
  induction a as [|x a IH]; [done|].
  rewrite append_cons. simpl. by rewrite IH, andb_assoc.
Qed.

Lemma all_bytes_has_byte (p : ascii -> bool) (c : ascii) (s : string) :
  all_bytes p s = true -> p c = false -> has_byte c s = false.
Proof.
  intros Hall Hc. induction s as [|x s IH]; [done|].
  simpl in *. apply andb_true_iff in Hall as [Hx Hs].
  rewrite IH by done. rewrite orb_false_r.
  destruct (Ascii.eqb_spec x c) as [->|]; [congruence|done].
Qed.

(** ** The multipart encoder *)

Section files.

Context `{Env}.

Lemma body_parts_cons (b : string) (p : Part) (parts : list Part) :
  body_parts b (p :: parts)
  = (body_part b p ++ (if bool_decide (parts = []) then "" else CRLF ++ body_parts b parts))%string.
Proof.
  destruct parts as [|q parts]; simpl body_parts.
  - rewrite bool_decide_eq_true_2 by done. by rewrite append_nil_r.
  - rewrite bool_decide_eq_false_2 by done. reflexivity.
Qed.

(** What the loop of [requestFiles] leaves in the buffer: the parts in the
    order of the loop, each behind its delimiter line. *)
Lemma write_files_bytes (entries : list (string * File)) (bw : multipart.Writer)
      (drained : list N) :
  (forall field fh, (field, fh) ∈ entries -> read_error fh = None) ->
  write_files bw drained entries
  = inl {| multipart.w :=
             (multipart.w bw
              ++ (if (multipart.lastpart bw && negb (bool_decide (entries = [])))%bool
                  then CRLF else "")
              ++ body_parts (multipart.boundary bw) (parts_written drained entries))%string;
           multipart.boundary := multipart.boundary bw;
           multipart.lastpart :=
             (multipart.lastpart bw || negb (bool_decide (entries = [])))%bool |}.
Proof.
  revert bw drained. induction entries as [|[field fh] entries IH]; intros bw drained Hok.
  - simpl. rewrite ?bool_decide_eq_true_2 by done. simpl.
    rewrite ?andb_false_r, ?orb_false_r. simpl. rewrite ?append_nil_r. by destruct bw.
  - simpl write_files. unfold multipart.CreateFormFile, multipart.Copy.
    rewrite (Hok field fh) by left.
    rewrite IH by (intros f h Hin; apply (Hok f h); by right).
    cbn [multipart.w multipart.boundary multipart.lastpart].
    rewrite (bool_decide_eq_false_2 ((field, fh) :: entries = [])) by done.
    cbn [parts_written]. rewrite body_parts_cons.
    unfold body_part, part_headers.
    cbn [part_name part_filename part_content fst snd].
    destruct entries as [|entry entries];
      rewrite ?bool_decide_eq_true_2, ?bool_decide_eq_false_2 by done;
      destruct (multipart.lastpart bw);
      cbn [andb orb negb parts_written body_parts];
      rewrite ?append_assoc, ?append_nil_r; reflexivity.
Qed.

(** The body the files encoder hands to the dispatcher. *)
Lemma requestFiles_body (method rawurl : string) (setters : list Option)
      (files : gmap string File) (headers : gmap string string) :
  Options.Files (parseOptions setters) = Some files ->
  Options.Headers (parseOptions setters) = Some headers ->
  (forall field fh, files !! field = Some fh -> read_error fh = None) ->
  requestFiles method rawurl setters
  = request method rawurl
      (setters ++
       [Headers (Some (<["Content-Type" :=
                           multipart.FormDataContentType (multipart.NewWriter randomBoundary)]>
                         headers));
        Body (Some (bytes_Buffer (Some
                (multipart_message randomBoundary
                   (parts_written [] (range_order files))))))]).
Proof.
  intros Hf Hh Hok.
  erewrite (requestFiles_dispatch method rawurl setters headers); [|exact Hh|].
  2: { rewrite Hf. apply write_files_bytes.
       intros field fh Hin%elem_of_range_order. by apply (Hok field). }
  cbn [multipart.Close multipart.w multipart.boundary multipart.lastpart
       multipart.NewWriter fst andb].
  unfold multipart_message, close_delimiter.
  rewrite ?append_assoc. reflexivity.
Qed.

End files.

(** ** Reading back what the multipart writer wrote *)




























Section files_read_back.

Context `{Env}.



End files_read_back.




(** The bytes of a message with one part. *)
Example multipart_message_bytes :
  multipart_message "7d1e3c"
    [{| part_name := "f"; part_filename := "a.txt"; part_content := "hello" |}]
  = ("--7d1e3c" ++ rfc_CRLF
     ++ "Content-Disposition: form-data; name=" ++ String rfc_DQUOTE "f"
     ++ String rfc_DQUOTE "; filename=" ++ String rfc_DQUOTE "a.txt"
     ++ String rfc_DQUOTE rfc_CRLF
     ++ "Content-Type: application/octet-stream" ++ rfc_CRLF
     ++ rfc_CRLF
     ++ "hello" ++ rfc_CRLF
     ++ "--7d1e3c--" ++ rfc_CRLF)%string.
Proof. reflexivity. Qed.

(** ** Query escaping *)

Lemma all_bytes_impl (p q : ascii -> bool) (s : string) :
  (forall c, p c = true -> q c = true) -> all_bytes p s = true -> all_bytes q s = true.
Proof.
  intros Hpq. induction s as [|x s IH]; [done|]. simpl.
  intros [Hx Hs]%andb_true_iff. by rewrite (Hpq x Hx), IH.
Qed.

Lemma Contains_byte (s : string) (c : ascii) :
  strings_Contains s (String c EmptyString) = has_byte c s.
Proof.
  induction s as [|x s IH]; [done|].
  simpl. rewrite IH.
  destruct (ascii_dec c x) as [->|Hne].
  - rewrite Ascii.eqb_refl. by destruct s.
  - destruct (Ascii.eqb_spec x c) as [->|]; [done|]. reflexivity.
Qed.

Lemma Cut_absent (s : string) (sep : ascii) :
  has_byte sep s = false -> strings_Cut s sep = (s, EmptyString, false).
Proof.
  induction s as [|x s IH]; [done|]. simpl.
  intros [Hx Hs]%orb_false_iff. rewrite Hx, IH by done. reflexivity.
Qed.

Lemma Cut_first (a b : string) (sep : ascii) :
  has_byte sep a = false -> strings_Cut (a ++ String sep b) sep = (a, b, true).
Proof.
  induction a as [|x a IH]; simpl.
  - intros _. change ("" ++ String sep b)%string with (String sep b).
    simpl. by rewrite Ascii.eqb_refl.
  - intros [Hx Ha]%orb_false_iff. rewrite ?append_cons. simpl.
    rewrite Hx, IH by done. reflexivity.
Qed.

Lemma Split_not_nil (s : string) (sep : ascii) : strings_Split s sep <> [].
Proof.
  induction s as [|x s IH]; simpl; [done|].
  destruct (Ascii.eqb x sep); [done|]. by destruct (strings_Split s sep).
Qed.

Lemma Split_absent (s : string) (sep : ascii) :
  has_byte sep s = false -> strings_Split s sep = [s].
Proof.
  induction s as [|x s IH]; [done|]. simpl.
  intros [Hx Hs]%orb_false_iff. rewrite Hx, IH by done. reflexivity.
Qed.

Lemma Split_app (a b : string) (sep : ascii) :
  strings_Split (a ++ String sep b) sep
  = (strings_Split a sep ++ strings_Split b sep)%list.
Proof.
  induction a as [|x a IH].
  - change ("" ++ String sep b)%string with (String sep b).
    simpl. by rewrite Ascii.eqb_refl.
  - rewrite append_cons. simpl. rewrite IH.
    destruct (Ascii.eqb x sep); [done|].
    pose proof (Split_not_nil a sep).
    by destruct (strings_Split a sep).
Qed.

Lemma hexdigit_hex (n : N) :
  ishex (hexdigit n) = true /\ is_alnum (hexdigit n) = true.
Proof.
  unfold hexdigit. remember (N.to_nat n) as m eqn:Em. clear Em.
  do 16 (destruct m as [|m]; [split; reflexivity|]). split; reflexivity.
Qed.

Lemma byte_of_hex (c : ascii) :
  ascii_of_N (unhex (hexdigit (N.shiftr (N_of_ascii c) 4)) * 16
              + unhex (hexdigit (N.land (N_of_ascii c) 15))) = c.
Proof. destruct c as [[] [] [] [] [] [] [] []]; reflexivity. Qed.

Lemma unescaped_byte (c : ascii) :
  shouldEscape c = false ->
  Ascii.eqb c "%" = false /\ Ascii.eqb c "+" = false /\ escaped_byte c = true.
Proof.
  destruct c as [[] [] [] [] [] [] [] []]; vm_compute; intros Hc;
    first [discriminate Hc | repeat split].
Qed.

Lemma QueryEscape_bytes (s : string) :
  all_bytes escaped_byte (url_QueryEscape s) = true.
Proof.
  induction s as [|c s IH]; [done|]. simpl.
  destruct (Ascii.eqb c " "); [simpl; by rewrite IH|].
  destruct (shouldEscape c) eqn:Ec.
  - cbn [all_bytes]. rewrite IH.
    unfold escaped_byte at 2 3.
    rewrite (proj2 (hexdigit_hex (N.shiftr (N_of_ascii c) 4))),
      (proj2 (hexdigit_hex (N.land (N_of_ascii c) 15))). reflexivity.
  - cbn [all_bytes]. by rewrite (proj2 (proj2 (unescaped_byte c Ec))), IH.
Qed.

(** [url.QueryUnescape] undoes [url.QueryEscape] on every byte string. *)
Lemma QueryUnescape_QueryEscape (s : string) :
  url_QueryUnescape (url_QueryEscape s) = inl s.
Proof.
  induction s as [|c s IH]; [done|]. simpl url_QueryEscape.
  destruct (Ascii.eqb_spec c " ") as [->|Hsp].
  - simpl. by rewrite IH.
  - destruct (shouldEscape c) eqn:Ec.
    + simpl. rewrite (proj1 (hexdigit_hex _)), (proj1 (hexdigit_hex _)). simpl.
      by rewrite IH, byte_of_hex.
    + destruct (unescaped_byte c Ec) as (Hp & Hplus & _).
      simpl. by rewrite Hp, IH, Hplus.
Qed.

Lemma QueryEscape_free (s : string) (c : ascii) :
  escaped_byte c = false -> has_byte c (url_QueryEscape s) = false.
Proof. apply all_bytes_has_byte, QueryEscape_bytes. Qed.

(** ** The query string and its decoding *)

Lemma query_piece_bytes (kv : string * string) :
  all_bytes query_byte (query_piece kv) = true.
Proof.
  unfold query_piece. rewrite !all_bytes_app.
  assert (forall s, all_bytes query_byte (url_QueryEscape s) = true) as Hq.
  { intros s. apply (all_bytes_impl escaped_byte); [|apply QueryEscape_bytes].
    intros c Hc. unfold query_byte. by rewrite Hc. }
  by rewrite !Hq.
Qed.

Lemma query_piece_not_empty (kv : string * string) :
  (0 <? Z.of_nat (String.length (query_piece kv))) = true.
Proof.
  unfold query_piece. rewrite !length_append. simpl String.length.
  apply Z.ltb_lt. lia.
Qed.

Lemma query_piece_free (kv : string * string) (c : ascii) :
  escaped_byte c = false -> Ascii.eqb "=" c = false ->
  has_byte c (query_piece kv) = false.
Proof.
  intros Hc Heq. unfold query_piece. rewrite !has_byte_app.
  rewrite !QueryEscape_free by done. cbn [has_byte]. by rewrite Heq.
Qed.

(** The encoded pairs, cut at the ampersands, are the pieces again. *)
Lemma encode_pairs_Split (kvs : list (string * string)) :
  kvs <> [] ->
  strings_Split (encode_pairs kvs) "&" = query_piece <$> kvs /\
  (0 <? Z.of_nat (String.length (encode_pairs kvs))) = true /\
  all_bytes query_byte (encode_pairs kvs) = true.
Proof.
  induction kvs as [|kv kvs IH] using rev_ind; [done|]. intros _.
  unfold encode_pairs. rewrite foldl_snoc. fold (encode_pairs kvs).
  unfold Encode_write. fold (query_piece kv).
  assert (has_byte "&" (query_piece kv) = false) as Hamp
    by (by apply query_piece_free).
  destruct kvs as [|kv0 kvs0].
  - change (encode_pairs []) with EmptyString. simpl String.length. simpl Z.ltb.
    cbn iota. change ("" ++ query_piece kv)%string with (query_piece kv).
    rewrite Split_absent by done.
    split; [done|]. split; [apply query_piece_not_empty|apply query_piece_bytes].
  - destruct IH as (Hsplit & Hlen & Hbytes); [done|].
    rewrite Hlen, append_assoc.
    change ("&" ++ query_piece kv)%string with (String "&" (query_piece kv)).
    rewrite Split_app, Hsplit, Split_absent by done.
    rewrite fmap_app. split; [done|]. split.
    + rewrite length_append. simpl String.length. apply Z.ltb_lt. lia.
    + rewrite all_bytes_app, Hbytes. simpl. apply query_piece_bytes.
Qed.

(** [parseQuery] on the pieces adds the pairs back, without an error. *)
Lemma parse_pieces (kvs : list (string * string)) (m : Values) :
  foldl parseQuery_piece (m, None) (query_piece <$> kvs)
  = (foldl (fun values '(k, v) => Values_Add values k v) m kvs, None).
Proof.
  revert m. induction kvs as [|[k v] kvs IH]; intros m; [done|].
  rewrite fmap_cons. cbn [foldl]. rewrite <- IH. f_equal.
  unfold parseQuery_piece.
  rewrite query_piece_free by done.
  assert (String.eqb (query_piece (k, v)) "" = false) as ->.
  { apply String.eqb_neq. intros Heq.
    pose proof (query_piece_not_empty (k, v)) as Hl. rewrite Heq in Hl. done. }
  unfold query_piece. cbn [fst snd].
  change ("=" ++ url_QueryEscape v)%string with (String "=" (url_QueryEscape v)).
  rewrite Cut_first by (by apply QueryEscape_free).
  by rewrite !QueryUnescape_QueryEscape.
Qed.

Lemma elem_of_sorted_keys {V} (m : gmap string V) (k : string) :
  k ∈ sorted_keys m <-> is_Some (m !! k).
Proof.
  unfold sorted_keys. rewrite merge_sort_Permutation, list_elem_of_fmap. split.
  - intros ([k' x] & -> & Hin%elem_of_map_to_list). eauto.
  - intros [x Hx]. exists (k, x). split; [done|]. by apply elem_of_map_to_list.
Qed.

Lemma NoDup_sorted_keys {V} (m : gmap string V) : NoDup (sorted_keys m).
Proof. unfold sorted_keys. rewrite merge_sort_Permutation. apply NoDup_fst_map_to_list. Qed.

Lemma foldl_ext_in {A B} (f g : A -> B -> A) (l : list B) (a : A) :
  (forall a x, x ∈ l -> f a x = g a x) -> foldl f a l = foldl g a l.
Proof.
  revert a. induction l as [|x l IH]; intros a Hfg; [done|]. simpl.
  rewrite Hfg by left. apply IH. intros a' x' Hx'. apply Hfg. by right.
Qed.

(** The pairs of a parameter map in the order of [Values.Encode]. *)
Lemma Values_Encode_values_of (params : gmap string string) :
  exists kvs : list (string * string),
    Values_Encode (values_of params) = encode_pairs kvs /\
    NoDup kvs.*1 /\
    (forall k v, (k, v) ∈ kvs <-> params !! k = Some v).
Proof.
  exists ((fun k => (k, default EmptyString (params !! k)))
            <$> sorted_keys (values_of params)).
  assert (forall k, k ∈ sorted_keys (values_of params) <-> is_Some (params !! k)) as Hkeys.
  { intros k. rewrite elem_of_sorted_keys. unfold values_of.
    rewrite lookup_fmap. by rewrite fmap_is_Some. }
  split; [|split].
  - unfold Values_Encode, encode_pairs. rewrite foldl_fmap.
    apply foldl_ext_in. intros buf k [v Hv]%Hkeys. cbn [fst snd].
    unfold Values_at, values_of. rewrite lookup_fmap, Hv. reflexivity.
  - assert (forall l : list string,
              ((fun k => (k, default EmptyString (params !! k))) <$> l).*1 = l) as ->.
    { induction l as [|k l IH]; [done|]. rewrite !fmap_cons. by rewrite IH. }
    apply NoDup_sorted_keys.
  - intros k v. rewrite list_elem_of_fmap. split.
    + intros (k' & [= -> ->] & [x Hx]%Hkeys). by rewrite Hx.
    + intros Hv. exists k. rewrite Hv. split; [done|]. apply Hkeys. eauto.
Qed.

(** Decoding the encoded parameters gives each parameter back, once. *)
Lemma ParseQuery_Encode (params : gmap string string) :
  url_ParseQuery (Values_Encode (values_of params)) = (values_of params, None) /\
  has_byte "#" (Values_Encode (values_of params)) = false.
Proof.
  destruct (Values_Encode_values_of params) as (kvs & -> & Hnd & Hkvs).
  rewrite <- (fold_Add_values_of params kvs Hnd Hkvs).
  destruct (decide (kvs = [])) as [->|Hne]; [done|].
  destruct (encode_pairs_Split kvs Hne) as (Hsplit & _ & Hbytes).
  unfold url_ParseQuery. rewrite Hsplit, parse_pieces. split; [done|].
  by apply (all_bytes_has_byte query_byte).
Qed.

(** C9: For every non-empty params mapping and every target URL that
    holds neither [?] nor [#], the URL the dispatcher constructs by
    appending [?] and the encoded parameters round-trips: the query
    component of the constructed URL, decoded by [url.ParseQuery], is
    exactly the original mapping, each key with its one value. *)
Theorem C9_query_round_trip `{Env} (rawurl : string) (params : gmap string string) :
  size params <> 0%nat ->
  strings_Contains rawurl "?" = false ->
  strings_Contains rawurl "#" = false ->
  let url' := (rawurl ++ "?" ++ Values_Encode (values_of params))%string in
  merge_params (Some params) rawurl = inl url' /\
  URL_RawQuery url' = Values_Encode (values_of params) /\
  url_ParseQuery (URL_RawQuery url') = (values_of params, None) /\
  (forall k v, params !! k = Some v <->
               (url_ParseQuery (URL_RawQuery url')).1 !! k = Some [v]) /\
  (forall method setters req,
     Options.Params (parseOptions setters) = Some params ->
     req ∈ sent (request method rawurl setters) ->
     http.URL req = url').
Proof.
  intros Hsize Hq Hfrag url'.
  destruct (ParseQuery_Encode params) as [Hparse Hhash].
  assert (merge_params (Some params) rawurl = inl url') as Hmerge.
  { unfold merge_params. rewrite Hq, add_all_values_of.
    by destruct (Nat.eqb_spec (size params) 0). }
  assert (URL_RawQuery url' = Values_Encode (values_of params)) as Hraw.
  { unfold URL_RawQuery, url'.
    change ("?" ++ Values_Encode (values_of params))%string
      with (String "?" (Values_Encode (values_of params))).
    rewrite Contains_byte in Hq, Hfrag.
    rewrite (Cut_absent _ "#").
    - by rewrite Cut_first.
    - rewrite has_byte_app, Hfrag. simpl. exact Hhash. }
  split; [done|]. split; [done|]. rewrite Hraw, Hparse. split; [done|]. split.
  - intros k v. simpl. unfold values_of. rewrite lookup_fmap.
    destruct (params !! k) as [x|]; simpl; split; congruence.
  - intros method setters req Hp Hin.
    apply request_sent in Hin as (u & _ & Hm & _ & -> & _).
    rewrite Hp, Hmerge in Hm. congruence.
Qed.

Lemma C9_witness :
  let params : gmap string string := {[ "q" := "go lang"; "page" := "2" ]} in
  let url' := "http://example.com/search?page=2&q=go+lang" in
  @merge_params (Sample.server Sample.ok) (Some params) "http://example.com/search"
  = inl url' /\
  URL_RawQuery url' = "page=2&q=go+lang" /\
  url_ParseQuery (URL_RawQuery url') = (values_of params, None).
Proof.
  intros params url'.
  destruct (@C9_query_round_trip (Sample.server Sample.ok) "http://example.com/search"
              params) as (Hm & Hr & Hp & _).
  - vm_compute. discriminate.
  - reflexivity.
  - reflexivity.
  - split; [exact Hm|]. split; [reflexivity|]. exact Hp.
Defined.

(** With a fragment in the target URL the appended text lands in the
    fragment: the constructed URL has an empty query component. *)
Lemma C9_counterexample :
  let params : gmap string string := {[ "k" := "v" ]} in
  let rawurl := "http://example.com/#top" in
  size params <> 0%nat /\
  strings_Contains rawurl "?" = false /\
  @merge_params (Sample.server Sample.ok) (Some params) rawurl
  = inl "http://example.com/#top?k=v" /\
  URL_RawQuery "http://example.com/#top?k=v" = "" /\
  url_ParseQuery (URL_RawQuery "http://example.com/#top?k=v") = (∅, None) /\
  (url_ParseQuery (URL_RawQuery "http://example.com/#top?k=v")).1 <> values_of params.
Proof.
  intros params rawurl. repeat split; vm_compute; congruence.
Qed.

(* ===================================================================== *)
(** * Further properties of request.go *)
(* ===================================================================== *)

(** ** How a call of the dispatcher can end *)

Section outcomes.

Context `{Env}.

Lemma merge_params_inr (params : option (gmap string string)) (rawurl : string)
      (err : error) :
  merge_params params rawurl = inr err ->
  err = err_params /\ strings_Contains rawurl "?" = true /\
  exists m, params = Some m /\ size m <> 0%nat.
Proof.
  unfold merge_params. destruct params as [m|]; [|discriminate].
  destruct (Nat.eqb_spec (size m) 0); simpl; [discriminate|].
  destruct (strings_Contains rawurl "?"); [|discriminate].
  intros [= <-]. eauto.
Qed.

Lemma merge_params_inl (params : option (gmap string string)) (rawurl url' : string) :
  merge_params params rawurl = inl url' ->
  (url' = rawurl /\ (params = None \/ exists m, params = Some m /\ size m = 0%nat)) \/
  (exists m, params = Some m /\ size m <> 0%nat /\
             strings_Contains rawurl "?" = false /\
             url' = (rawurl ++ "?" ++ Values_Encode (values_of m))%string).
Proof.
  unfold merge_params. destruct params as [m|]; [|intros [= <-]; auto].
  destruct (Nat.eqb_spec (size m) 0); simpl.
  - intros [= <-]. left. eauto.
  - destruct (strings_Contains rawurl "?"); [discriminate|].
    intros [= <-]. right. exists m. by rewrite add_all_values_of.
Qed.

Lemma validMethod_method_of (v : Verb) : validMethod (method_of v) = true.
Proof. by destruct v. Qed.

(** [http.NewRequest] for one of the five methods: it fails exactly with
    the error of [url.Parse], and it panics exactly on a typed nil body of
    a URL that parses. *)
Lemma http_NewRequest_verb (v : Verb) (url : string) (body : option Reader) :
  http_NewRequest (method_of v) url body
  = match url_Parse url with
    | Some err => Err err
    | None =>
        if typed_nil body then Panic nil_dereference
        else Ok {| http.Method := method_of v; http.URL := url;
                   http.Header := ∅; http.Body := body |}
    end.
Proof.
  unfold http_NewRequest.
  assert (String.eqb (method_of v) "" = false) as -> by (by destruct v).
  rewrite validMethod_method_of. simpl.
  destruct (url_Parse url); [done|].
  by destruct body as [[[?|]|[?|]|[?|]|?]|].
Qed.

(** The four ways a call of the dispatcher ends. *)
Lemma request_outcome (v : Verb) (rawurl : string) (setters : list Option) :
  let opts := parseOptions setters in
  let c := request (method_of v) rawurl setters in
  (c = ret None (Some err_params) /\
   merge_params (Options.Params opts) rawurl = inr err_params) \/
  (exists url' err,
     merge_params (Options.Params opts) rawurl = inl url' /\
     url_Parse url' = Some err /\ c = ret None (Some err)) \/
  (exists url',
     merge_params (Options.Params opts) rawurl = inl url' /\
     url_Parse url' = None /\ typed_nil (Options.Body opts) = true /\
     c = panic nil_dereference) \/
  (exists url' req,
     merge_params (Options.Params opts) rawurl = inl url' /\
     url_Parse url' = None /\ typed_nil (Options.Body opts) = false /\
     c = {| sent := [req];
            ended := classify (client_Do (new_client opts) req) |}).
Proof.
  intros opts c. subst c.
  destruct (merge_params (Options.Params opts) rawurl) as [url'|err] eqn:Em.
  - right.
    pose proof (http_NewRequest_verb v url' (Options.Body opts)) as Hnew.
    destruct (url_Parse url') as [err|] eqn:Eu.
    + left. exists url', err. repeat split; try done.
      unfold request. fold opts. by rewrite Em, Hnew.
    + right. destruct (typed_nil (Options.Body opts)) eqn:Et.
      * left. exists url'. repeat split; try done.
        unfold request. fold opts. by rewrite Em, Hnew.
      * right.
        destruct (request_sends (method_of v) rawurl url' setters _ Em Hnew) as [req Hs].
        exists url', req. repeat split; try done.
        destruct (request_ended (method_of v) rawurl setters req) as [_ He].
        { rewrite Hs. left. }
        fold opts in He. rewrite <- He, <- Hs.
        by destruct (request (method_of v) rawurl setters).
  - left. destruct (merge_params_inr _ _ _ Em) as (-> & _).
    split; [|done]. unfold request. fold opts. by rewrite Em.
Qed.

End outcomes.

(** ** How a verb call reaches the dispatcher *)

Section reaching.

Context `{Env}.

Lemma selected_cases (v : Verb) (opts : Options.t) :
  match selected v opts with
  | enc_data => v <> GET /\ Options.Data opts <> None
  | enc_form => v <> GET /\ Options.Data opts = None /\ Options.Form opts <> None
  | enc_json =>
      v <> GET /\ Options.Data opts = None /\ Options.Form opts = None /\
      Options.JSON opts <> None
  | enc_files =>
      v = POST /\ Options.Data opts = None /\ Options.Form opts = None /\
      Options.JSON opts = None /\ Options.Files opts <> None
  | enc_none => True
  end.
Proof.
  assert (forall A (x : option A), ~ x <> None -> x = None) as Hnn.
  { intros A [a|] Hx; [destruct Hx; done|done]. }
  destruct v; unfold selected, select_by_priority; simpl; try done;
    repeat case_bool_decide; simpl; auto 10.
Qed.

Lemma selected_data (v : Verb) (opts : Options.t) :
  v <> GET -> Options.Data opts <> None -> selected v opts = enc_data.
Proof.
  intros Hv Hd. destruct v; [done|..]; unfold selected, select_by_priority;
    by rewrite bool_decide_eq_true_2.
Qed.

Lemma selected_json (v : Verb) (opts : Options.t) :
  v <> GET -> Options.Data opts = None -> Options.Form opts = None ->
  Options.JSON opts <> None -> selected v opts = enc_json.
Proof.
  intros Hv Hd Hf Hj. destruct v; [done|..]; unfold selected, select_by_priority;
    rewrite Hd, Hf;
    rewrite !(bool_decide_eq_false_2 (None <> None)) by (intros Hne; by apply Hne);
    by rewrite bool_decide_eq_true_2.
Qed.

Lemma selected_files (opts : Options.t) :
  Options.Data opts = None -> Options.Form opts = None -> Options.JSON opts = None ->
  Options.Files opts <> None -> selected POST opts = enc_files.
Proof.
  intros Hd Hf Hj Hfi. unfold selected, select_by_priority. rewrite Hd, Hf, Hj.
  rewrite !(bool_decide_eq_false_2 (None <> None)) by (intros Hne; by apply Hne).
  by rewrite bool_decide_eq_true_2.
Qed.

(** The files encoder: either a file fails, or every file is read. *)
Lemma files_read_or_fail (files : gmap string File) :
  (exists err, write_files (multipart.NewWriter randomBoundary) [] (range_order files) = inr err /\
     exists field fh, files !! field = Some fh /\ read_error fh = Some err) \/
  (forall field fh, files !! field = Some fh -> read_error fh = None).
Proof.
  destruct (decide (Forall (fun e : string * File => read_error e.2 = None)
                      (range_order files))) as [Hall|Hsome].
  - right. intros field fh Hl%elem_of_range_order.
    by apply (proj1 (Forall_forall _ _) Hall (field, fh)).
  - left. apply not_Forall_Exists in Hsome; [|apply _].
    apply Exists_exists in Hsome as ([field fh] & Hin & Hne).
    destruct (write_files_fails (range_order files) (multipart.NewWriter randomBoundary) [])
      as (f' & h' & err & Hin' & Herr & Hw); [by exists field, fh|].
    exists err. split; [done|]. exists f', h'. by rewrite <- elem_of_range_order.
Qed.

(** Every verb call stops in its encoder, with the encoding error or with
    the fault of the write to a nil headers map, or is the dispatcher
    called on the caller's settings followed by the encoder's. *)
Lemma verb_call_encoded (v : Verb) (rawurl : string) (setters : list Option) :
  let opts := parseOptions setters in
  let e := selected v opts in
  let c := verb_call v rawurl setters in
  (exists err, c = ret None (Some err) /\
     ((e = enc_json /\ marshal_error opts err) \/
      (e = enc_files /\ stream_error opts err))) \/
  (c = panic nil_map_write /\ writes_content_type e = true /\
   Options.Headers opts = None) \/
  (exists extra, c = request (method_of v) rawurl (setters ++ extra) /\
                 encoded_as e opts extra).
Proof.
  intros opts e c. subst c. rewrite verb_call_selected. fold opts. fold e.
  pose proof (selected_cases v opts) as Hsel. fold e in Hsel.
  destruct e eqn:Ee; simpl encoder_call.
  - right. right. destruct Hsel as [_ Hd].
    destruct (Options.Data opts) as [d|] eqn:Ed; [|done].
    eexists. split; [|exists d; split; [done|reflexivity]].
    unfold requestData. fold opts. by rewrite Ed, return_r_err_id.
  - destruct Hsel as (_ & _ & Hf).
    destruct (Options.Form opts) as [form|] eqn:Ef; [|done].
    destruct (Options.Headers opts) as [headers|] eqn:Eh.
    + right. right. eexists. split; [|exists headers, form; repeat split; done].
      rewrite (requestForm_dispatch _ _ _ headers) by done. fold opts.
      by rewrite Ef, add_all_values_of.
    + right. left. split; [|by split].
      unfold requestForm. fold opts. by rewrite Eh.
  - destruct Hsel as (_ & _ & _ & Hj).
    destruct (Options.JSON opts) as [j|] eqn:Ej; [|done].
    destruct (json_Marshal j) as [b|err] eqn:Em.
    + destruct (Options.Headers opts) as [headers|] eqn:Eh.
      * right. right. eexists.
        split; [|exists headers, j, b; repeat split; done].
        unfold requestJSON. fold opts. rewrite Ej, Em, Eh, return_r_err_id.
        by rewrite <- app_assoc.
      * right. left. split; [|by split].
        unfold requestJSON. fold opts. by rewrite Ej, Em, Eh.
    + left. exists err. split.
      * unfold requestJSON. fold opts. by rewrite Ej, Em.
      * left. split; [done|]. by exists j.
  - destruct Hsel as (_ & _ & _ & _ & Hfi).
    destruct (Options.Files opts) as [files|] eqn:Efi; [|done].
    destruct (files_read_or_fail files) as [(err & Hw & field & fh & Hl & Hr)|Hok].
    + left. exists err. split.
      * unfold requestFiles. fold opts. by rewrite Efi, Hw.
      * right. split; [done|]. by exists files, field, fh.
    + destruct (Options.Headers opts) as [headers|] eqn:Eh.
      * right. right. eexists.
        split; [|exists headers, files; repeat split; done].
        by apply requestFiles_body.
      * right. left. split; [|by split].
        unfold requestFiles. fold opts. rewrite Efi, Eh.
        rewrite write_files_bytes; [done|].
        intros field fh Hl%elem_of_range_order. by apply (Hok field).
  - right. right. exists []. split; [by rewrite app_nil_r|done].
Qed.

Lemma length_parts_written (drained : list N) (entries : list (string * File)) :
  length (parts_written drained entries) = length entries.
Proof.
  revert drained. induction entries as [|entry entries IH]; intros drained; [done|].
  simpl. by rewrite IH.
Qed.

Lemma encoded_as_settings (e : Encoder) (opts : Options.t) (extra : list Option) :
  encoded_as e opts extra -> Forall encoder_setting extra.
Proof.
  destruct e; simpl.
  - intros (d & _ & ->). encoder_settings.
  - intros (h & f & _ & _ & ->). encoder_settings.
  - intros (h & j & b & _ & _ & _ & ->). encoder_settings.
  - intros (h & files & _ & _ & _ & ->). encoder_settings.
  - intros ->. constructor.
Qed.

End reaching.

(** ** How a verb call can end *)

Section endings.

Context `{Env}.

Lemma encoded_as_body (e : Encoder) (setters extra : list Option) :
  encoded_as e (parseOptions setters) extra ->
  let body := Options.Body (parseOptions (setters ++ extra)) in
  (e = enc_none -> body = Options.Body (parseOptions setters)) /\
  (e <> enc_none -> typed_nil body = false).
Proof.
  intros Hen body. subst body. rewrite parseOptions_app. destruct e; simpl in Hen.
  - destruct Hen as (d & _ & ->). split; done.
  - destruct Hen as (h & f & _ & _ & ->). split; done.
  - destruct Hen as (h & j & b & _ & _ & _ & ->). split; done.
  - destruct Hen as (h & files & _ & _ & _ & ->). split; done.
  - subst extra. split; done.
Qed.

(** The six ways a verb call ends. *)
Lemma verb_call_outcome (v : Verb) (rawurl : string) (setters : list Option) :
  let opts := parseOptions setters in
  let e := selected v opts in
  let c := verb_call v rawurl setters in
  (exists err, c = ret None (Some err) /\
     ((e = enc_json /\ marshal_error opts err) \/
      (e = enc_files /\ stream_error opts err))) \/
  (c = panic nil_map_write /\ writes_content_type e = true /\
   Options.Headers opts = None) \/
  (c = ret None (Some err_params) /\
   merge_params (Options.Params opts) rawurl = inr err_params) \/
  (exists url' err,
     merge_params (Options.Params opts) rawurl = inl url' /\
     url_Parse url' = Some err /\ c = ret None (Some err)) \/
  (exists url',
     merge_params (Options.Params opts) rawurl = inl url' /\
     url_Parse url' = None /\ e = enc_none /\
     typed_nil (Options.Body opts) = true /\ c = panic nil_dereference) \/
  (exists url' req,
     merge_params (Options.Params opts) rawurl = inl url' /\
     url_Parse url' = None /\
     c = {| sent := [req]; ended := classify (client_Do (new_client opts) req) |}).
Proof.
  intros opts e c.
  destruct (verb_call_encoded v rawurl setters)
    as [Hstop|[Hpanic|(extra & Hc & Hen)]]; [by left|by right; left|].
  fold opts e in Hen. fold c in Hc.
  pose proof (encoded_as_settings _ _ _ Hen) as Hex.
  destruct (encoder_settings_keep extra Hex opts) as (Hp & _ & Ht & Hk).
  destruct (encoded_as_body e setters extra Hen) as [Hnone Hsome].
  assert (new_client (parseOptions (setters ++ extra)) = new_client opts) as Hcl.
  { unfold new_client. rewrite parseOptions_app. fold opts. by rewrite Ht, Hk. }
  right. right.
  destruct (request_outcome v rawurl (setters ++ extra))
    as [[Hr Hm]|[(url' & err & Hm & Hu & Hr)|[(url' & Hm & Hu & Hn & Hr)
        |(url' & req & Hm & Hu & Hn & Hr)]]];
    rewrite <- Hc in Hr; rewrite parseOptions_app in Hm; fold opts in Hm;
    rewrite Hp in Hm.
  - by left.
  - right. left. by exists url', err.
  - right. right. left. exists url'.
    destruct (decide (e = enc_none)) as [He|He].
    + rewrite (Hnone He) in Hn. done.
    + rewrite (Hsome He) in Hn. done.
  - right. right. right. exists url', req. rewrite Hcl in Hr. done.
Qed.

End endings.

(** ** The write of Content-Type when the caller gave no headers *)




(** X1: A verb call submits at most one request to the transport: nothing is
    retried, and nothing is sent twice. *)
Theorem at_most_one_request `{Env} (v : Verb) (rawurl : string) (setters : list Option) :
  (length (sent (verb_call v rawurl setters)) <= 1)%nat.
Proof.
  destruct (verb_call_outcome v rawurl setters)
    as [(err & -> & _)|[[-> _]|[[-> _]|[(url' & err & _ & _ & ->)
        |[(url' & _ & _ & _ & _ & ->)|(url' & req & _ & _ & ->)]]]]];
    simpl; lia.
Qed.

(** X2: A nil error means success: the call then returns a response, that
    response is the one the transport gave for the single request sent, and
    its status code lies in 200..226. *)
Theorem nil_error_means_success `{Env} (v : Verb) (rawurl : string)
        (setters : list Option) (r : option Response) :
  ended (verb_call v rawurl setters) = Returned r None ->
  exists req rsp0,
    sent (verb_call v rawurl setters) = [req] /\
    client_Do (new_client (parseOptions setters)) req = (Some rsp0, None) /\
    r = Some {| rsp := rsp0 |} /\
    200 <= http.StatusCode rsp0 <= 226.
Proof.
  destruct (verb_call_outcome v rawurl setters)
    as [(err & -> & _)|[[-> _]|[[-> _]|[(url' & err & _ & _ & ->)
        |[(url' & _ & _ & _ & _ & ->)|(url' & req & _ & _ & ->)]]]]];
    simpl; try discriminate.
  destruct (client_Do _ req) as [[rsp0|] [err|]] eqn:Edo; simpl; try discriminate.
  unfold success_status, http.StatusOK, http.StatusIMUsed.
  destruct (Z.leb_spec 200 (http.StatusCode rsp0)),
    (Z.leb_spec (http.StatusCode rsp0) 226); simpl; try discriminate.
  intros [= <-]. exists req, rsp0. repeat split; try done; lia.
Qed.

Lemma nil_error_means_success_witness :
  exists req rsp0,
    sent (@verb_call (Sample.server Sample.created) PUT "http://example.com/items/1"
            [Data (Some Sample.greeting)]) = [req] /\
    @client_Do (Sample.server Sample.created)
       (new_client (parseOptions [Data (Some Sample.greeting)])) req
    = (Some rsp0, None) /\
    Some {| rsp := Sample.created |} = Some {| rsp := rsp0 |} /\
    200 <= http.StatusCode rsp0 <= 226.
Proof.
  apply (@nil_error_means_success (Sample.server Sample.created) PUT
           "http://example.com/items/1" [Data (Some Sample.greeting)]).
  reflexivity.
Defined.

(** X3: A response that comes with an error is a status failure: a request was
    sent, the transport answered it with that response and no error, the
    status code lies outside 200..226 and the error is the status line. *)
Theorem response_with_error_is_status_failure `{Env} (v : Verb) (rawurl : string)
        (setters : list Option) (r : Response) (err : error) :
  ended (verb_call v rawurl setters) = Returned (Some r) (Some err) ->
  exists req,
    sent (verb_call v rawurl setters) = [req] /\
    client_Do (new_client (parseOptions setters)) req = (Some (rsp r), None) /\
    (http.StatusCode (rsp r) < 200 \/ 226 < http.StatusCode (rsp r)) /\
    err = errors_New (http.Status (rsp r)).
Proof.
  destruct (verb_call_outcome v rawurl setters)
    as [(e & -> & _)|[[-> _]|[[-> _]|[(url' & e & _ & _ & ->)
        |[(url' & _ & _ & _ & _ & ->)|(url' & req & _ & _ & ->)]]]]];
    simpl; try discriminate.
  destruct (client_Do _ req) as [[rsp0|] [e|]] eqn:Edo; simpl; try discriminate.
  unfold success_status, http.StatusOK, http.StatusIMUsed.
  destruct (Z.leb_spec 200 (http.StatusCode rsp0)),
    (Z.leb_spec (http.StatusCode rsp0) 226); simpl; try discriminate;
    intros [= <- <-]; exists req; simpl; repeat split; try done; lia.
Qed.

Lemma response_with_error_is_status_failure_witness :
  exists req,
    sent (@verb_call (Sample.server Sample.not_found) DELETE "http://example.com/items/9" [])
    = [req] /\
    @client_Do (Sample.server Sample.not_found)
       (new_client (parseOptions [])) req
    = (Some Sample.not_found, None) /\
    (http.StatusCode Sample.not_found < 200 \/ 226 < http.StatusCode Sample.not_found) /\
    errors_New "404 Not Found" = errors_New (http.Status Sample.not_found).
Proof.
  apply (@response_with_error_is_status_failure (Sample.server Sample.not_found) DELETE
           "http://example.com/items/9" [] {| rsp := Sample.not_found |}
           (errors_New "404 Not Found")).
  reflexivity.
Defined.

(** X4: When the transport gives neither a response nor an error, the call
    returns a nil response and the error [response is nil]. *)
Theorem nil_response_is_an_error `{Env} (v : Verb) (rawurl : string)
        (setters : list Option) (req : http.Request) :
  req ∈ sent (verb_call v rawurl setters) ->
  client_Do (new_client (parseOptions setters)) req = (None, None) ->
  ended (verb_call v rawurl setters)
  = Returned None (Some (errors_New "response is nil")).
Proof.
  intros Hin Hdo.
  destruct (verb_call_ended v rawurl setters req Hin) as [_ ->].
  by rewrite Hdo.
Qed.

Lemma nil_response_is_an_error_witness :
  let E := {| client_Do := fun _ _ => (None, None);
              url_Parse := fun _ => None;
              randomBoundary := "7d1e3c";
              randomBoundary_hex := eq_refl;
              range_order := fun V m => map_to_list m;
              range_order_perm := fun V m => reflexivity (map_to_list m) |} in
  ended (@verb_call E GET "http://example.com/" [])
  = Returned None (Some (errors_New "response is nil")).
Proof.
  intros E.
  apply (@nil_response_is_an_error E GET "http://example.com/" []
           {| http.Method := "GET"; http.URL := "http://example.com/";
              http.Header := ∅; http.Body := None |}).
  - vm_compute. left.
  - reflexivity.
Defined.

(** X5: The package's own statements panic in two cases only: an encoder
    writes Content-Type into a nil headers map, or no encoder is selected
    and the caller's own [Body] is an interface value around a nil
    [*strings.Reader], [*bytes.Buffer] or [*bytes.Reader], the three types
    whose length [http.NewRequest] reads; a reader of any other type goes
    through.  The readers the encoders build never make
    [http.NewRequest] fault.
    The environment is taken to return: the payload's formatting and
    marshalling, the transport and the file handles of the [Files] mapping
    (non-nil [*os.File] values, as [File] has them) do not panic
    themselves. *)
Theorem panics_only_on_nil `{Env} (v : Verb) (rawurl : string)
        (setters : list Option) (msg : string) :
  ended (verb_call v rawurl setters) = Panicked msg ->
  let opts := parseOptions setters in
  sent (verb_call v rawurl setters) = [] /\
  ((msg = nil_map_write /\ writes_content_type (selected v opts) = true /\
    Options.Headers opts = None) \/
   (msg = nil_dereference /\ selected v opts = enc_none /\
    typed_nil (Options.Body opts) = true)).
Proof.
  intros Hend opts. revert Hend.
  destruct (verb_call_outcome v rawurl setters)
    as [(err & -> & _)|[[-> Hp]|[[-> _]|[(url' & err & _ & _ & ->)
        |[(url' & _ & _ & He & Hn & ->)|(url' & req & _ & _ & ->)]]]]];
    simpl; try discriminate.
  - intros [= <-]. split; [done|]. by left.
  - intros [= <-]. split; [done|]. by right.
  - destruct (client_Do _ req) as [[rsp0|] [err|]]; simpl; try discriminate.
    by destruct (success_status _).
Qed.

Lemma panics_only_on_nil_witness :
  let setters := [Body (Some (strings_Reader None))] in
  sent (@verb_call (Sample.server Sample.ok) GET "http://example.com/" setters) = [] /\
  ((nil_dereference = nil_map_write /\
    writes_content_type (selected GET (parseOptions setters)) = true /\
    Options.Headers (parseOptions setters) = None) \/
   (nil_dereference = nil_dereference /\ selected GET (parseOptions setters) = enc_none /\
    typed_nil (Options.Body (parseOptions setters)) = true)).
Proof.
  intros setters.
  apply (@panics_only_on_nil (Sample.server Sample.ok) GET "http://example.com/" setters
           nil_dereference).
  reflexivity.
Defined.

(** X6: Every error a verb call returns is one of seven: the params conflict,
    the marshalling error of the JSON payload, the reading error of a file,
    the error of [url.Parse] on the merged URL, the transport's error, the
    [response is nil] error, or the status line of the response returned
    with it.  The response is nil in all cases but the last. *)
Theorem every_error_has_a_source `{Env} (v : Verb) (rawurl : string)
        (setters : list Option) (r : option Response) (err : error) :
  ended (verb_call v rawurl setters) = Returned r (Some err) ->
  let opts := parseOptions setters in
  (r = None /\
   (err = err_params \/
    marshal_error opts err \/
    stream_error opts err \/
    (exists url', merge_params (Options.Params opts) rawurl = inl url' /\
                  url_Parse url' = Some err) \/
    (exists req answer, sent (verb_call v rawurl setters) = [req] /\
                        client_Do (new_client opts) req = (answer, Some err)) \/
    err = errors_New "response is nil")) \/
  (exists rsp0, r = Some {| rsp := rsp0 |} /\ err = errors_New (http.Status rsp0)).
Proof.
  intros Hend opts. revert Hend.
  destruct (verb_call_outcome v rawurl setters)
    as [(e & -> & He)|[[-> _]|[[-> _]|[(url' & e & Hm & Hu & ->)
        |[(url' & _ & _ & _ & _ & ->)|(url' & req & _ & _ & ->)]]]]];
    simpl; try discriminate.
  - intros [= <- <-]. left. split; [done|].
    destruct He as [[_ He]|[_ He]]; auto.
  - intros [= <- <-]. left. split; [done|]. by left.
  - intros [= <- <-]. left. split; [done|]. do 3 right. left. by exists url'.
  - destruct (client_Do _ req) as [[rsp0|] [e|]] eqn:Edo; simpl.
    + intros [= <- <-]. left. split; [done|]. do 4 right. left. by exists req, (Some rsp0).
    + destruct (success_status _); [discriminate|].
      intros [= <- <-]. right. by exists rsp0.
    + intros [= <- <-]. left. split; [done|]. do 4 right. left. by exists req, None.
    + intros [= <- <-]. left. split; [done|]. by do 5 right.
Qed.

Lemma every_error_has_a_source_witness :
  let opts := parseOptions [] in
  (@None Response = None /\
   (Sample.refused = err_params \/
    marshal_error opts Sample.refused \/
    stream_error opts Sample.refused \/
    (exists url', @merge_params Sample.unreachable (Options.Params opts)
                    "http://127.0.0.1:1/" = inl url' /\
                  @url_Parse Sample.unreachable url' = Some Sample.refused) \/
    (exists req answer,
       sent (@verb_call Sample.unreachable GET "http://127.0.0.1:1/" []) = [req] /\
       @client_Do Sample.unreachable (new_client opts) req = (answer, Some Sample.refused)) \/
    Sample.refused = errors_New "response is nil")) \/
  (exists rsp0, @None Response = Some {| rsp := rsp0 |} /\
                Sample.refused = errors_New (http.Status rsp0)).
Proof.
  intros opts.
  apply (@every_error_has_a_source Sample.unreachable GET "http://127.0.0.1:1/" []
           None Sample.refused).
  reflexivity.
Defined.

(** X7: A call whose encoder runs to its end, whose merged URL parses and whose
    body is not a typed nil does submit its request. *)
Theorem request_is_submitted `{Env} (v : Verb) (rawurl url' : string)
        (setters : list Option) :
  let opts := parseOptions setters in
  encoder_completes v opts ->
  merge_params (Options.Params opts) rawurl = inl url' ->
  url_Parse url' = None ->
  typed_nil (Options.Body opts) = false ->
  exists req, sent (verb_call v rawurl setters) = [req] /\ http.URL req = url'.
Proof.
  intros opts Hcomp Hm Hu Hn. subst opts. unfold encoder_completes in Hcomp.
  destruct (verb_call_outcome v rawurl setters)
    as [(e & _ & He)|[(_ & Hw & Hh)|[[_ Hm']|[(u & e & Hm' & Hu' & _)
        |[(u & _ & _ & _ & Hn' & _)|(u & req & Hm' & _ & Hc)]]]]].
  - destruct He as [[He Herr]|[He Herr]]; rewrite He in Hcomp;
      destruct Hcomp as [_ Hno]; destruct Hno; eauto.
  - destruct (selected v (parseOptions setters)); try done; simpl in Hcomp; tauto.
  - congruence.
  - congruence.
  - congruence.
  - exists req. rewrite Hc. split; [done|].
    assert (req ∈ sent (verb_call v rawurl setters)) as Hin by (rewrite Hc; left).
    destruct (verb_call_cases v rawurl setters) as [(extra & Hex & Hv)|[Hs _]];
      [|rewrite Hs in Hin; inversion Hin].
    rewrite Hv in Hin. apply request_sent in Hin as (u' & _ & Hmu & _ & -> & _).
    rewrite parseOptions_app in Hmu.
    destruct (encoder_settings_keep extra Hex (parseOptions setters)) as (Hp & _).
    rewrite Hp in Hmu. congruence.
Qed.

Lemma request_is_submitted_witness :
  exists req,
    sent (@verb_call (Sample.server Sample.ok) PATCH "http://example.com/items/1"
            [Headers (Some ∅); JSON (Some Sample.greeting);
             Params (Some {[ "dry" := "1" ]})]) = [req] /\
    http.URL req = "http://example.com/items/1?dry=1".
Proof.
  apply (@request_is_submitted (Sample.server Sample.ok) PATCH
           "http://example.com/items/1" "http://example.com/items/1?dry=1"
           [Headers (Some ∅); JSON (Some Sample.greeting);
            Params (Some {[ "dry" := "1" ]})]).
  - split; [done|]. intros (err & j & Hj & Hm). injection Hj as <-. discriminate Hm.
  - reflexivity.
  - reflexivity.
  - reflexivity.
Defined.

(** X8: A merged URL that [url.Parse] rejects: the call returns that error and
    a nil response, and nothing is sent. *)
Theorem invalid_url_is_reported `{Env} (v : Verb) (rawurl url' : string)
        (setters : list Option) (err : error) :
  let opts := parseOptions setters in
  encoder_completes v opts ->
  merge_params (Options.Params opts) rawurl = inl url' ->
  url_Parse url' = Some err ->
  verb_call v rawurl setters = {| sent := []; ended := Returned None (Some err) |}.
Proof.
  intros opts Hcomp Hm Hu. subst opts. unfold encoder_completes in Hcomp.
  destruct (verb_call_outcome v rawurl setters)
    as [(e & _ & He)|[(_ & Hw & Hh)|[[_ Hm']|[(u & e & Hm' & Hu' & Hc)
        |[(u & Hm' & Hu' & _)|(u & req & Hm' & Hu' & _)]]]]].
  - destruct He as [[He Herr]|[He Herr]]; rewrite He in Hcomp;
      destruct Hcomp as [_ Hno]; destruct Hno; eauto.
  - destruct (selected v (parseOptions setters)); try done; simpl in Hcomp; tauto.
  - congruence.
  - rewrite Hc. unfold ret. congruence.
  - congruence.
  - congruence.
Qed.

Lemma invalid_url_is_reported_witness :
  let bad := lib_error "net/url" "parse: net/url: invalid control character in URL" in
  let E := {| client_Do := fun _ _ => (Some Sample.ok, None);
              url_Parse := fun u => if has_byte LF u then Some bad else None;
              randomBoundary := "7d1e3c";
              randomBoundary_hex := eq_refl;
              range_order := fun V m => map_to_list m;
              range_order_perm := fun V m => reflexivity (map_to_list m) |} in
  @verb_call E POST (String LF "http://example.com/") [Data (Some Sample.greeting)]
  = {| sent := []; ended := Returned None (Some bad) |}.
Proof.
  intros bad E.
  apply (@invalid_url_is_reported E POST (String LF "http://example.com/")
           (String LF "http://example.com/") [Data (Some Sample.greeting)] bad).
  - exact I.
  - reflexivity.
  - reflexivity.
Defined.

(** X9: The order in which the runtime visits a map does not show in the query
    string or in the form body: two environments build the same merged URL
    and the same values. *)
Theorem query_independent_of_map_order (E1 E2 : Env) (params : option (gmap string string))
        (form : gmap string string) (rawurl : string) :
  @merge_params E1 params rawurl = @merge_params E2 params rawurl /\
  Values_Encode (@add_all E1 form) = Values_Encode (@add_all E2 form).
Proof.
  split; [|by rewrite !add_all_values_of].
  unfold merge_params. destruct params as [m|]; [|done].
  by rewrite !add_all_values_of.
Qed.

(** ** The request a verb call submits *)

Section wire.

Context `{Env}.

Lemma Content_Type_canonical : CanonicalMIMEHeaderKey "Content-Type" = "Content-Type".
Proof. reflexivity. Qed.

(** The shape of every request a verb call submits. *)
Lemma verb_call_sent (v : Verb) (rawurl : string) (setters : list Option)
      (req : http.Request) :
  req ∈ sent (verb_call v rawurl setters) ->
  let opts := parseOptions setters in
  exists extra url',
    encoded_as (selected v opts) opts extra /\
    merge_params (Options.Params opts) rawurl = inl url' /\
    let opts' := parseOptions (setters ++ extra) in
    let req0 := {| http.Method := method_of v; http.URL := url';
                   http.Header := ∅; http.Body := Options.Body opts' |} in
    req = (if decide (authType (Options.Auth opts) = HTTPBasicAuth)
           then http.SetBasicAuth (fill_headers req0 (Options.Headers opts'))
                  (username (Options.Auth opts)) (password (Options.Auth opts))
           else fill_headers req0 (Options.Headers opts')).
Proof.
  intros Hin opts.
  destruct (verb_call_encoded v rawurl setters)
    as [(err & Hc & _)|[(Hc & _)|(extra & Hc & Hen)]];
    [rewrite Hc in Hin; inversion Hin..|].
  fold opts in Hen. exists extra.
  pose proof (encoded_as_settings _ _ _ Hen) as Hex.
  destruct (encoder_settings_keep extra Hex opts) as (Hp & Ha & _).
  rewrite Hc in Hin.
  apply request_sent in Hin as (url' & req0 & Hm & Hnew & _ & _ & Hreq).
  rewrite parseOptions_app in Hm, Hreq. fold opts in Hm, Hreq.
  rewrite Hp in Hm. rewrite Ha in Hreq.
  exists url'. split; [done|]. split; [done|].
  rewrite http_NewRequest_verb in Hnew.
  destruct (url_Parse url'); [discriminate|].
  destruct (typed_nil _); [discriminate|].
  injection Hnew as <-. rewrite ?parseOptions_app in Hreq.
  rewrite !parseOptions_app. exact Hreq.
Qed.

Lemma encoded_as_headers (e : Encoder) (setters extra : list Option) :
  encoded_as e (parseOptions setters) extra ->
  Options.Headers (parseOptions (setters ++ extra))
  = match content_type_of e with
    | Some ct => (fun h => <["Content-Type" := ct]> h) <$> Options.Headers (parseOptions setters)
    | None => Options.Headers (parseOptions setters)
    end.
Proof.
  intros Hen. rewrite parseOptions_app. destruct e; simpl in *.
  - by destruct Hen as (d & _ & ->).
  - destruct Hen as (h & f & -> & _ & ->). done.
  - destruct Hen as (h & j & b & -> & _ & _ & ->). done.
  - destruct Hen as (h & files & -> & _ & _ & ->). done.
  - by subst extra.
Qed.

Lemma fold_SetHeader_inv (l : list (string * string)) (req : http.Request)
      (K : string) (vs : list string) :
  http.Header (foldl (fun req '(k, v) => http.SetHeader req k v) req l) !! K = Some vs ->
  http.Header req !! K = Some vs \/
  exists k v, (k, v) ∈ l /\ CanonicalMIMEHeaderKey k = K /\ vs = [v].
Proof.
  revert req. induction l as [|[k v] l IH]; intros req; simpl; [auto|].
  intros [Hl|(k' & v' & Hin & Hk & Hv)]%IH.
  - simpl in Hl. unfold Header_Set in Hl.
    destruct (decide (CanonicalMIMEHeaderKey k = K)) as [<-|Hne].
    + rewrite lookup_insert_eq in Hl. injection Hl as <-.
      right. exists k, v. split; [left|done].
    + rewrite lookup_insert_ne in Hl by done. by left.
  - right. exists k', v'. split; [by right|done].
Qed.

(** The header map of a submitted request under one canonical key. *)
Lemma sent_header_inv (v : Verb) (rawurl : string) (setters : list Option)
      (req : http.Request) (K : string) (vs : list string) :
  req ∈ sent (verb_call v rawurl setters) ->
  http.Header req !! K = Some vs ->
  let opts := parseOptions setters in
  (K = "Authorization" /\ authType (Options.Auth opts) = HTTPBasicAuth /\
   vs = ["Basic " ++ base64_EncodeToString
                       (username (Options.Auth opts) ++ ":" ++ password (Options.Auth opts))]) \/
  (K = "Content-Type" /\ content_type_of (selected v opts) = Some (default "" (head vs)) /\
   length vs = 1%nat) \/
  (exists headers k val,
     Options.Headers opts = Some headers /\ headers !! k = Some val /\
     CanonicalMIMEHeaderKey k = K /\ vs = [val]).
Proof.
  intros Hin Hl opts.
  destruct (verb_call_sent v rawurl setters req Hin) as (extra & url' & Hen & _ & Hreq).
  fold opts in Hen. cbv zeta in Hreq.
  rewrite (encoded_as_headers _ _ _ Hen) in Hreq. fold opts in Hreq.
  assert (forall req0 : http.Request,
            http.Header req0 = ∅ ->
            http.Header (fill_headers req0
              match content_type_of (selected v opts) with
              | Some ct => (fun h => <["Content-Type" := ct]> h) <$> Options.Headers opts
              | None => Options.Headers opts
              end) !! K = Some vs ->
            (K = "Content-Type" /\
             content_type_of (selected v opts) = Some (default "" (head vs)) /\
             length vs = 1%nat) \/
            (exists headers k val,
               Options.Headers opts = Some headers /\ headers !! k = Some val /\
               CanonicalMIMEHeaderKey k = K /\ vs = [val])) as Hfill.
  { intros req0 Hempty Hf.
    destruct (Options.Headers opts) as [headers|] eqn:Eh.
    - destruct (content_type_of (selected v opts)) as [ct|] eqn:Ect; simpl in Hf.
      + apply fold_SetHeader_inv in Hf as [Hf|(k & val & Hkv & Hk & ->)].
        { rewrite Hempty, lookup_empty in Hf. discriminate. }
        apply elem_of_range_order in Hkv.
        destruct (decide (k = "Content-Type")) as [->|Hne].
        * rewrite lookup_insert_eq in Hkv. injection Hkv as <-.
          left. rewrite <- Hk. done.
        * rewrite lookup_insert_ne in Hkv by done. right. by exists headers, k, val.
      + apply fold_SetHeader_inv in Hf as [Hf|(k & val & Hkv & Hk & ->)].
        { rewrite Hempty, lookup_empty in Hf. discriminate. }
        apply elem_of_range_order in Hkv. right. by exists headers, k, val.
    - destruct (content_type_of (selected v opts)); simpl in Hf;
        rewrite Hempty, lookup_empty in Hf; discriminate. }
  subst req. destruct (decide (authType (Options.Auth opts) = HTTPBasicAuth)) as [Hb|Hb].
  - simpl in Hl. unfold Header_Set in Hl. rewrite Authorization_canonical in Hl.
    destruct (decide (K = "Authorization")) as [->|Hne].
    + rewrite lookup_insert_eq in Hl. injection Hl as <-. by left.
    + rewrite lookup_insert_ne in Hl by done. right.
      eapply Hfill; [|exact Hl]. reflexivity.
  - right. eapply Hfill; [|exact Hl]. reflexivity.
Qed.

End wire.

Section wire_headers.

Context `{Env}.

(** The header a submitted request carries under a canonical key that
    exactly one entry of the dispatched headers mapping falls under. *)
Lemma sent_header_of (v : Verb) (rawurl : string) (setters : list Option)
      (req : http.Request) (hd : gmap string string) (K k0 v0 : string) :
  req ∈ sent (verb_call v rawurl setters) ->
  let opts := parseOptions setters in
  match content_type_of (selected v opts) with
  | Some ct => (fun h => <["Content-Type" := ct]> h) <$> Options.Headers opts
  | None => Options.Headers opts
  end = Some hd ->
  hd !! k0 = Some v0 ->
  CanonicalMIMEHeaderKey k0 = K ->
  (forall k, is_Some (hd !! k) -> CanonicalMIMEHeaderKey k = K -> k = k0) ->
  K <> "Authorization" \/ authType (Options.Auth opts) <> HTTPBasicAuth ->
  http.Header req !! K = Some [v0].
Proof.
  intros Hin opts Hhd Hl HK Huniq Hauth.
  destruct (verb_call_sent v rawurl setters req Hin) as (extra & url' & Hen & _ & Hreq).
  fold opts in Hen. cbv zeta in Hreq.
  rewrite (encoded_as_headers _ _ _ Hen) in Hreq. fold opts in Hreq.
  rewrite Hhd in Hreq.
  match type of Hreq with context [fill_headers ?r (Some hd)] =>
    assert (http.Header (fill_headers r (Some hd)) !! K = Some [v0]) as Hfill end.
  { simpl. apply (fold_SetHeader_lookup _ _ K k0 v0); [done| |].
    - left. by apply elem_of_range_order.
    - intros k val Hkv%elem_of_range_order Hc.
      assert (k = k0) as -> by (apply Huniq; [eauto|done]).
      split; [done|congruence]. }
  subst req. destruct (decide _) as [Hb|Hb]; [|done].
  destruct Hauth as [Hne|Hnb]; [|done].
  simpl. unfold Header_Set. rewrite Authorization_canonical.
  by rewrite lookup_insert_ne.
Qed.

End wire_headers.

(** X10: Every request a verb call submits carries the method of the verb. *)
Theorem method_of_every_request `{Env} (v : Verb) (rawurl : string)
        (setters : list Option) (req : http.Request) :
  req ∈ sent (verb_call v rawurl setters) ->
  http.Method req = method_of v.
Proof.
  intros Hin.
  destruct (verb_call_sent v rawurl setters req Hin) as (extra & url' & _ & _ & ->).
  cbv zeta.
  match goal with |- context [fill_headers ?r ?h] =>
    destruct (fill_headers_keeps r h) as (Hm & _) end.
  destruct (decide _); simpl; by rewrite Hm.
Qed.

Lemma method_of_every_request_witness :
  http.Method {| http.Method := "DELETE"; http.URL := "http://example.com/items/1";
                 http.Header := ∅;
                 http.Body := Some (strings_Reader (Some "map[msg:hi]")) |}
  = method_of DELETE.
Proof.
  apply (@method_of_every_request (Sample.server Sample.ok) DELETE
           "http://example.com/items/1" [Data (Some Sample.greeting)]).
  vm_compute. left.
Defined.

(** X11: The text every submitted request is built from, the URL argument
    of [http.NewRequest]: with nil or empty params it is the caller's URL
    as given; with non-empty params the caller's URL held no [?] and the
    text is that URL followed by [?] and the encoded parameters, for every
    verb and every encoder.  The request itself holds what [url.Parse]
    makes of this text. *)
Theorem url_of_every_request `{Env} (v : Verb) (rawurl : string)
        (setters : list Option) (req : http.Request) :
  req ∈ sent (verb_call v rawurl setters) ->
  let opts := parseOptions setters in
  (Options.Params opts = None -> http.URL req = rawurl) /\
  (forall params, Options.Params opts = Some params ->
     (size params = 0%nat -> http.URL req = rawurl) /\
     (size params <> 0%nat ->
      strings_Contains rawurl "?" = false /\
      http.URL req = (rawurl ++ "?" ++ Values_Encode (values_of params))%string)).
Proof.
  intros Hin opts.
  destruct (verb_call_sent v rawurl setters req Hin) as (extra & url' & _ & Hm & Hreq).
  fold opts in Hm. cbv zeta in Hreq.
  assert (http.URL req = url') as ->.
  { subst req.
    match goal with |- context [fill_headers ?r ?h] =>
      destruct (fill_headers_keeps r h) as (_ & Hu & _) end.
    destruct (decide _); simpl; by rewrite Hu. }
  apply merge_params_inl in Hm
    as [[-> Hcase]|(m & Hp & Hsize & Hq & ->)].
  - split; [done|]. intros params Hp. split; [done|]. intros Hsize.
    destruct Hcase as [Hn|(m & Hm' & Hz)]; congruence.
  - split; [congruence|]. intros params Hp'.
    assert (params = m) as -> by congruence. split; [done|]. done.
Qed.

Lemma url_of_every_request_witness :
  let opts := parseOptions [Params (Some ∅)] in
  let req := {| http.Method := "GET"; http.URL := "http://example.com/search?q=go";
                http.Header := ∅; http.Body := None |} in
  (Options.Params opts = None -> http.URL req = "http://example.com/search?q=go") /\
  (forall params, Options.Params opts = Some params ->
     (size params = 0%nat -> http.URL req = "http://example.com/search?q=go") /\
     (size params <> 0%nat ->
      strings_Contains "http://example.com/search?q=go" "?" = false /\
      http.URL req
      = ("http://example.com/search?q=go" ++ "?" ++ Values_Encode (values_of params))%string)).
Proof.
  intros opts req.
  apply (@url_of_every_request (Sample.server Sample.ok) GET
           "http://example.com/search?q=go" [Params (Some ∅)] req).
  vm_compute. left.
Defined.

Section wire_body.

Context `{Env}.

Lemma sent_body (v : Verb) (rawurl : string) (setters : list Option)
      (req : http.Request) :
  req ∈ sent (verb_call v rawurl setters) ->
  exists extra,
    encoded_as (selected v (parseOptions setters)) (parseOptions setters) extra /\
    http.Body req = Options.Body (parseOptions (setters ++ extra)).
Proof.
  intros Hin.
  destruct (verb_call_sent v rawurl setters req Hin) as (extra & url' & Hen & _ & ->).
  exists extra. split; [done|]. cbv zeta.
  match goal with |- context [fill_headers ?r ?h] =>
    destruct (fill_headers_keeps r h) as (_ & _ & Hb) end.
  destruct (decide _); simpl; by rewrite Hb.
Qed.

Lemma not_content_type_written (e : Encoder) :
  writes_content_type e = false -> content_type_of e = None.
Proof. by destruct e. Qed.

Lemma no_panic_of_data (v : Verb) (rawurl : string) (setters : list Option) (msg : string) :
  selected v (parseOptions setters) = enc_data ->
  ended (verb_call v rawurl setters) <> Panicked msg.
Proof.
  intros Hsel.
  destruct (verb_call_outcome v rawurl setters)
    as [(err & -> & _)|[[_ [Hw _]]|[[-> _]|[(url' & err & _ & _ & ->)
        |[(url' & _ & _ & He & _)|(url' & req & _ & _ & ->)]]]]];
    simpl; try discriminate.
  - by rewrite Hsel in Hw.
  - by rewrite Hsel in He.
  - destruct (client_Do _ req) as [[rsp0|] [err|]]; simpl; try discriminate.
    by destruct (success_status _).
Qed.

End wire_body.

(** X12: A call for which no encoder is selected ([Get] always; any verb
    without payload; [Put], [Patch] and [Delete] with only files) sends the
    reader of the caller's own [Body] setting, or no body when there is
    none, and the package writes no Content-Type. *)
Theorem no_encoder_sends_callers_body `{Env} (v : Verb) (rawurl : string)
        (setters : list Option) (req : http.Request) :
  selected v (parseOptions setters) = enc_none ->
  req ∈ sent (verb_call v rawurl setters) ->
  http.Body req = Options.Body (parseOptions setters) /\
  ((forall headers k, Options.Headers (parseOptions setters) = Some headers ->
      is_Some (headers !! k) -> CanonicalMIMEHeaderKey k <> "Content-Type") ->
   http.Header req !! "Content-Type" = None).
Proof.
  intros Hsel Hin. split.
  - destruct (sent_body v rawurl setters req Hin) as (extra & Hen & ->).
    rewrite Hsel in Hen. simpl in Hen. subst extra. by rewrite app_nil_r.
  - intros Hno. destruct (http.Header req !! "Content-Type") as [vs|] eqn:El; [|done].
    destruct (sent_header_inv v rawurl setters req _ vs Hin El)
      as [(Hk & _)|[(_ & Hct & _)|(h & k & val & Hh & Hl & Hk & _)]].
    + discriminate.
    + rewrite Hsel in Hct. discriminate.
    + destruct (Hno h k Hh); eauto.
Qed.

Lemma no_encoder_sends_callers_body_witness :
  let req := {| http.Method := "GET"; http.URL := "http://example.com/";
                http.Header := ∅; http.Body := None |} in
  let setters := [JSON (Some Sample.channel); Form (Some {[ "a" := "b" ]})] in
  http.Body req = Options.Body (parseOptions setters) /\
  ((forall headers k, Options.Headers (parseOptions setters) = Some headers ->
      is_Some (headers !! k) -> CanonicalMIMEHeaderKey k <> "Content-Type") ->
   http.Header req !! "Content-Type" = None).
Proof.
  intros req setters.
  apply (@no_encoder_sends_callers_body (Sample.server Sample.ok) GET
           "http://example.com/" setters req).
  - reflexivity.
  - vm_compute. left.
Defined.

(** X13: The data payload comes first for every body-carrying verb: whatever
    form, json or files are set, the body is the payload formatted with
    [%v]; the package writes no Content-Type for it; and the call does not
    panic, with or without a [Headers] setting. *)
Theorem data_encoder `{Env} (v : Verb) (rawurl : string) (setters : list Option)
        (d : any) :
  v <> GET ->
  Options.Data (parseOptions setters) = Some d ->
  (forall msg, ended (verb_call v rawurl setters) <> Panicked msg) /\
  (forall req, req ∈ sent (verb_call v rawurl setters) ->
     http.Body req = Some (strings_Reader (Some (fmt_Sprint d))) /\
     ((forall headers k, Options.Headers (parseOptions setters) = Some headers ->
         is_Some (headers !! k) -> CanonicalMIMEHeaderKey k <> "Content-Type") ->
      http.Header req !! "Content-Type" = None)).
Proof.
  intros Hv Hd.
  assert (selected v (parseOptions setters) = enc_data) as Hsel.
  { apply selected_data; [done|]. by rewrite Hd. }
  split; [intros msg; by apply no_panic_of_data|].
  intros req Hin. split.
  - destruct (sent_body v rawurl setters req Hin) as (extra & Hen & ->).
    rewrite Hsel in Hen. destruct Hen as (d' & Hd' & ->).
    rewrite parseOptions_app. simpl. congruence.
  - intros Hno. destruct (http.Header req !! "Content-Type") as [vs|] eqn:El; [|done].
    destruct (sent_header_inv v rawurl setters req _ vs Hin El)
      as [(Hk & _)|[(_ & Hct & _)|(h & k & val & Hh & Hl & Hk & _)]].
    + discriminate.
    + rewrite Hsel in Hct. discriminate.
    + destruct (Hno h k Hh); eauto.
Qed.

Lemma data_encoder_witness :
  let E := Sample.server Sample.ok in
  let setters := [Data (Some Sample.greeting); Form (Some {[ "a" := "b" ]});
                  JSON (Some Sample.channel)] in
  (forall msg, ended (@verb_call E POST "http://example.com/" setters) <> Panicked msg) /\
  (forall req, req ∈ sent (@verb_call E POST "http://example.com/" setters) ->
     http.Body req = Some (strings_Reader (Some "map[msg:hi]")) /\
     ((forall headers k, Options.Headers (parseOptions setters) = Some headers ->
         is_Some (headers !! k) -> CanonicalMIMEHeaderKey k <> "Content-Type") ->
      http.Header req !! "Content-Type" = None)).
Proof.
  intros E setters.
  apply (@data_encoder E POST "http://example.com/" setters Sample.greeting).
  - discriminate.
  - reflexivity.
Defined.

(** X14: The json encoder on the wire, for every body-carrying verb: the body
    is the marshalled payload and, when the caller's headers hold no other
    spelling of Content-Type, the request says application/json. *)
Theorem json_encoder `{Env} (v : Verb) (rawurl : string) (setters : list Option)
        (j : any) (b : string) (req : http.Request) :
  v <> GET ->
  Options.Data (parseOptions setters) = None ->
  Options.Form (parseOptions setters) = None ->
  Options.JSON (parseOptions setters) = Some j ->
  json_Marshal j = inl b ->
  req ∈ sent (verb_call v rawurl setters) ->
  http.Body req = Some (bytes_Buffer (Some b)) /\
  (forall headers, Options.Headers (parseOptions setters) = Some headers ->
     (forall k, is_Some (headers !! k) ->
                CanonicalMIMEHeaderKey k = "Content-Type" -> k = "Content-Type") ->
     http.Header req !! "Content-Type" = Some ["application/json"]).
Proof.
  intros Hv Hd Hf Hj Hm Hin.
  assert (selected v (parseOptions setters) = enc_json) as Hsel.
  { apply selected_json; try done. by rewrite Hj. }
  split.
  - destruct (sent_body v rawurl setters req Hin) as (extra & Hen & ->).
    rewrite Hsel in Hen. destruct Hen as (h & j' & b' & _ & Hj' & Hm' & ->).
    rewrite parseOptions_app. simpl. congruence.
  - intros headers Hh Huniq.
    apply (sent_header_of v rawurl setters req
             (<["Content-Type" := "application/json"]> headers)
             "Content-Type" "Content-Type" "application/json" Hin).
    + by rewrite Hsel, Hh.
    + apply lookup_insert_eq.
    + reflexivity.
    + intros k Hk Hc. destruct (decide (k = "Content-Type")) as [->|Hne]; [done|].
      rewrite lookup_insert_ne in Hk by done. by apply Huniq.
    + by left.
Qed.

Lemma json_encoder_witness :
  let req :=
    {| http.Method := "PUT"; http.URL := "http://example.com/items/1";
       http.Header := {[ "Content-Type" := ["application/json"] ]};
       http.Body := Some (bytes_Buffer (Some ("{" ++ String DQUOTE "msg" ++ String DQUOTE ":"
                            ++ String DQUOTE "hi" ++ String DQUOTE "}")%string)) |} in
  http.Body req
  = Some (bytes_Buffer (Some ("{" ++ String DQUOTE "msg" ++ String DQUOTE ":"
                            ++ String DQUOTE "hi" ++ String DQUOTE "}")%string)) /\
  (forall headers,
     Options.Headers (parseOptions [Headers (Some ∅); JSON (Some Sample.greeting)])
     = Some headers ->
     (forall k, is_Some (headers !! k) ->
                CanonicalMIMEHeaderKey k = "Content-Type" -> k = "Content-Type") ->
     http.Header req !! "Content-Type" = Some ["application/json"]).
Proof.
  intros req.
  apply (@json_encoder (Sample.server Sample.ok) PUT "http://example.com/items/1"
           [Headers (Some ∅); JSON (Some Sample.greeting)] Sample.greeting).
  - discriminate.
  - reflexivity.
  - reflexivity.
  - reflexivity.
  - reflexivity.
  - vm_compute. left.
Defined.

(** X15: The files encoder announces the boundary it has used: the
    Content-Type of a submitted multipart request names the boundary that
    delimits its body (unquoted when the boundary holds none of the special
    bytes), provided the caller's headers hold no other spelling of
    Content-Type; the body is a message of as many parts as the mapping has
    entries, framed with that boundary. *)
Theorem files_boundary_announced `{Env} (rawurl : string) (setters : list Option)
        (files : gmap string File) (headers : gmap string string)
        (req : http.Request) :
  Options.Data (parseOptions setters) = None ->
  Options.Form (parseOptions setters) = None ->
  Options.JSON (parseOptions setters) = None ->
  Options.Files (parseOptions setters) = Some files ->
  Options.Headers (parseOptions setters) = Some headers ->
  (forall k, is_Some (headers !! k) ->
             CanonicalMIMEHeaderKey k = "Content-Type" -> k = "Content-Type") ->
  strings_ContainsAny randomBoundary boundary_specials = false ->
  req ∈ sent (verb_call POST rawurl setters) ->
  http.Header req !! "Content-Type"
  = Some [("multipart/form-data; boundary=" ++ randomBoundary)%string] /\
  exists parts,
    length parts = size files /\
    http.Body req = Some (bytes_Buffer (Some (multipart_message randomBoundary parts))).
Proof.
  intros Hd Hf Hj Hfi Hh Huniq Hb Hin.
  assert (selected POST (parseOptions setters) = enc_files) as Hsel.
  { apply selected_files; try done. by rewrite Hfi. }
  assert (multipart.FormDataContentType (multipart.NewWriter randomBoundary)
          = ("multipart/form-data; boundary=" ++ randomBoundary)%string) as Hct.
  { unfold multipart.FormDataContentType. simpl multipart.boundary.
    unfold boundary_specials in Hb. by rewrite Hb. }
  split.
  - apply (sent_header_of POST rawurl setters req
             (<["Content-Type" := ("multipart/form-data; boundary=" ++ randomBoundary)%string]>
                headers)
             "Content-Type" "Content-Type" _ Hin).
    + rewrite Hsel, Hh. simpl. by rewrite Hct.
    + apply lookup_insert_eq.
    + reflexivity.
    + intros k Hk Hc. destruct (decide (k = "Content-Type")) as [->|Hne]; [done|].
      rewrite lookup_insert_ne in Hk by done. by apply Huniq.
    + by left.
  - destruct (sent_body POST rawurl setters req Hin) as (extra & Hen & ->).
    rewrite Hsel in Hen. destruct Hen as (h & fs & _ & Hfs & _ & ->).
    rewrite parseOptions_app. simpl.
    assert (fs = files) as -> by congruence.
    eexists. split; [|reflexivity].
    by rewrite length_parts_written, length_range_order.
Qed.

Lemma files_boundary_announced_witness :
  let req :=
    {| http.Method := "POST"; http.URL := "http://example.com/upload";
       http.Header := {[ "Content-Type" := ["multipart/form-data; boundary=7d1e3c"] ]};
       http.Body := Some (bytes_Buffer (Some (multipart_message "7d1e3c"
                       [{| part_name := "file"; part_filename := "hello.txt";
                           part_content := "hello" |}]))) |} in
  http.Header req !! "Content-Type" = Some ["multipart/form-data; boundary=7d1e3c"] /\
  exists parts,
    length parts = size ({[ "file" := Sample.hello_txt ]} : gmap string File) /\
    http.Body req = Some (bytes_Buffer (Some (multipart_message "7d1e3c" parts))).
Proof.
  intros req.
  apply (@files_boundary_announced (Sample.server Sample.ok) "http://example.com/upload"
           [Headers (Some ∅); Files (Some {[ "file" := Sample.hello_txt ]})]
           {[ "file" := Sample.hello_txt ]} ∅ req).
  - reflexivity.
  - reflexivity.
  - reflexivity.
  - reflexivity.
  - reflexivity.
  - intros k [x Hx]. rewrite lookup_empty in Hx. discriminate.
  - reflexivity.
  - vm_compute. left.
Defined.

(** X16: A files mapping without entries still gives a body: the closing
    delimiter alone. *)
Theorem empty_files_body `{Env} (rawurl : string) (setters : list Option)
        (req : http.Request) :
  Options.Data (parseOptions setters) = None ->
  Options.Form (parseOptions setters) = None ->
  Options.JSON (parseOptions setters) = None ->
  Options.Files (parseOptions setters) = Some ∅ ->
  req ∈ sent (verb_call POST rawurl setters) ->
  http.Body req = Some (bytes_Buffer (Some (close_delimiter randomBoundary))).
Proof.
  intros Hd Hf Hj Hfi Hin.
  assert (selected POST (parseOptions setters) = enc_files) as Hsel.
  { apply selected_files; try done. by rewrite Hfi. }
  destruct (sent_body POST rawurl setters req Hin) as (extra & Hen & ->).
  rewrite Hsel in Hen. destruct Hen as (h & fs & _ & Hfs & _ & ->).
  rewrite parseOptions_app. simpl.
  assert (fs = ∅) as -> by congruence.
  assert (range_order (∅ : gmap string File) = []) as ->; [|done].
  apply Permutation_nil_r. by rewrite range_order_perm, map_to_list_empty.
Qed.

Lemma empty_files_body_witness :
  let req :=
    {| http.Method := "POST"; http.URL := "http://example.com/upload";
       http.Header := {[ "Content-Type" := ["multipart/form-data; boundary=7d1e3c"] ]};
       http.Body := Some (bytes_Buffer (Some (close_delimiter "7d1e3c"))) |} in
  http.Body req = Some (bytes_Buffer (Some (close_delimiter "7d1e3c"))).
Proof.
  intros req.
  apply (@empty_files_body (Sample.server Sample.ok) "http://example.com/upload"
           [Headers (Some ∅); Files (Some ∅)] req).
  - reflexivity.
  - reflexivity.
  - reflexivity.
  - reflexivity.
  - vm_compute. left.
Defined.

(** X17: A header the caller supplies reaches the transport under its canonical
    name with its value, for every verb and encoder, when no other supplied
    header has the same canonical name, it is not the Authorization of a
    call with basic credentials, and it is not the Content-Type of a call
    whose encoder writes one. *)
Theorem caller_header_is_sent `{Env} (v : Verb) (rawurl : string)
        (setters : list Option) (headers : gmap string string) (k val : string)
        (req : http.Request) :
  let opts := parseOptions setters in
  Options.Headers opts = Some headers ->
  headers !! k = Some val ->
  (forall k', is_Some (headers !! k') ->
              CanonicalMIMEHeaderKey k' = CanonicalMIMEHeaderKey k -> k' = k) ->
  CanonicalMIMEHeaderKey k <> "Authorization" \/
    authType (Options.Auth opts) <> HTTPBasicAuth ->
  CanonicalMIMEHeaderKey k <> "Content-Type" \/
    writes_content_type (selected v opts) = false ->
  req ∈ sent (verb_call v rawurl setters) ->
  http.Header req !! CanonicalMIMEHeaderKey k = Some [val] /\
  Header_Get (http.Header req) k = val.
Proof.
  intros opts Hh Hl Huniq Hauth Hct Hin.
  assert (http.Header req !! CanonicalMIMEHeaderKey k = Some [val]) as Hlk.
  { destruct (content_type_of (selected v opts)) as [ct|] eqn:Ect.
    - assert (CanonicalMIMEHeaderKey k <> "Content-Type") as Hne.
      { destruct Hct as [Hne|Hw]; [done|].
        rewrite (not_content_type_written _ Hw) in Ect. discriminate. }
      assert (k <> "Content-Type") as Hk by (intros ->; by apply Hne).
      apply (sent_header_of v rawurl setters req (<["Content-Type" := ct]> headers)
               _ k val Hin).
      + fold opts. by rewrite Ect, Hh.
      + by rewrite lookup_insert_ne.
      + reflexivity.
      + intros k' Hk' Hc. destruct (decide (k' = "Content-Type")) as [->|Hne'].
        * destruct Hne. by rewrite <- Hc.
        * rewrite lookup_insert_ne in Hk' by done. by apply Huniq.
      + done.
    - apply (sent_header_of v rawurl setters req headers _ k val Hin).
      + fold opts. by rewrite Ect.
      + done.
      + reflexivity.
      + done.
      + done. }
  split; [done|]. unfold Header_Get. by rewrite Hlk.
Qed.

Lemma caller_header_is_sent_witness :
  let req :=
    {| http.Method := "POST"; http.URL := "http://example.com/";
       http.Header := {[ "X-Trace-Id" := ["abc"];
                         "Content-Type" := ["application/x-www-form-urlencoded"] ]};
       http.Body := Some (strings_Reader (Some "a=b")) |} in
  http.Header req !! CanonicalMIMEHeaderKey "x-trace-id" = Some ["abc"] /\
  Header_Get (http.Header req) "x-trace-id" = "abc".
Proof.
  intros req.
  apply (@caller_header_is_sent (Sample.server Sample.ok) POST "http://example.com/"
           [Headers (Some {[ "x-trace-id" := "abc" ]}); Form (Some {[ "a" := "b" ]})]
           {[ "x-trace-id" := "abc" ]} "x-trace-id" "abc" req).
  - reflexivity.
  - reflexivity.
  - intros k' [x Hx] _. apply lookup_singleton_Some in Hx as [<- _]. done.
  - left. vm_compute. discriminate.
  - left. vm_compute. discriminate.
  - vm_compute. left.
Defined.

(** X18: The package adds no header of its own besides Authorization for basic
    credentials and the encoder's Content-Type: every header of a submitted
    request has one value and is one of these two or the canonical form of
    a header the caller supplied.  In particular a call without basic
    credentials whose caller supplied no Authorization header sends none. *)
Theorem only_known_headers `{Env} (v : Verb) (rawurl : string)
        (setters : list Option) (req : http.Request) :
  req ∈ sent (verb_call v rawurl setters) ->
  let opts := parseOptions setters in
  (forall K vs, http.Header req !! K = Some vs ->
     length vs = 1%nat /\
     ((K = "Authorization" /\ authType (Options.Auth opts) = HTTPBasicAuth) \/
      (K = "Content-Type" /\ writes_content_type (selected v opts) = true) \/
      (exists headers k, Options.Headers opts = Some headers /\
                         is_Some (headers !! k) /\ CanonicalMIMEHeaderKey k = K))) /\
  (authType (Options.Auth opts) <> HTTPBasicAuth ->
   (forall headers k, Options.Headers opts = Some headers -> is_Some (headers !! k) ->
                      CanonicalMIMEHeaderKey k <> "Authorization") ->
   http.Header req !! "Authorization" = None).
Proof.
  intros Hin opts.
  assert (forall K vs, http.Header req !! K = Some vs ->
     length vs = 1%nat /\
     ((K = "Authorization" /\ authType (Options.Auth opts) = HTTPBasicAuth) \/
      (K = "Content-Type" /\ writes_content_type (selected v opts) = true) \/
      (exists headers k, Options.Headers opts = Some headers /\
                         is_Some (headers !! k) /\ CanonicalMIMEHeaderKey k = K))) as Hall.
  { intros K vs Hl.
    destruct (sent_header_inv v rawurl setters req K vs Hin Hl)
      as [(HK & Hb & ->)|[(HK & Hct & Hlen)|(h & k & val & Hh & Hk & HK & ->)]].
    - split; [done|]. by left.
    - split; [done|]. right. left. split; [done|].
      fold opts in Hct. by destruct (selected v opts).
    - split; [done|]. right. right. exists h, k. eauto. }
  split; [exact Hall|].
  intros Hnb Hno. destruct (http.Header req !! "Authorization") as [vs|] eqn:El; [|done].
  destruct (Hall _ _ El) as [_ [[_ Hb]|[[HK _]|(h & k & Hh & Hk & HK)]]].
  - done.
  - discriminate.
  - destruct (Hno h k Hh Hk HK).
Qed.

Lemma only_known_headers_witness :
  let req :=
    {| http.Method := "GET"; http.URL := "http://example.com/";
       http.Header := {[ "Accept" := ["*/*"] ]}; http.Body := None |} in
  let opts := parseOptions [Headers (Some {[ "accept" := "*/*" ]})] in
  (forall K vs, http.Header req !! K = Some vs ->
     length vs = 1%nat /\
     ((K = "Authorization" /\ authType (Options.Auth opts) = HTTPBasicAuth) \/
      (K = "Content-Type" /\ writes_content_type (selected GET opts) = true) \/
      (exists headers k, Options.Headers opts = Some headers /\
                         is_Some (headers !! k) /\ CanonicalMIMEHeaderKey k = K))) /\
  (authType (Options.Auth opts) <> HTTPBasicAuth ->
   (forall headers k, Options.Headers opts = Some headers -> is_Some (headers !! k) ->
                      CanonicalMIMEHeaderKey k <> "Authorization") ->
   http.Header req !! "Authorization" = None).
Proof.
  intros req opts.
  apply (@only_known_headers (Sample.server Sample.ok) GET "http://example.com/"
           [Headers (Some {[ "accept" := "*/*" ]})] req).
  vm_compute. left.
Defined.

(** ** The encoders called without their payload *)

Section bare_encoders.

Context `{Env}.

Lemma request_typed_nil (v : Verb) (rawurl url' : string) (setters : list Option) :
  merge_params (Options.Params (parseOptions setters)) rawurl = inl url' ->
  url_Parse url' = None ->
  typed_nil (Options.Body (parseOptions setters)) = true ->
  request (method_of v) rawurl setters = panic nil_dereference.
Proof.
  intros Hm Hu Hn.
  destruct (request_outcome v rawurl setters)
    as [[_ Hm']|[(u & err & Hm' & Hu' & _)|[(u & _ & _ & _ & Hc)
        |(u & req & Hm' & Hu' & Hn' & _)]]]; congruence.
Qed.

End bare_encoders.

(** X19: The verbs call an encoder only when its payload is set, and the
    encoders depend on it: [requestData], [requestForm] and [requestJSON]
    called without their payload hand [http.NewRequest] a reader around a
    nil pointer, which panics once the URL has been accepted;
    [requestFiles] without a files mapping sends the closing delimiter. *)
Theorem encoders_need_their_payload `{Env} (v : Verb) (rawurl url' : string)
        (setters : list Option) (headers : gmap string string) :
  let opts := parseOptions setters in
  merge_params (Options.Params opts) rawurl = inl url' ->
  url_Parse url' = None ->
  Options.Headers opts = Some headers ->
  (Options.Data opts = None ->
   requestData (method_of v) rawurl setters = panic nil_dereference) /\
  (Options.Form opts = None ->
   requestForm (method_of v) rawurl setters = panic nil_dereference) /\
  (Options.JSON opts = None ->
   requestJSON (method_of v) rawurl setters = panic nil_dereference) /\
  (Options.Files opts = None ->
   forall req, req ∈ sent (requestFiles (method_of v) rawurl setters) ->
               http.Body req = Some (bytes_Buffer (Some (close_delimiter randomBoundary)))).
Proof.
  intros opts Hm Hu Hh. subst opts.
  assert (forall extra, Forall encoder_setting extra ->
            merge_params (Options.Params (parseOptions (setters ++ extra))) rawurl
            = inl url') as Hmx.
  { intros extra Hex. rewrite parseOptions_app.
    by destruct (encoder_settings_keep extra Hex (parseOptions setters)) as (-> & _). }
  repeat split.
  - intros Hd. unfold requestData. rewrite Hd, return_r_err_id.
    apply (request_typed_nil v rawurl url'); [|done|by rewrite parseOptions_app].
    apply Hmx. encoder_settings.
  - intros Hf. unfold requestForm. rewrite Hf, Hh, return_r_err_id, <- app_assoc.
    apply (request_typed_nil v rawurl url'); [|done|by rewrite parseOptions_app].
    apply Hmx. encoder_settings.
  - intros Hj. unfold requestJSON. rewrite Hj, Hh, return_r_err_id, <- app_assoc.
    apply (request_typed_nil v rawurl url'); [|done|by rewrite parseOptions_app].
    apply Hmx. encoder_settings.
  - intros Hf req. unfold requestFiles. rewrite Hf, Hh. simpl. rewrite <- app_assoc.
    intros Hin. apply request_sent in Hin as (_ & _ & _ & _ & _ & -> & _).
    by rewrite parseOptions_app.
Qed.

Lemma encoders_need_their_payload_witness :
  let E := Sample.server Sample.ok in
  let setters := [Headers (Some ∅)] in
  (Options.Data (parseOptions setters) = None ->
   @requestData E "POST" "http://example.com/" setters = panic nil_dereference) /\
  (Options.Form (parseOptions setters) = None ->
   @requestForm E "POST" "http://example.com/" setters = panic nil_dereference) /\
  (Options.JSON (parseOptions setters) = None ->
   @requestJSON E "POST" "http://example.com/" setters = panic nil_dereference) /\
  (Options.Files (parseOptions setters) = None ->
   forall req, req ∈ sent (@requestFiles E "POST" "http://example.com/" setters) ->
               http.Body req = Some (bytes_Buffer (Some (close_delimiter "7d1e3c")))).
Proof.
  intros E setters.
  apply (@encoders_need_their_payload E POST "http://example.com/" "http://example.com/"
           setters ∅).
  - reflexivity.
  - reflexivity.
  - reflexivity.
Defined.

(* ===================================================================== *)
(** * Properties of the earlier revision *)
(* ===================================================================== *)

Section legacy_properties.

Context `{Env}.
Variable errors_Errorf : string -> error.

(** What the earlier dispatcher computes from the transport's answer. *)
Lemma legacy_request_cases (method rawurl : string) (auth : Auth)
      (headers params : option (gmap string string)) (body : option Reader) :
  let c := legacy.request errors_Errorf method rawurl auth headers params body in
  (sent c = [] /\
   ((exists err, ended c = Returned None (Some err)) \/
    ended c = Panicked nil_dereference)) \/
  (exists req,
     sent c = [req] /\ http.Body req = body /\
     ended c
     = match client_Do legacy.client req with
       | (_, Some err) => Returned None (Some err)
       | (None, None) => Panicked nil_dereference
       | (Some rsp0, None) =>
           if http.StatusCode rsp0 =? 200
           then Returned (Some {| rsp := rsp0 |}) None
           else Returned (Some {| rsp := rsp0 |})
                         (Some (errors_Errorf (http.Status rsp0)))
       end).
Proof.
  intros c. subst c. unfold legacy.request.
  match goal with |- context [match ?m with inl _ => _ | inr _ => _ end] =>
    destruct m as [url'|err] end.
  2: { left. split; [done|]. left. eauto. }
  destruct (http_NewRequest method url' body) as [req0|err|msg] eqn:Enew.
  - right.
    destruct (http_NewRequest_Ok _ _ _ _ Enew) as (_ & Hb & _).
    destruct (fill_headers_keeps req0 headers) as (_ & _ & Hb').
    match goal with |- context [client_Do ?c ?r] => set (req := r) end.
    assert (http.Body req = body) as Hbody.
    { subst req. destruct (decide _); simpl; congruence. }
    exists req.
    destruct (client_Do legacy.client req) as [[rsp0|] [err|]]; simpl; try done.
    unfold http.StatusOK. by destruct (http.StatusCode rsp0 =? 200).
  - left. split; [done|]. left. eauto.
  - left. split; [done|]. right. simpl. f_equal.
    revert Enew. unfold http_NewRequest.
    destruct (negb _); [discriminate|]. destruct (url_Parse url'); [discriminate|].
    by destruct body as [[[?|]|[?|]|[?|]|?]|]; intros [= <-].
Qed.

Lemma legacy_return_nil_err (c : call) :
  sent (legacy.return_nil_err c) = sent c /\
  ended (legacy.return_nil_err c)
  = match ended c with
    | Returned r (Some err) => Returned None (Some err)
    | other => other
    end.
Proof. destruct c as [l [r [e|]|m]]; done. Qed.

Definition legacy_method (v : legacy.Verb) : string :=
  match v with
  | legacy.GET => http.MethodGet
  | legacy.POST => http.MethodPost
  | legacy.PUT => http.MethodPut
  | legacy.DELETE => http.MethodDelete
  end.

(** Without a payload, and always for [Get] and [Delete], the earlier
    verbs call the dispatcher with a nil body. *)
Lemma legacy_plain (v : legacy.Verb) (rawurl : string) (setters : list Option) :
  let opts := parseOptions setters in
  v = legacy.GET \/ v = legacy.DELETE \/ ~ legacy.has_payload opts ->
  legacy.verb_call errors_Errorf v rawurl setters
  = legacy.request errors_Errorf (legacy_method v) rawurl (Options.Auth opts)
      (Options.Headers opts) (Options.Params opts) None.
Proof.
  intros opts [->|[->|Hno]]; [done..|].
  unfold legacy.has_payload in Hno. fold opts in Hno.
  destruct v; simpl; [done| | |done]; unfold legacy.Post, legacy.Put; fold opts;
    rewrite !bool_decide_eq_false_2 by tauto; done.
Qed.

(** With a payload, the earlier [Post] and [Put] end in the encoder or
    send one request with a body and pass on the dispatcher's result with
    the response removed from every error. *)
Lemma legacy_encoded (v : legacy.Verb) (rawurl : string) (setters : list Option) :
  let opts := parseOptions setters in
  let c := legacy.verb_call errors_Errorf v rawurl setters in
  v = legacy.POST \/ v = legacy.PUT ->
  legacy.has_payload opts ->
  (sent c = [] /\
   ((exists err, ended c = Returned None (Some err)) \/
    (exists msg, ended c = Panicked msg))) \/
  (exists req,
     sent c = [req] /\ http.Body req <> None /\
     ended c
     = match client_Do legacy.client req with
       | (_, Some err) => Returned None (Some err)
       | (None, None) => Panicked nil_dereference
       | (Some rsp0, None) =>
           if http.StatusCode rsp0 =? 200
           then Returned (Some {| rsp := rsp0 |}) None
           else Returned None (Some (errors_Errorf (http.Status rsp0)))
       end).
Proof.
  intros opts c Hv Hpay. subst c.
  assert (forall method auth headers params body,
    let c := legacy.return_nil_err
               (legacy.request errors_Errorf method rawurl auth headers params (Some body)) in
    (sent c = [] /\
     ((exists err, ended c = Returned None (Some err)) \/
      (exists msg, ended c = Panicked msg))) \/
    (exists req,
       sent c = [req] /\ http.Body req <> None /\
       ended c
       = match client_Do legacy.client req with
         | (_, Some err) => Returned None (Some err)
         | (None, None) => Panicked nil_dereference
         | (Some rsp0, None) =>
             if http.StatusCode rsp0 =? 200
             then Returned (Some {| rsp := rsp0 |}) None
             else Returned None (Some (errors_Errorf (http.Status rsp0)))
         end)) as Hdrop.
  { intros method auth headers params body c. subst c.
    destruct (legacy_return_nil_err
                (legacy.request errors_Errorf method rawurl auth headers params (Some body)))
      as [-> ->].
    destruct (legacy_request_cases method rawurl auth headers params (Some body))
      as [[-> [[err ->]| ->]]|(req & -> & Hb & ->)].
    - left. split; [done|]. left. eauto.
    - left. split; [done|]. right. eauto.
    - right. exists req. split; [done|]. split; [by rewrite Hb|].
      destruct (client_Do legacy.client req) as [[rsp0|] [err|]]; try done.
      by destruct (http.StatusCode rsp0 =? 200). }
  assert (forall method,
    let c :=
      if bool_decide (Options.Data opts ≠ None) then
        legacy.requestData errors_Errorf method rawurl (Options.Auth opts)
          (Options.Headers opts) (Options.Params opts) (Options.Data opts)
      else if bool_decide (Options.Form opts ≠ None) then
        legacy.requestForm errors_Errorf method rawurl (Options.Auth opts)
          (Options.Headers opts) (Options.Params opts) (Options.Form opts)
      else if bool_decide (Options.JSON opts ≠ None) then
        legacy.requestJSON errors_Errorf method rawurl (Options.Auth opts)
          (Options.Headers opts) (Options.Params opts) (Options.JSON opts)
      else
        legacy.request errors_Errorf method rawurl (Options.Auth opts)
          (Options.Headers opts) (Options.Params opts) None in
    (sent c = [] /\
     ((exists err, ended c = Returned None (Some err)) \/
      (exists msg, ended c = Panicked msg))) \/
    (exists req,
       sent c = [req] /\ http.Body req <> None /\
       ended c
       = match client_Do legacy.client req with
         | (_, Some err) => Returned None (Some err)
         | (None, None) => Panicked nil_dereference
         | (Some rsp0, None) =>
             if http.StatusCode rsp0 =? 200
             then Returned (Some {| rsp := rsp0 |}) None
             else Returned None (Some (errors_Errorf (http.Status rsp0)))
         end)) as Hchain.
  { intros method. cbv zeta. unfold legacy.has_payload in Hpay. fold opts in Hpay.
    repeat case_bool_decide.
    - apply Hdrop.
    - unfold legacy.requestForm.
      destruct (Options.Headers opts); [apply Hdrop|].
      left. split; [done|]. right. eauto.
    - unfold legacy.requestJSON.
      destruct (Options.JSON opts) as [j|]; [destruct (json_Marshal j)|].
      + destruct (Options.Headers opts); [apply Hdrop|].
        left. split; [done|]. right. eauto.
      + left. split; [done|]. left. eauto.
      + destruct (Options.Headers opts); [apply Hdrop|].
        left. split; [done|]. right. eauto.
    - tauto. }
  destruct Hv as [-> | ->]; apply Hchain.
Qed.

End legacy_properties.

(** An earlier verb call either bypasses the encoders or is a [Post] or
    [Put] with a payload. *)
Lemma legacy_plain_or_encoded (v : legacy.Verb) (opts : Options.t) :
  (v = legacy.GET \/ v = legacy.DELETE \/ ~ legacy.has_payload opts) \/
  ((v = legacy.POST \/ v = legacy.PUT) /\ legacy.has_payload opts).
Proof.
  unfold legacy.has_payload.
  destruct (Options.Data opts);
    [destruct v; [by left; left|right; split; [by left|by left]
                  |right; split; [by right|by left]|by left; right; left]|].
  destruct (Options.Form opts);
    [destruct v; [by left; left|right; split; [by left|by right; left]
                  |right; split; [by right|by right; left]|by left; right; left]|].
  destruct (Options.JSON opts);
    [destruct v; [by left; left|right; split; [by left|by right; right]
                  |right; split; [by right|by right; right]|by left; right; left]|].
  left. right. right. intros [?|[?|?]]; done.
Qed.

(** X20: In the earlier revision a nil error means status 200 exactly: the
    call returned the response the transport gave for the single request
    sent, and its status code is 200. *)
Theorem legacy_nil_error_means_200 `{Env} (errors_Errorf : string -> error)
        (v : legacy.Verb) (rawurl : string) (setters : list Option)
        (r : option Response) :
  ended (legacy.verb_call errors_Errorf v rawurl setters) = Returned r None ->
  exists req rsp0,
    sent (legacy.verb_call errors_Errorf v rawurl setters) = [req] /\
    client_Do legacy.client req = (Some rsp0, None) /\
    r = Some {| rsp := rsp0 |} /\
    http.StatusCode rsp0 = 200.
Proof.
  intros Hend.
  assert (forall c : call,
    ended c = Returned r None ->
    forall req,
      sent c = [req] ->
      (ended c
       = match client_Do legacy.client req with
         | (_, Some err) => Returned None (Some err)
         | (None, None) => Panicked nil_dereference
         | (Some rsp0, None) =>
             if http.StatusCode rsp0 =? 200
             then Returned (Some {| rsp := rsp0 |}) None
             else Returned (Some {| rsp := rsp0 |})
                           (Some (errors_Errorf (http.Status rsp0)))
         end \/
       ended c
       = match client_Do legacy.client req with
         | (_, Some err) => Returned None (Some err)
         | (None, None) => Panicked nil_dereference
         | (Some rsp0, None) =>
             if http.StatusCode rsp0 =? 200
             then Returned (Some {| rsp := rsp0 |}) None
             else Returned None (Some (errors_Errorf (http.Status rsp0)))
         end) ->
      exists rsp0, client_Do legacy.client req = (Some rsp0, None) /\
                   r = Some {| rsp := rsp0 |} /\ http.StatusCode rsp0 = 200) as Hkey.
  { intros c Hc req _ Hcl. rewrite Hc in Hcl.
    destruct (client_Do legacy.client req) as [[rsp0|] [err|]];
      try (destruct Hcl; discriminate).
    destruct (Z.eqb_spec (http.StatusCode rsp0) 200);
      [|destruct Hcl; discriminate].
    exists rsp0. destruct Hcl as [[= ->]|[= ->]]; done. }
  destruct (legacy_plain_or_encoded v (parseOptions setters)) as [Hplain|[Hv Hp]].
  - rewrite (legacy_plain errors_Errorf v rawurl setters Hplain) in Hend |- *.
    destruct (legacy_request_cases errors_Errorf (legacy_method v) rawurl
                (Options.Auth (parseOptions setters)) (Options.Headers (parseOptions setters))
                (Options.Params (parseOptions setters)) None)
      as [[_ [[err He]|He]]|(req & Hs & _ & He)]; try congruence.
    destruct (Hkey _ Hend req Hs (or_introl He)) as (rsp0 & ? & ? & ?).
    exists req, rsp0. done.
  - destruct (legacy_encoded errors_Errorf v rawurl setters Hv Hp)
      as [[_ [[err He]|[msg He]]]|(req & Hs & _ & He)]; try congruence.
    destruct (Hkey _ Hend req Hs (or_intror He)) as (rsp0 & ? & ? & ?).
    exists req, rsp0. done.
Qed.

Lemma legacy_nil_error_means_200_witness :
  exists req rsp0,
    sent (@legacy.verb_call (Sample.server Sample.ok) errors_New legacy.GET
            "http://example.com/" []) = [req] /\
    @client_Do (Sample.server Sample.ok) legacy.client req = (Some rsp0, None) /\
    Some {| rsp := Sample.ok |} = Some {| rsp := rsp0 |} /\
    http.StatusCode rsp0 = 200.
Proof.
  apply (@legacy_nil_error_means_200 (Sample.server Sample.ok) errors_New legacy.GET
           "http://example.com/" [] (Some {| rsp := Sample.ok |})).
  reflexivity.
Defined.

(** X21: In the earlier revision a status other than 200 is reported with the
    error made from the status line; [Get], [Delete] and a [Post] or [Put]
    without payload return the response with it, while a [Post] or [Put]
    with a payload returns a nil response. *)
Theorem legacy_status_failure `{Env} (errors_Errorf : string -> error)
        (v : legacy.Verb) (rawurl : string) (setters : list Option)
        (req : http.Request) (rsp0 : http.Response) :
  let c := legacy.verb_call errors_Errorf v rawurl setters in
  req ∈ sent c ->
  client_Do legacy.client req = (Some rsp0, None) ->
  http.StatusCode rsp0 <> 200 ->
  (v = legacy.GET \/ v = legacy.DELETE \/ ~ legacy.has_payload (parseOptions setters) ->
   ended c = Returned (Some {| rsp := rsp0 |}) (Some (errors_Errorf (http.Status rsp0)))) /\
  ((v = legacy.POST \/ v = legacy.PUT) /\ legacy.has_payload (parseOptions setters) ->
   ended c = Returned None (Some (errors_Errorf (http.Status rsp0)))).
Proof.
  intros c Hin Hdo Hcode. subst c. split.
  - intros Hplain.
    rewrite (legacy_plain errors_Errorf v rawurl setters Hplain) in Hin |- *.
    destruct (legacy_request_cases errors_Errorf (legacy_method v) rawurl
                (Options.Auth (parseOptions setters)) (Options.Headers (parseOptions setters))
                (Options.Params (parseOptions setters)) None)
      as [[Hs _]|(req' & Hs & _ & He)]; rewrite Hs in Hin.
    + by apply elem_of_nil in Hin.
    + apply list_elem_of_singleton in Hin as ->. rewrite He, Hdo.
      by destruct (Z.eqb_spec (http.StatusCode rsp0) 200).
  - intros [Hv Hp].
    destruct (legacy_encoded errors_Errorf v rawurl setters Hv Hp)
      as [[Hs _]|(req' & Hs & _ & He)]; rewrite Hs in Hin.
    + by apply elem_of_nil in Hin.
    + apply list_elem_of_singleton in Hin as ->. rewrite He, Hdo.
      by destruct (Z.eqb_spec (http.StatusCode rsp0) 200).
Qed.

Lemma legacy_status_failure_witness :
  (legacy.POST = legacy.GET \/ legacy.POST = legacy.DELETE
   \/ ~ legacy.has_payload (parseOptions [Data (Some Sample.greeting)]) ->
   ended (@legacy.verb_call (Sample.server Sample.not_found) errors_New legacy.POST
            "http://example.com/" [Data (Some Sample.greeting)])
   = Returned (Some {| rsp := Sample.not_found |}) (Some (errors_New "404 Not Found"))) /\
  ((legacy.POST = legacy.POST \/ legacy.POST = legacy.PUT)
   /\ legacy.has_payload (parseOptions [Data (Some Sample.greeting)]) ->
   ended (@legacy.verb_call (Sample.server Sample.not_found) errors_New legacy.POST
            "http://example.com/" [Data (Some Sample.greeting)])
   = Returned None (Some (errors_New "404 Not Found"))).
Proof.
  apply (@legacy_status_failure (Sample.server Sample.not_found) errors_New legacy.POST
           "http://example.com/" [Data (Some Sample.greeting)]
           {| http.Method := "POST"; http.URL := "http://example.com/";
              http.Header := ∅; http.Body := Some (strings_Reader (Some "map[msg:hi]")) |}
           Sample.not_found).
  - vm_compute. left.
  - reflexivity.
  - discriminate.
Defined.

(** X22: In the earlier revision a submitted request carries a body exactly
    when the call is a [Post] or [Put] with a data, form or JSON payload:
    [Get] and [Delete] ignore the payload options. *)
Theorem legacy_body_only_from_Post_Put `{Env} (errors_Errorf : string -> error)
        (v : legacy.Verb) (rawurl : string) (setters : list Option)
        (req : http.Request) :
  req ∈ sent (legacy.verb_call errors_Errorf v rawurl setters) ->
  http.Body req <> None
  <-> (v = legacy.POST \/ v = legacy.PUT) /\ legacy.has_payload (parseOptions setters).
Proof.
  intros Hin.
  destruct (legacy_plain_or_encoded v (parseOptions setters)) as [Hplain|[Hv Hp]].
  - rewrite (legacy_plain errors_Errorf v rawurl setters Hplain) in Hin.
    destruct (legacy_request_cases errors_Errorf (legacy_method v) rawurl
                (Options.Auth (parseOptions setters)) (Options.Headers (parseOptions setters))
                (Options.Params (parseOptions setters)) None)
      as [[Hs _]|(req' & Hs & Hb & _)]; rewrite Hs in Hin.
    + by apply elem_of_nil in Hin.
    + apply list_elem_of_singleton in Hin as ->. rewrite Hb. split; [done|].
      intros [Hv Hp]. destruct Hplain as [->|[->|Hno]]; [by destruct Hv..|done].
  - destruct (legacy_encoded errors_Errorf v rawurl setters Hv Hp)
      as [[Hs _]|(req' & Hs & Hb & _)]; rewrite Hs in Hin.
    + by apply elem_of_nil in Hin.
    + apply list_elem_of_singleton in Hin as ->. split; [done|]. intros _. exact Hb.
Qed.

Lemma legacy_body_only_from_Post_Put_witness :
  http.Body {| http.Method := "DELETE"; http.URL := "http://example.com/";
               http.Header := ∅; http.Body := None |} <> None
  <-> (legacy.DELETE = legacy.POST \/ legacy.DELETE = legacy.PUT)
      /\ legacy.has_payload (parseOptions [Data (Some Sample.greeting)]).
Proof.
  apply (@legacy_body_only_from_Post_Put (Sample.server Sample.ok) errors_New legacy.DELETE
           "http://example.com/" [Data (Some Sample.greeting)]).
  vm_compute. left.
Defined.

